(** * CHZZK chat monitor: keyword policy, detection engine and session loop

    A shallow embedding of [config_store.py], of the [ChzzkChat] class of
    [run.py], of [format_duration] of [broadcast_logger.py] and of the
    parsers and printers of the input fields of [gui.py], followed by the
    properties of the keyword matcher, of the sliding-window detection
    engine, of the configuration store, of the receive loop and of the
    input fields.

    Conventions of the embedding.
    - Python [str] values are modelled by [string] over the ASCII range,
      where [str.lower], [str.strip], [str.isdigit] and the regular
      expression class [\w] are given by the small tables of module [Py].
      On other characters Python consults the Unicode database, which is
      not modelled; [Py.isascii] tells the strings on which the tables are
      those of Python.
    - A Python [dict] is an insertion-ordered association list with unique
      keys ([Py.dict]); a Python [set] of strings is the list of its members
      in order of first insertion, and the order in which the interpreter
      iterates over it is a parameter of the runtime ([set_iter]).
    - Time stamps are the rationals [msgTime / 1000]; the floating-point
      division and subtraction of the source are taken to be exact.
    - Code that can raise runs in the monad [Run.M]: a state transformer
      over the whole machine (the object, the files, the trace of effects)
      that returns either a value or the exception raised.  The state a
      computation has reached when it raises is kept, as in Python. *)

From Stdlib Require Import List String Ascii ZArith QArith Qround Bool Lia.
From Stdlib Require Import Permutation Sorted DecimalString DecimalPos.
Import ListNotations.

Local Open Scope string_scope.
Local Open Scope list_scope.
Local Open Scope Z_scope.

Set Warnings "-register-all".

(* ================================================================== *)
(** ** Python values and built-ins *)
(* ================================================================== *)

Module Py.

(** Exceptions.  [KeyboardInterrupt] is a [BaseException] and is not caught
    by [except Exception]; everything else the program meets is. *)
Inductive exn : Type :=
| OSError
| ValueError
| TypeError
| KeyError
| AttributeError
| WebSocketException
| KeyboardInterrupt.

Definition is_Exception (e : exn) : bool :=
  match e with KeyboardInterrupt => false | _ => true end.

Inductive result (A : Type) : Type :=
| Ok (a : A)
| Raise (e : exn).
Arguments Ok {A} a.
Arguments Raise {A} e.

(** JSON-shaped values: what [json.loads] returns, floats excluded. *)
Inductive pyval : Type :=
| PNone
| PBool (b : bool)
| PInt (z : Z)
| PStr (s : string)
| PList (l : list pyval)
| PDict (d : list (string * pyval)).

(** *** Characters and strings *)

Definition code (c : ascii) : Z := Z.of_nat (nat_of_ascii c).

(** [str.isspace] on the ASCII range. *)
Definition is_space (c : ascii) : bool :=
  ((9 <=? code c) && (code c <=? 13)) || ((28 <=? code c) && (code c <=? 32)).

Definition is_upper (c : ascii) : bool := (65 <=? code c) && (code c <=? 90).
Definition is_lower (c : ascii) : bool := (97 <=? code c) && (code c <=? 122).
Definition is_digit (c : ascii) : bool := (48 <=? code c) && (code c <=? 57).

(** The class [\w] of [re] on the ASCII range: letters, digits, underscore.
    For a [str] pattern [re] takes the class from the Unicode database, which
    on the ASCII range gives these characters. *)
Definition is_word (c : ascii) : bool :=
  is_upper c || is_lower c || is_digit c || (code c =? 95).



Definition lower_char (c : ascii) : ascii :=
  if is_upper c then ascii_of_nat (nat_of_ascii c + 32) else c.

(** [s.lower()] *)
Fixpoint lower (s : string) : string :=
  match s with
  | EmptyString => EmptyString
  | String c r => String (lower_char c) (lower r)
  end.

Definition nonempty (s : string) : bool :=
  match s with EmptyString => false | String _ _ => true end.

Fixpoint lstrip (s : string) : string :=
  match s with
  | EmptyString => EmptyString
  | String c r => if is_space c then lstrip r else s
  end.

Fixpoint rstrip (s : string) : string :=
  match s with
  | EmptyString => EmptyString
  | String c r =>
      match rstrip r with
      | EmptyString => if is_space c then EmptyString else String c EmptyString
      | r' => String c r'
      end
  end.

(** [s.strip()] *)
Definition strip (s : string) : string := rstrip (lstrip s).

(** [s.split(sep)] for a one-character separator. *)
Fixpoint split (sep : ascii) (s : string) : list string :=
  match s with
  | EmptyString => [EmptyString]
  | String c r =>
      if Ascii.eqb c sep then EmptyString :: split sep r
      else match split sep r with
           | [] => [String c EmptyString]
           | w :: ws => String c w :: ws
           end
  end.

Fixpoint all_digits (s : string) : bool :=
  match s with
  | EmptyString => true
  | String c r => is_digit c && all_digits r
  end.

(** [s.isdigit()] *)
Definition isdigit (s : string) : bool := nonempty s && all_digits s.

(** [needle in hay] for strings. *)
Fixpoint str_in (needle hay : string) : bool :=
  String.prefix needle hay ||
  match hay with
  | EmptyString => false
  | String _ r => str_in needle r
  end.

(** The digits of an [int] literal as [int(str)] reads them: decimal digits,
    single underscores allowed between two digits. *)
Fixpoint digits_value (acc : Z) (after_digit : bool) (s : string) : option Z :=
  match s with
  | EmptyString => if after_digit then Some acc else None
  | String c r =>
      if is_digit c then digits_value (10 * acc + (code c - 48)) true r
      else if (code c =? 95) && after_digit then digits_value acc false r
      else None
  end.

(** [int(s)] for a string: surrounding white space and one sign allowed.
    The limit the interpreter puts on the number of digits (4300 unless it
    is set otherwise) is not modelled. *)
Definition int_of_str (s : string) : option Z :=
  match strip s with
  | String "+" r => digits_value 0 false r
  | String "-" r => option_map Z.opp (digits_value 0 false r)
  | t => digits_value 0 false t
  end.

(** [str(n)] for an [int]. *)
Definition str_of_int (z : Z) : string := NilZero.string_of_int (Z.to_int z).

(** *** Dictionaries and sets *)

Definition dict (V : Type) : Type := list (string * V).

(** [d.get(k)] *)
Fixpoint dget {V} (d : dict V) (k : string) : option V :=
  match d with
  | [] => None
  | (k', v) :: r => if String.eqb k' k then Some v else dget r k
  end.

(** [d.get(k, default)] *)
Definition dget_default {V} (d : dict V) (k : string) (default : V) : V :=
  match dget d k with Some v => v | None => default end.

(** [k in d] *)
Definition dmem {V} (d : dict V) (k : string) : bool :=
  match dget d k with Some _ => true | None => false end.

(** [d[k] = v]: an existing key keeps its place, a new key goes last. *)
Fixpoint dset {V} (d : dict V) (k : string) (v : V) : dict V :=
  match d with
  | [] => [(k, v)]
  | (k', v') :: r =>
      if String.eqb k' k then (k', v) :: r else (k', v') :: dset r k v
  end.

Definition dkeys {V} (d : dict V) : list string := map fst d.

(** A [set] of strings, by order of first insertion. *)
Definition pyset : Type := list string.

Definition set_mem (x : string) (s : pyset) : bool :=
  existsb (String.eqb x) s.

(** [s.add(x)] *)
Definition set_add (s : pyset) (x : string) : pyset :=
  if set_mem x s then s else s ++ [x].

(** What the interpreter supplies and the program does not control:
    [repr_container] is [str] of a list or of a dict, [set_iter] the order in
    which [for x in s] visits a set built by the given insertions, and
    [strftime ms] the local time [datetime.fromtimestamp(ms/1000)] printed
    with ['%Y-%m-%d %H:%M:%S'] ([None] when the conversion raises). *)
Class Runtime : Type := {
  repr_container : pyval -> string;
  set_iter : pyset -> list string;
  strftime : Z -> option string;
  set_iter_perm : forall s : pyset, Permutation (set_iter s) s
}.

Section Builtins.
Context {RT : Runtime}.

(** [str(v)] *)
Definition str (v : pyval) : string :=
  match v with
  | PNone => "None"
  | PBool true => "True"
  | PBool false => "False"
  | PInt z => str_of_int z
  | PStr s => s
  | PList _ | PDict _ => repr_container v
  end.

(** [int(v)]; [None] stands for the exception it raises. *)
Definition int (v : pyval) : option Z :=
  match v with
  | PBool b => Some (if b then 1 else 0)
  | PInt z => Some z
  | PStr s => int_of_str s
  | PNone | PList _ | PDict _ => None
  end.

End Builtins.

(** [x or default] on an optional integer: [None] and [0] are falsy. *)
Definition or_int (x : option Z) (default : Z) : Z :=
  match x with
  | Some v => if v =? 0 then default else v
  | None => default
  end.

(** [popleft] while the head satisfies [p]. *)
Fixpoint drop_while {A} (p : A -> bool) (l : list A) : list A :=
  match l with
  | [] => []
  | x :: r => if p x then drop_while p r else l
  end.

End Py.

(* ================================================================== *)
(** ** config_store.py *)
(* ================================================================== *)

Module ConfigStore.
Import Py.

(** One entry of [config['contains_keywords']]. *)
Record ContainsEntry : Type := {
  keyword : string;
  threshold : Z;
  window : Z
}.

(** The dictionary built by [_sanitize_config]: its six keys are fixed. *)
Record Config : Type := {
  keywords : list string;
  global_threshold : option Z;
  per_keyword_thresholds : dict Z;
  global_window : option Z;
  per_keyword_windows : dict Z;
  contains_keywords : list ContainsEntry
}.

(** The dictionary handled by [_load_data] and [_write_data]. *)
Record Data : Type := {
  config : Config;
  counts : dict Z
}.

(** The files and environment the store reads, and the one file it writes.
    [CONFIG_PATH] is [None] when [keyword_settings.json] does not exist,
    [Some None] when it exists and [json.loads] rejects it, and
    [Some (Some v)] when it parses to [v]; writing [json.dumps v] and reading
    it back gives [v].  The legacy loaders only read, so each stands for what
    it returns.  [writable] tells whether a write of the settings file
    succeeds.  A write that fails does so either when the file is opened,
    which leaves the file as it was, or after [open] has emptied it, which
    leaves a file holding none or only a part of the text; [fails_after_open]
    tells which. *)
Record Files : Type := {
  CONFIG_PATH : option (option pyval);
  LEGACY_COUNTS_JSON : option pyval;
  legacy_keywords : list string;
  legacy_threshold : option Z;
  legacy_thresholds : dict Z;
  legacy_window : option Z;
  legacy_windows : dict Z;
  writable : bool;
  fails_after_open : bool
}.

Definition set_CONFIG_PATH (f : Files) (c : option (option pyval)) : Files :=
  {| CONFIG_PATH := c;
     LEGACY_COUNTS_JSON := LEGACY_COUNTS_JSON f;
     legacy_keywords := legacy_keywords f;
     legacy_threshold := legacy_threshold f;
     legacy_thresholds := legacy_thresholds f;
     legacy_window := legacy_window f;
     legacy_windows := legacy_windows f;
     writable := writable f;
     fails_after_open := fails_after_open f |}.

(** The values as [json.dumps] sees them. *)
Definition int_dict_to_py (d : dict Z) : pyval :=
  PDict (map (fun kv => (fst kv, PInt (snd kv))) d).

Definition option_int_to_py (o : option Z) : pyval :=
  match o with Some z => PInt z | None => PNone end.

Definition entry_to_py (e : ContainsEntry) : pyval :=
  PDict [("keyword", PStr (keyword e));
         ("threshold", PInt (threshold e));
         ("window", PInt (window e))].

Definition config_to_py (c : Config) : pyval :=
  PDict [("keywords", PList (map PStr (keywords c)));
         ("global_threshold", option_int_to_py (global_threshold c));
         ("per_keyword_thresholds", int_dict_to_py (per_keyword_thresholds c));
         ("global_window", option_int_to_py (global_window c));
         ("per_keyword_windows", int_dict_to_py (per_keyword_windows c));
         ("contains_keywords", PList (map entry_to_py (contains_keywords c)))].

Definition data_to_py (d : Data) : pyval :=
  PDict [("config", config_to_py (config d));
         ("counts", int_dict_to_py (counts d))].

Section WithRuntime.
Context {RT : Runtime}.

Definition _ensure_positive_int (value : pyval) (default : Z) : Z :=
  match int value with
  | Some ivalue => if 1 <=? ivalue then ivalue else default
  | None => default
  end.

(** The loop [for k, v in m.items(): key = str(k).strip(); if key:
    sanitized[key] = _ensure_positive_int(v, default)]. *)
Definition sanitize_int_map (default : Z) (m : dict pyval) : dict Z :=
  fold_left
    (fun sanitized kv =>
       let key := strip (fst kv) in
       if nonempty key
       then dset sanitized key (_ensure_positive_int (snd kv) default)
       else sanitized)
    m [].

(** One turn of the loop over [contains]; the state is the pair of
    [sanitized_contains] and [seen]. *)
Definition contains_step (st : list ContainsEntry * pyset) (item : pyval)
  : list ContainsEntry * pyset :=
  let '(sanitized_contains, seen) := st in
  match item with
  | PDict d =>
      let keyword := strip (str (dget_default d "keyword" (PStr ""))) in
      if negb (nonempty keyword) then st
      else
        let key_lower := lower keyword in
        if set_mem key_lower seen then st
        else
          let thr := _ensure_positive_int (dget_default d "threshold" (PInt 1)) 1 in
          let win := _ensure_positive_int (dget_default d "window" (PInt 60)) 60 in
          (sanitized_contains
             ++ [{| keyword := keyword; threshold := thr; window := win |}],
           set_add seen key_lower)
  | PStr item =>
      let keyword := strip item in
      if negb (nonempty keyword) then st
      else
        let key_lower := lower keyword in
        if set_mem key_lower seen then st
        else
          (sanitized_contains
             ++ [{| keyword := keyword; threshold := 1; window := 60 |}],
           set_add seen key_lower)
  | _ => st
  end.

Definition _sanitize_config (raw : pyval) : Config :=
  let raw := match raw with PDict d => d | _ => [] end in
  {| keywords :=
       match dget raw "keywords" with
       | Some (PList keywords) =>
           map (fun k => strip (str k))
               (filter (fun k => nonempty (strip (str k))) keywords)
       | Some (PStr keywords) =>
           map strip (filter (fun seg => nonempty (strip seg))
                             (split "," keywords))
       | _ => []
       end;
     global_threshold :=
       match dget raw "global_threshold" with
       | None | Some PNone => None
       | Some threshold => Some (_ensure_positive_int threshold 1)
       end;
     per_keyword_thresholds :=
       match dget raw "per_keyword_thresholds" with
       | Some (PDict per_thresholds) => sanitize_int_map 1 per_thresholds
       | _ => []
       end;
     global_window :=
       match dget raw "global_window" with
       | None | Some PNone => None
       | Some window => Some (_ensure_positive_int window 60)
       end;
     per_keyword_windows :=
       match dget raw "per_keyword_windows" with
       | Some (PDict per_windows) => sanitize_int_map 60 per_windows
       | _ => []
       end;
     contains_keywords :=
       match dget raw "contains_keywords" with
       | Some (PList contains) => fst (fold_left contains_step contains ([], []))
       | _ => []
       end |}.

Definition _sanitize_counts (raw : pyval) : dict Z :=
  match raw with
  | PDict d =>
      fold_left
        (fun counts kv =>
           let key := strip (fst kv) in
           if negb (nonempty key) then counts
           else match int (snd kv) with
                | None => counts
                | Some ival =>
                    let ival := if ival <? 0 then 0 else ival in
                    dset counts (lower key) ival
                end)
        d []
  | _ => []
  end.

Definition _sanitize_data (raw : pyval) : Data :=
  let raw := match raw with PDict d => d | _ => [] end in
  if dmem raw "config" || dmem raw "counts" then
    {| config := _sanitize_config (dget_default raw "config" (PDict []));
       counts := _sanitize_counts (dget_default raw "counts" (PDict [])) |}
  else
    {| config := _sanitize_config (PDict raw);
       counts := [] |}.

Definition _load_legacy_counts (f : Files) : dict Z :=
  match LEGACY_COUNTS_JSON f with
  | Some raw => _sanitize_counts raw
  | None => []
  end.

Definition _load_data (f : Files) : Data :=
  match CONFIG_PATH f with
  | Some (Some raw) =>
      let data := _sanitize_data raw in
      match counts data with
      | [] =>
          match _load_legacy_counts f with
          | [] => data
          | legacy_counts => {| config := config data; counts := legacy_counts |}
          end
      | _ => data
      end
  | _ =>
      let legacy_config :=
        PDict [("keywords", PList (map PStr (legacy_keywords f)));
               ("global_threshold", option_int_to_py (legacy_threshold f));
               ("per_keyword_thresholds", int_dict_to_py (legacy_thresholds f));
               ("global_window", option_int_to_py (legacy_window f));
               ("per_keyword_windows", int_dict_to_py (legacy_windows f))] in
      {| config := _sanitize_config legacy_config;
         counts := _load_legacy_counts f |}
  end.

(** The files a write that raised leaves behind: what they were when the
    file could not be opened, and otherwise a settings file with an
    incomplete text, which is not JSON. *)
Definition after_failed_write (f : Files) : Files :=
  if fails_after_open f then set_CONFIG_PATH f (Some None) else f.

(** [CONFIG_PATH.write_text(text, encoding='utf-8')]: the outcome and the
    files it leaves.  [write_text] opens the file with mode ['w'], which
    empties it, then writes the text and closes the file; it raises
    [OSError] when one of these fails. *)
Definition write_text (text : pyval) (f : Files) : result unit * Files :=
  if writable f then (Ok tt, set_CONFIG_PATH f (Some (Some text)))
  else (Raise OSError, after_failed_write f).

Definition _write_data (data : Data) (f : Files) : result unit * Files :=
  let sanitized :=
    {| config := _sanitize_config (config_to_py (config data));
       counts := _sanitize_counts (int_dict_to_py (counts data)) |} in
  write_text (data_to_py sanitized) f.

Definition load_config (f : Files) : Config := config (_load_data f).

Definition save_config (config0 : pyval) (f : Files) : result unit * Files :=
  let data := _load_data f in
  let data := {| config := _sanitize_config config0; counts := counts data |} in
  _write_data data f.

Definition load_counts (f : Files) : dict Z := counts (_load_data f).

Definition save_counts (counts0 : dict Z) (f : Files) : result unit * Files :=
  let data := _load_data f in
  let data := {| config := config data;
                 counts := _sanitize_counts (int_dict_to_py counts0) |} in
  _write_data data f.

End WithRuntime.

End ConfigStore.

(* ================================================================== *)
(** ** run.py: the class [ChzzkChat] *)
(* ================================================================== *)

Module Run.
Import Py.

(** *** The compiled keyword pattern

    [re.compile(rf"(?<!\w){re.escape(kw)}(?!\w)", re.IGNORECASE)]: the
    escaped keyword is a literal, so the compiled pattern is determined by
    it. *)
Record Pattern : Type := { literal : string }.

Definition compile_keyword (kw : string) : Pattern := {| literal := kw |}.

(** The literal matched at the head of [text], ignoring case; the result is
    what follows the match. *)
Fixpoint match_literal (lit text : string) : option string :=
  match lit with
  | EmptyString => Some text
  | String p lit' =>
      match text with
      | EmptyString => None
      | String c text' =>
          if Ascii.eqb (lower_char c) (lower_char p)
          then match_literal lit' text'
          else None
      end
  end.

(** [(?<!\w)] given the character before the position, if any. *)
Definition lookbehind_ok (prev : option ascii) : bool :=
  match prev with
  | None => true
  | Some c => negb (is_word c)
  end.

(** [(?!\w)] given what follows the position. *)
Definition lookahead_ok (rest : string) : bool :=
  match rest with
  | EmptyString => true
  | String c _ => negb (is_word c)
  end.

Definition match_at (prev : option ascii) (pat : Pattern) (text : string) : bool :=
  lookbehind_ok prev &&
  match match_literal (literal pat) text with
  | Some rest => lookahead_ok rest
  | None => false
  end.

(** The scan of [pat.search]: every start position, left to right. *)
Fixpoint search_from (prev : option ascii) (pat : Pattern) (text : string) : bool :=
  match_at prev pat text ||
  match text with
  | EmptyString => false
  | String c r => search_from (Some c) pat r
  end.

(** [pat.search(text)] as a truth value. *)
Definition search (pat : Pattern) (text : string) : bool :=
  search_from None pat text.

(** *** The object *)

Inductive logfile : Type := FileOpen | FileClosed.

Record WebSocket : Type := { connected : bool }.

(** The attributes of a [ChzzkChat] object.  [streamer], [cookies] and
    [logger] are left out: the first two are only handed to the [api]
    module, whose answers are inputs of the model, and what the logger
    receives is recorded in the trace of the machine. *)
Record ChzzkChat : Type := {
  _stop : bool;
  keyword_display : dict string;
  keywords : pyset;
  keyword_threshold : Z;
  keyword_thresholds : dict Z;
  keyword_window : Z;
  keyword_windows : dict Z;
  contains_keywords_list : list string;
  contains_keywords_set : pyset;
  keyword_patterns : dict Pattern;
  keyword_counts : dict Z;
  keyword_hits_window : dict (list Q);
  keyword_log : option logfile;
  broadcast_start_timestamp : option Q;
  sid : pyval;
  userIdHash : string;
  chatChannelId : string;
  channelName : string;
  accessToken : string;
  extraToken : string;
  sock : option WebSocket
}.

Definition set__stop (self : ChzzkChat) (v0 : bool) : ChzzkChat :=
  {| _stop := v0;
     keyword_display := keyword_display self;
     keywords := keywords self;
     keyword_threshold := keyword_threshold self;
     keyword_thresholds := keyword_thresholds self;
     keyword_window := keyword_window self;
     keyword_windows := keyword_windows self;
     contains_keywords_list := contains_keywords_list self;
     contains_keywords_set := contains_keywords_set self;
     keyword_patterns := keyword_patterns self;
     keyword_counts := keyword_counts self;
     keyword_hits_window := keyword_hits_window self;
     keyword_log := keyword_log self;
     broadcast_start_timestamp := broadcast_start_timestamp self;
     sid := sid self;
     userIdHash := userIdHash self;
     chatChannelId := chatChannelId self;
     channelName := channelName self;
     accessToken := accessToken self;
     extraToken := extraToken self;
     sock := sock self |}.

Definition set_keyword_counts (self : ChzzkChat) (v0 : dict Z) : ChzzkChat :=
  {| _stop := _stop self;
     keyword_display := keyword_display self;
     keywords := keywords self;
     keyword_threshold := keyword_threshold self;
     keyword_thresholds := keyword_thresholds self;
     keyword_window := keyword_window self;
     keyword_windows := keyword_windows self;
     contains_keywords_list := contains_keywords_list self;
     contains_keywords_set := contains_keywords_set self;
     keyword_patterns := keyword_patterns self;
     keyword_counts := v0;
     keyword_hits_window := keyword_hits_window self;
     keyword_log := keyword_log self;
     broadcast_start_timestamp := broadcast_start_timestamp self;
     sid := sid self;
     userIdHash := userIdHash self;
     chatChannelId := chatChannelId self;
     channelName := channelName self;
     accessToken := accessToken self;
     extraToken := extraToken self;
     sock := sock self |}.

Definition set_keyword_hits_window (self : ChzzkChat) (v0 : dict (list Q)) : ChzzkChat :=
  {| _stop := _stop self;
     keyword_display := keyword_display self;
     keywords := keywords self;
     keyword_threshold := keyword_threshold self;
     keyword_thresholds := keyword_thresholds self;
     keyword_window := keyword_window self;
     keyword_windows := keyword_windows self;
     contains_keywords_list := contains_keywords_list self;
     contains_keywords_set := contains_keywords_set self;
     keyword_patterns := keyword_patterns self;
     keyword_counts := keyword_counts self;
     keyword_hits_window := v0;
     keyword_log := keyword_log self;
     broadcast_start_timestamp := broadcast_start_timestamp self;
     sid := sid self;
     userIdHash := userIdHash self;
     chatChannelId := chatChannelId self;
     channelName := channelName self;
     accessToken := accessToken self;
     extraToken := extraToken self;
     sock := sock self |}.

Definition set_keyword_log (self : ChzzkChat) (v0 : option logfile) : ChzzkChat :=
  {| _stop := _stop self;
     keyword_display := keyword_display self;
     keywords := keywords self;
     keyword_threshold := keyword_threshold self;
     keyword_thresholds := keyword_thresholds self;
     keyword_window := keyword_window self;
     keyword_windows := keyword_windows self;
     contains_keywords_list := contains_keywords_list self;
     contains_keywords_set := contains_keywords_set self;
     keyword_patterns := keyword_patterns self;
     keyword_counts := keyword_counts self;
     keyword_hits_window := keyword_hits_window self;
     keyword_log := v0;
     broadcast_start_timestamp := broadcast_start_timestamp self;
     sid := sid self;
     userIdHash := userIdHash self;
     chatChannelId := chatChannelId self;
     channelName := channelName self;
     accessToken := accessToken self;
     extraToken := extraToken self;
     sock := sock self |}.

Definition set_broadcast_start_timestamp (self : ChzzkChat) (v0 : option Q) : ChzzkChat :=
  {| _stop := _stop self;
     keyword_display := keyword_display self;
     keywords := keywords self;
     keyword_threshold := keyword_threshold self;
     keyword_thresholds := keyword_thresholds self;
     keyword_window := keyword_window self;
     keyword_windows := keyword_windows self;
     contains_keywords_list := contains_keywords_list self;
     contains_keywords_set := contains_keywords_set self;
     keyword_patterns := keyword_patterns self;
     keyword_counts := keyword_counts self;
     keyword_hits_window := keyword_hits_window self;
     keyword_log := keyword_log self;
     broadcast_start_timestamp := v0;
     sid := sid self;
     userIdHash := userIdHash self;
     chatChannelId := chatChannelId self;
     channelName := channelName self;
     accessToken := accessToken self;
     extraToken := extraToken self;
     sock := sock self |}.

Definition set_sid (self : ChzzkChat) (v0 : pyval) : ChzzkChat :=
  {| _stop := _stop self;
     keyword_display := keyword_display self;
     keywords := keywords self;
     keyword_threshold := keyword_threshold self;
     keyword_thresholds := keyword_thresholds self;
     keyword_window := keyword_window self;
     keyword_windows := keyword_windows self;
     contains_keywords_list := contains_keywords_list self;
     contains_keywords_set := contains_keywords_set self;
     keyword_patterns := keyword_patterns self;
     keyword_counts := keyword_counts self;
     keyword_hits_window := keyword_hits_window self;
     keyword_log := keyword_log self;
     broadcast_start_timestamp := broadcast_start_timestamp self;
     sid := v0;
     userIdHash := userIdHash self;
     chatChannelId := chatChannelId self;
     channelName := channelName self;
     accessToken := accessToken self;
     extraToken := extraToken self;
     sock := sock self |}.

Definition set_chatChannelId (self : ChzzkChat) (v0 : string) : ChzzkChat :=
  {| _stop := _stop self;
     keyword_display := keyword_display self;
     keywords := keywords self;
     keyword_threshold := keyword_threshold self;
     keyword_thresholds := keyword_thresholds self;
     keyword_window := keyword_window self;
     keyword_windows := keyword_windows self;
     contains_keywords_list := contains_keywords_list self;
     contains_keywords_set := contains_keywords_set self;
     keyword_patterns := keyword_patterns self;
     keyword_counts := keyword_counts self;
     keyword_hits_window := keyword_hits_window self;
     keyword_log := keyword_log self;
     broadcast_start_timestamp := broadcast_start_timestamp self;
     sid := sid self;
     userIdHash := userIdHash self;
     chatChannelId := v0;
     channelName := channelName self;
     accessToken := accessToken self;
     extraToken := extraToken self;
     sock := sock self |}.

Definition set_tokens (self : ChzzkChat) (v0 : string) (v1 : string) : ChzzkChat :=
  {| _stop := _stop self;
     keyword_display := keyword_display self;
     keywords := keywords self;
     keyword_threshold := keyword_threshold self;
     keyword_thresholds := keyword_thresholds self;
     keyword_window := keyword_window self;
     keyword_windows := keyword_windows self;
     contains_keywords_list := contains_keywords_list self;
     contains_keywords_set := contains_keywords_set self;
     keyword_patterns := keyword_patterns self;
     keyword_counts := keyword_counts self;
     keyword_hits_window := keyword_hits_window self;
     keyword_log := keyword_log self;
     broadcast_start_timestamp := broadcast_start_timestamp self;
     sid := sid self;
     userIdHash := userIdHash self;
     chatChannelId := chatChannelId self;
     channelName := channelName self;
     accessToken := v0;
     extraToken := v1;
     sock := sock self |}.

Definition set_sock (self : ChzzkChat) (v0 : option WebSocket) : ChzzkChat :=
  {| _stop := _stop self;
     keyword_display := keyword_display self;
     keywords := keywords self;
     keyword_threshold := keyword_threshold self;
     keyword_thresholds := keyword_thresholds self;
     keyword_window := keyword_window self;
     keyword_windows := keyword_windows self;
     contains_keywords_list := contains_keywords_list self;
     contains_keywords_set := contains_keywords_set self;
     keyword_patterns := keyword_patterns self;
     keyword_counts := keyword_counts self;
     keyword_hits_window := keyword_hits_window self;
     keyword_log := keyword_log self;
     broadcast_start_timestamp := broadcast_start_timestamp self;
     sid := sid self;
     userIdHash := userIdHash self;
     chatChannelId := chatChannelId self;
     channelName := channelName self;
     accessToken := accessToken self;
     extraToken := extraToken self;
     sock := v0 |}.

(** *** Effects *)

Inductive chat_type : Type := Chat | Donation.

(** The nickname of a message: the fixed name of an anonymous donor, or
    [profile_data["nickname"]]. *)
Inductive nickname : Type :=
| AnonymousDonor
| Nickname (v : pyval).

(** The lines handed to [logger.info] and [logger.warning], by their
    fields. *)
Inductive logline : Type :=
| ChatLine (now : string) (ct : chat_type) (nick : nickname) (msg_text : pyval)
| KeycountLine (keyword_label : string) (window_sec : Z) (window_count : Z) (thr : Z)
| ConnectedLine
| BroadcastStartLine (start : Q)
| BroadcastWarningLine
| KeysetupThresholds (d : dict Z)
| KeysetupWindows (d : dict Z)
| KeysetupGlobal (thr : Z) (win : Z) (display_keywords : list string).

(** One line of [keyword_times.log]. *)
Record DetectionRecord : Type := {
  dr_now : string;
  dr_channelName : string;
  dr_keyword_label : string;
  dr_nickname : nickname;
  dr_duration_text : string;
  dr_msg_text : string
}.

(** What the program does to the outside, in the order it does it.
    [StoreWrite v] is a write of the settings file that succeeded, [v] being
    what the file then holds; what a write that failed leaves behind is
    found in the files of the machine.  [StopRequested] marks the moment the
    host calls [stop()]. *)
Inductive event : Type :=
| LoggerInfo (l : logline)
| LoggerWarning (l : logline)
| KeywordLogWrite (r : DetectionRecord)
| KeywordLogClose
| StoreWrite (v : option (option pyval))
| WsConnect
| WsSend (frame : pyval)
| WsClose
| StopRequested.

Record Machine : Type := {
  self : ChzzkChat;
  files : ConfigStore.Files;
  trace : list event
}.

Definition with_self (m : Machine) (o : ChzzkChat) : Machine :=
  {| self := o; files := files m; trace := trace m |}.

Definition with_files (m : Machine) (f : ConfigStore.Files) : Machine :=
  {| self := self m; files := f; trace := trace m |}.

Definition emit_event (m : Machine) (e : event) : Machine :=
  {| self := self m; files := files m; trace := trace m ++ [e] |}.

(** *** The monad of the methods *)

Definition M (A : Type) : Type := Machine -> result A * Machine.

Definition ret {A} (a : A) : M A := fun m => (Ok a, m).

Definition raise {A} (e : exn) : M A := fun m => (Raise e, m).

Definition bind {A B} (c : M A) (k : A -> M B) : M B :=
  fun m =>
    match c m with
    | (Ok a, m') => k a m'
    | (Raise e, m') => (Raise e, m')
    end.

Declare Scope py_scope.
Delimit Scope py_scope with py.
Notation "x <- c ;; k" := (bind c (fun x => k))
  (at level 61, c at next level, right associativity) : py_scope.
Notation "c ;; k" := (bind c (fun _ => k))
  (at level 61, right associativity) : py_scope.
Local Open Scope py_scope.

(** [try: body  except: handler] *)
Definition try_except {A} (body : M A) (handler : M A) : M A :=
  fun m =>
    match body m with
    | (Ok a, m') => (Ok a, m')
    | (Raise _, m') => handler m'
    end.

(** [try: body  except Exception: handler] *)
Definition try_except_Exception {A} (body : M A) (handler : M A) : M A :=
  fun m =>
    match body m with
    | (Ok a, m') => (Ok a, m')
    | (Raise e, m') => if is_Exception e then handler m' else (Raise e, m')
    end.

Definition get_self : M ChzzkChat := fun m => (Ok (self m), m).

Definition put_self (o : ChzzkChat) : M unit := fun m => (Ok tt, with_self m o).

Definition modify_self (f : ChzzkChat -> ChzzkChat) : M unit :=
  fun m => (Ok tt, with_self m (f (self m))).

Definition emit (e : event) : M unit := fun m => (Ok tt, emit_event m e).

Definition lift {A} (r : result A) : M A := fun m => (r, m).

(** [v[k]] *)
Definition getitem (v : pyval) (k : string) : M pyval :=
  match v with
  | PDict d =>
      match dget d k with
      | Some x => ret x
      | None => raise KeyError
      end
  | _ => raise TypeError
  end.

(** The items a [for] loop draws from [v]. *)
Definition iter_items (v : pyval) : M (list pyval) :=
  match v with
  | PList l => ret l
  | PDict d => ret (map (fun kv => PStr (fst kv)) d)
  | PStr s => ret (map (fun c => PStr (String c EmptyString)) (list_ascii_of_string s))
  | _ => raise TypeError
  end.

(** [for x in l: body x] *)
Fixpoint for_each {A} (l : list A) (body : A -> M unit) : M unit :=
  match l with
  | [] => ret tt
  | x :: r => body x ;; for_each r body
  end.

(** *** External answers

    The [api] module, the chat server and the broadcast-metadata resolver
    are inputs.  Each call that waits on the network comes with its outcome
    and with the information whether the host thread ran [stop()] while the
    call was waiting. *)
Record Answer (A : Type) : Type := {
  stop_during : bool;
  outcome : result A
}.
Arguments stop_during {A} a.
Arguments outcome {A} a.

(** What one call of [connect] meets.  A frame received from the server is
    given by the value [json.loads] makes of it, [None] when it is not
    JSON. *)
Record ConnectEnv : Type := {
  c_chatChannelId : Answer string;
  c_accessToken : Answer (string * string);
  c_sock_connect : Answer unit;
  c_send_connect : Answer unit;
  c_recv_connect : Answer (option pyval);
  c_send_recent : Answer unit;
  c_recv_recent : Answer unit;
  c_connected : bool;
  c_start_time : Answer Q
}.

(** What one turn of the loop of [run] meets. *)
Record IterEnv : Type := {
  recv1 : Answer (option pyval);
  reconnect : ConnectEnv;
  recv2 : Answer (option pyval);
  send_pong : Answer unit;
  ping_chatChannelId : Answer string;
  ping_connect : ConnectEnv
}.

(** The process environment read by [__init__].  The two JSON variables are
    given by the value they parse to; [None] stands for unset, empty or not
    JSON, which the code treats alike. *)
Record Environ : Type := {
  KEYWORDS : option string;
  KEYWORD_THRESHOLD : option string;
  KEYWORD_THRESHOLDS : option pyval;
  KEYWORD_WINDOW : option string;
  KEYWORD_WINDOWS : option pyval
}.

Record InitEnv : Type := {
  environ : Environ;
  can_open_keyword_log : bool;
  i_userIdHash : result string;
  i_chatChannelId : result string;
  i_channelName : result string;
  i_accessToken : result (string * string);
  i_start_time : Answer Q;
  i_connect : ConnectEnv
}.

(** The table [CHZZK_CHAT_CMD] of [cmd_type.py]. *)
Class Commands : Type := {
  cmd_ping : Z;
  cmd_pong : Z;
  cmd_connect : Z;
  cmd_send_chat : Z;
  cmd_request_recent_chat : Z;
  cmd_chat : Z;
  cmd_donation : Z
}.

(** *** Numbers and time *)

Definition Qltb (x y : Q) : bool := negb (Qle_bool y x).

(** [msgTime / 1000.0] *)
Definition ts_of_ms (ms : Z) : Q := (inject_Z ms / inject_Z 1000)%Q.

(** [int(x)] for a float: truncation towards zero. *)
Definition int_of_Q (q : Q) : Z :=
  if Qle_bool (inject_Z 0) q then Qfloor q else Qceiling q.

Definition pad2 (n : Z) : string :=
  let s := str_of_int n in
  if (String.length s <? 2)%nat then "0" ++ s else s.

(** [broadcast_logger.format_duration] *)
Definition format_duration (delta_seconds : Z) : string :=
  let hours := delta_seconds / 3600 in
  let remainder := delta_seconds mod 3600 in
  let minutes := remainder / 60 in
  let seconds := remainder mod 60 in
  pad2 hours ++ ":" ++ pad2 minutes ++ ":" ++ pad2 seconds.

(** [v / 1000] needs a number. *)
Definition as_number (v : pyval) : M Z :=
  match v with
  | PInt z => ret z
  | PBool b => ret (if b then 1 else 0)
  | _ => raise TypeError
  end.

(** [v == c] for an integer constant [c]. *)
Definition eq_int (v : pyval) (c : Z) : bool :=
  match v with
  | PInt z => z =? c
  | PBool b => (if b then 1 else 0) =? c
  | _ => false
  end.

(** [v == s] for a string constant [s]. *)
Definition eq_str (v : pyval) (s : string) : bool :=
  match v with
  | PStr t => String.eqb t s
  | _ => false
  end.

(** [json.loads(v)] for a JSON document carried as a string inside a
    frame: such a string is given by the object it parses to, and every
    other value stands for something [json.loads] rejects. *)
Definition json_loads_embedded (v : pyval) : M pyval :=
  match v with
  | PDict d => ret (PDict d)
  | PNone | PBool _ | PInt _ | PList _ => raise TypeError
  | PStr _ => raise ValueError
  end.

(** Insertion into a list kept in ascending order, for [sorted]. *)
Fixpoint insert_sorted (x : string) (l : list string) : list string :=
  match l with
  | [] => [x]
  | y :: r => if String.leb x y then x :: l else y :: insert_sorted x r
  end.

Definition sorted (l : list string) : list string :=
  fold_right insert_sorted [] l.

(** *** stop and close *)

Definition close : M unit :=
  modify_self (fun o => set__stop o true) ;;
  o <- get_self ;;
  match sock o with
  | Some ws =>
      if connected ws
      then emit WsClose ;;
           modify_self (fun o => set_sock o (Some {| connected := false |}))
      else ret tt
  | None => ret tt
  end ;;
  o <- get_self ;;
  match keyword_log o with
  | Some FileOpen =>
      emit KeywordLogClose ;;
      modify_self (fun o => set_keyword_log o (Some FileClosed))
  | _ => ret tt
  end.

Definition stop : M unit :=
  modify_self (fun o => set__stop o true) ;;
  close.

(** [stop()] called by the host thread. *)
Definition host_stop : M unit := emit StopRequested ;; stop.

(** A call that waits: the host may stop the object meanwhile. *)
Definition io {A} (a : Answer A) : M A :=
  (if stop_during a then host_stop else ret tt) ;;
  lift (outcome a).

(** [sock.send(json.dumps(frame))] on a socket that is connected. *)
Definition ws_send (frame : pyval) (a : Answer unit) : M unit :=
  match outcome a with
  | Ok _ => emit (WsSend frame)
  | Raise _ => ret tt
  end ;;
  io a.

(** [self.sock.recv()]: a closed socket raises at once. *)
Definition sock_recv (a : Answer (option pyval)) : M (option pyval) :=
  o <- get_self ;;
  match sock o with
  | None => raise AttributeError
  | Some ws => if connected ws then io a else raise WebSocketException
  end.

(** [self.sock.send(...)] *)
Definition sock_send (frame : pyval) (a : Answer unit) : M unit :=
  o <- get_self ;;
  match sock o with
  | None => raise AttributeError
  | Some ws => if connected ws then ws_send frame a else raise WebSocketException
  end.

Section Methods.
Context {RT : Runtime} {CMD : Commands}.

Definition update_broadcast_start_time (a : Answer Q) : M unit :=
  try_except_Exception
    (start <- io a ;;
     modify_self (fun o => set_broadcast_start_timestamp o (Some start)) ;;
     emit (LoggerInfo (BroadcastStartLine start)))
    (modify_self (fun o => set_broadcast_start_timestamp o None) ;;
     emit (LoggerWarning BroadcastWarningLine)).

Definition default_dict (o : ChzzkChat) : dict pyval :=
  [("ver", PStr "2"); ("svcid", PStr "game"); ("cid", PStr (chatChannelId o))].

Definition connect (env : ConnectEnv) : M unit :=
  cid <- io (c_chatChannelId env) ;;
  modify_self (fun o => set_chatChannelId o cid) ;;
  tok <- io (c_accessToken env) ;;
  modify_self (fun o => set_tokens o (fst tok) (snd tok)) ;;
  emit WsConnect ;;
  io (c_sock_connect env) ;;
  o <- get_self ;;
  let send_dict :=
    [("cmd", PInt cmd_connect);
     ("tid", PInt 1);
     ("bdy", PDict [("uid", PStr (userIdHash o));
                    ("devType", PInt 2001);
                    ("accTkn", PStr (accessToken o));
                    ("auth", PStr "SEND")])] in
  ws_send (PDict (send_dict ++ default_dict o)) (c_send_connect env) ;;
  reply <- io (c_recv_connect env) ;;
  sock_response <- match reply with
                   | Some v => ret v
                   | None => raise ValueError
                   end ;;
  bdy <- getitem sock_response "bdy" ;;
  sid <- getitem bdy "sid" ;;
  modify_self (fun o => set_sid o sid) ;;
  o <- get_self ;;
  let send_dict :=
    [("cmd", PInt cmd_request_recent_chat);
     ("tid", PInt 2);
     ("sid", sid);
     ("bdy", PDict [("recentMessageCount", PInt 50)])] in
  ws_send (PDict (send_dict ++ default_dict o)) (c_send_recent env) ;;
  io (c_recv_recent env) ;;
  modify_self (fun o => set_sock o (Some {| connected := c_connected env |})) ;;
  if c_connected env
  then emit (LoggerInfo ConnectedLine) ;;
       update_broadcast_start_time (c_start_time env)
  else raise ValueError.

(** *** Keyword resolution (lines 346-358 of [run]) *)

(** [for kw, pat in self.keyword_patterns.items(): if pat.search(text): ...] *)
Fixpoint first_pattern_hit (pats : dict Pattern) (text : string) : option string :=
  match pats with
  | [] => None
  | (kw, pat) :: r => if search pat text then Some kw else first_pattern_hit r text
  end.

(** [for kw in self.contains_keywords_list: if kw in text_lower: ...] *)
Fixpoint first_contains_hit (kws : list string) (text_lower : string) : option string :=
  match kws with
  | [] => None
  | kw :: r => if str_in kw text_lower then Some kw else first_contains_hit r text_lower
  end.

(** The truth value of [hit]: [None] and the empty string are falsy. *)
Definition truthy (hit : option string) : bool :=
  match hit with
  | Some s => nonempty s
  | None => false
  end.

(** The value of [hit] after the two loops. *)
Definition resolve_hit (o : ChzzkChat) (text : string) : option string :=
  let text_lower := lower text in
  let hit := first_pattern_hit (keyword_patterns o) text in
  if negb (truthy hit) then
    match first_contains_hit (contains_keywords_list o) text_lower with
    | Some kw => Some kw
    | None => hit
    end
  else hit.

(** The keyword the message is attributed to: the value of [hit] when the
    test [if hit:] of line 359 lets it through. *)
Definition attributed (o : ChzzkChat) (text : string) : option string :=
  match resolve_hit o text with
  | Some hit => if nonempty hit then Some hit else None
  | None => None
  end.

(** *** Recording a hit (lines 360-394 of [run]) *)

Definition save_counts : M unit :=
  fun m =>
    match ConfigStore.save_counts (keyword_counts (self m)) (files m) with
    | (Ok _, f') =>
        (Ok tt, emit_event (with_files m f') (StoreWrite (ConfigStore.CONFIG_PATH f')))
    | (Raise e, f') => (Raise e, with_files m f')
    end.

(** [self.keyword_log.write(...)] and [flush()]. *)
Definition keyword_log_write (f : logfile) (r : DetectionRecord) : M unit :=
  match f with
  | FileOpen => emit (KeywordLogWrite r)
  | FileClosed => raise ValueError
  end.

Definition duration_text (o : ChzzkChat) (ms : Z) : string :=
  match broadcast_start_timestamp o with
  | Some start =>
      let ts_seconds := ts_of_ms ms in
      let elapsed := Z.max 0 (int_of_Q (ts_seconds - start)%Q) in
      format_duration elapsed
  | None => "-"
  end.

(** The sliding window of [hit] once [ts] is appended and the old entries
    are popped from the left. *)
Definition slide (dq : list Q) (ts : Q) (window_sec : Z) : list Q :=
  let dq := dq ++ [ts] in
  let cutoff := (ts - inject_Z window_sec)%Q in
  drop_while (fun x => Qltb x cutoff) dq.

Definition record_hit (hit : string) (ms : Z) (now : string)
    (nick : nickname) (msg_text : string) : M unit :=
  try_except_Exception
    (modify_self (fun o =>
       set_keyword_counts o
         (dset (keyword_counts o) hit (dget_default (keyword_counts o) hit 0 + 1))) ;;
     o <- get_self ;;
     let ts := ts_of_ms ms in
     let window_sec := dget_default (keyword_windows o) hit (keyword_window o) in
     let dq := slide (dget_default (keyword_hits_window o) hit []) ts window_sec in
     modify_self (fun o =>
       set_keyword_hits_window o (dset (keyword_hits_window o) hit dq)) ;;
     let window_count := Z.of_nat (List.length dq) in
     let thr := dget_default (keyword_thresholds o) hit (keyword_threshold o) in
     if thr <=? window_count then
       save_counts ;;
       let keyword_label := dget_default (keyword_display o) hit hit in
       emit (LoggerInfo (KeycountLine keyword_label window_sec window_count thr)) ;;
       o <- get_self ;;
       match keyword_log o with
       | Some f =>
           keyword_log_write f
             {| dr_now := now;
                dr_channelName := channelName o;
                dr_keyword_label := keyword_label;
                dr_nickname := nick;
                dr_duration_text := duration_text o ms;
                dr_msg_text := msg_text |}
       | None => ret tt
       end
     else ret tt)
    (ret tt).

(** *** One entry of a CHAT or DONATION frame (lines 322-394 of [run]) *)

(** The nickname of the entry; [None] is [continue]. *)
Definition resolve_nickname (chat_data : pyval) : M (option nickname) :=
  uid <- getitem chat_data "uid" ;;
  if eq_str uid "anonymous" then ret (Some AnonymousDonor)
  else
    try_except
      (profile <- getitem chat_data "profile" ;;
       profile_data <- json_loads_embedded profile ;;
       nick <- getitem profile_data "nickname" ;;
       match chat_data with
       | PDict d => if dmem d "msg" then ret (Some (Nickname nick)) else ret None
       | _ => raise TypeError
       end)
      (ret None).

Definition process_chat_data (ct : chat_type) (chat_data : pyval) : M unit :=
  nick <- resolve_nickname chat_data ;;
  match nick with
  | None => ret tt
  | Some nick =>
      t <- getitem chat_data "msgTime" ;;
      ms <- as_number t ;;
      now <- match strftime ms with
             | Some now => ret now
             | None => raise ValueError
             end ;;
      msg_text <- getitem chat_data "msg" ;;
      emit (LoggerInfo (ChatLine now ct nick msg_text)) ;;
      o <- get_self ;;
      match keywords o, msg_text with
      | _ :: _, PStr text =>
          match resolve_hit o text with
          | Some hit =>
              if nonempty hit then record_hit hit ms now nick text else ret tt
          | None => ret tt
          end
      | _, _ => ret tt
      end
  end.

(** *** The loop of [run] *)

Inductive control : Type := Continue | Break.

(** Lines 281-291: [None] is [break]. *)
Definition receive (env : IterEnv) : M (option (option pyval)) :=
  fun m =>
    match sock_recv (recv1 env) m with
    | (Ok raw_message, m') => (Ok (Some raw_message), m')
    | (Raise KeyboardInterrupt, m') => (Ok None, m')
    | (Raise _, m') =>
        (o <- get_self ;;
         if _stop o then ret None
         else connect (reconnect env) ;;
              raw_message <- sock_recv (recv2 env) ;;
              ret (Some raw_message)) m'
    end.

Definition pong_frame : pyval :=
  PDict [("ver", PStr "2"); ("cmd", PInt cmd_pong)].

(** Lines 293-394. *)
Definition dispatch (env : IterEnv) (raw_message : option pyval) : M control :=
  o <- get_self ;;
  if _stop o then ret Break
  else
    raw_message <- match raw_message with
                   | Some v => ret v
                   | None => raise ValueError
                   end ;;
    chat_cmd <- getitem raw_message "cmd" ;;
    if eq_int chat_cmd cmd_ping then
      sock_send pong_frame (send_pong env) ;;
      o <- get_self ;;
      let current := chatChannelId o in
      fetched <- io (ping_chatChannelId env) ;;
      (if negb (String.eqb current fetched)
       then connect (ping_connect env)
       else ret tt) ;;
      ret Continue
    else
      let chat_type :=
        if eq_int chat_cmd cmd_chat then Some Chat
        else if eq_int chat_cmd cmd_donation then Some Donation
        else None in
      match chat_type with
      | None => ret Continue
      | Some ct =>
          bdy <- getitem raw_message "bdy" ;;
          items <- iter_items bdy ;;
          for_each items (process_chat_data ct) ;;
          ret Continue
      end.

(** One turn of [while not self._stop], after the test. *)
Definition loop_body (env : IterEnv) : M control :=
  try_except
    (r <- receive env ;;
     match r with
     | None => ret Break
     | Some raw_message => dispatch env raw_message
     end)
    (o <- get_self ;;
     if _stop o then ret Break else ret Continue).

(** [run()] against the answers of [script], one element per turn.  The
    result is [true] when the loop has been left and [false] when the
    answers are used up with the loop still going. *)
Fixpoint run (script : list IterEnv) : M bool :=
  o <- get_self ;;
  if _stop o then ret true
  else
    match script with
    | [] => ret false
    | env :: rest =>
        c <- loop_body env ;;
        match c with
        | Break => ret true
        | Continue => run rest
        end
    end.

(** *** [__init__] *)

(** One turn of the loop over [keywords_combined]. *)
Definition register_keyword (st : dict string * pyset) (raw_kw : string)
  : dict string * pyset :=
  let '(keyword_display, keywords) := st in
  let kw_str := strip raw_kw in
  if negb (nonempty kw_str) then st
  else
    let kw_lower := lower kw_str in
    if negb (nonempty kw_lower) then st
    else
      ((if dmem keyword_display kw_lower then keyword_display
        else dset keyword_display kw_lower kw_str),
       set_add keywords kw_lower).

(** [max(1, int(env))] when the variable holds digits. *)
Definition env_int_override (current : Z) (env : option string) : Z :=
  match env with
  | Some env_val =>
      if nonempty env_val && isdigit env_val then
        match int_of_str env_val with
        | Some i => Z.max 1 i
        | None => current
        end
      else current
  | None => current
  end.

(** [{str(k).lower(): max(1, int(v)) for k, v in m.items() if str(k).strip()}] *)
Definition lower_int_map (m : dict Z) : dict Z :=
  fold_left
    (fun acc kv =>
       if nonempty (strip (fst kv))
       then dset acc (lower (fst kv)) (Z.max 1 (snd kv))
       else acc)
    m [].

(** The loop over the items of an environment map; an exception leaves
    the loop with what has been stored so far. *)
Fixpoint merge_env_items (acc : dict Z) (items : dict pyval) : dict Z :=
  match items with
  | [] => acc
  | (k, v) :: r =>
      if isdigit (str v) then
        match int v with
        | Some i => merge_env_items (dset acc (lower k) (Z.max 1 i)) r
        | None => acc
        end
      else merge_env_items acc r
  end.

Definition merge_env_map (acc : dict Z) (env : option pyval) : dict Z :=
  match env with
  | Some (PDict data) => merge_env_items acc data
  | _ => acc
  end.

(** The attributes the loop over [contains_entries] updates. *)
Record ContainsState : Type := {
  cs_display : dict string;
  cs_list : list string;
  cs_set : pyset;
  cs_thresholds : dict Z;
  cs_windows : dict Z;
  cs_keywords : pyset
}.

Definition register_contains (keyword_threshold keyword_window : Z)
    (st : ContainsState) (entry : ConfigStore.ContainsEntry) : ContainsState :=
  let kw_str := strip (ConfigStore.keyword entry) in
  if negb (nonempty kw_str) then st
  else
    let kw_lower := lower kw_str in
    if negb (nonempty kw_lower) then st
    else
      let display :=
        if dmem (cs_display st) kw_lower then cs_display st
        else dset (cs_display st) kw_lower kw_str in
      let is_new := negb (set_mem kw_lower (cs_set st)) in
      let clist := if is_new then cs_list st ++ [kw_lower] else cs_list st in
      let cset := if is_new then set_add (cs_set st) kw_lower else cs_set st in
      let thresholds :=
        dset (cs_thresholds st) kw_lower (Z.max 1 (ConfigStore.threshold entry)) in
      let windows :=
        dset (cs_windows st) kw_lower (Z.max 1 (ConfigStore.window entry)) in
      let thresholds :=
        if dmem thresholds kw_lower then thresholds
        else dset thresholds kw_lower keyword_threshold in
      let windows :=
        if dmem windows kw_lower then windows
        else dset windows kw_lower keyword_window in
      {| cs_display := display;
         cs_list := clist;
         cs_set := cset;
         cs_thresholds := thresholds;
         cs_windows := windows;
         cs_keywords := set_add (cs_keywords st) kw_lower |}.

(** The attributes set by lines 25-163 of [__init__], from the stored
    configuration, the environment and the stored counts. *)
Definition init_fields (config : ConfigStore.Config) (env : Environ)
    (stored_counts : dict Z) : ChzzkChat :=
  let env_keywords :=
    strip (match KEYWORDS env with Some s => s | None => "" end) in
  let kw_from_env :=
    map strip (filter (fun k => nonempty (strip k)) (split "," env_keywords)) in
  let keywords_combined := ConfigStore.keywords config ++ kw_from_env in
  let '(display, kws) := fold_left register_keyword keywords_combined ([], []) in
  let keyword_threshold :=
    env_int_override (or_int (ConfigStore.global_threshold config) 1)
                     (KEYWORD_THRESHOLD env) in
  let keyword_thresholds :=
    merge_env_map (lower_int_map (ConfigStore.per_keyword_thresholds config))
                  (KEYWORD_THRESHOLDS env) in
  let keyword_window :=
    env_int_override (or_int (ConfigStore.global_window config) 60)
                     (KEYWORD_WINDOW env) in
  let keyword_windows :=
    merge_env_map (lower_int_map (ConfigStore.per_keyword_windows config))
                  (KEYWORD_WINDOWS env) in
  let st :=
    fold_left (register_contains keyword_threshold keyword_window)
      (ConfigStore.contains_keywords config)
      {| cs_display := display; cs_list := []; cs_set := [];
         cs_thresholds := keyword_thresholds; cs_windows := keyword_windows;
         cs_keywords := kws |} in
  let kws := fold_left set_add (dkeys (cs_thresholds st)) (cs_keywords st) in
  let kws := fold_left set_add (dkeys (cs_windows st)) kws in
  let display :=
    fold_left (fun d key => if dmem d key then d else dset d key key)
              (set_iter kws) (cs_display st) in
  let patterns :=
    fold_left (fun pats kw =>
                 if set_mem kw (cs_set st) then pats
                 else dset pats kw (compile_keyword kw))
              (set_iter kws) [] in
  {| _stop := false;
     keyword_display := display;
     keywords := kws;
     keyword_threshold := keyword_threshold;
     keyword_thresholds := cs_thresholds st;
     keyword_window := keyword_window;
     keyword_windows := cs_windows st;
     contains_keywords_list := cs_list st;
     contains_keywords_set := cs_set st;
     keyword_patterns := patterns;
     keyword_counts :=
       fold_left (fun d k => dset d k (dget_default stored_counts k 0))
                 (set_iter kws) [];
     keyword_hits_window :=
       fold_left (fun d k => dset d k []) (set_iter kws) [];
     keyword_log := match kws with [] => None | _ :: _ => Some FileOpen end;
     broadcast_start_timestamp := None;
     sid := PNone;
     userIdHash := "";
     chatChannelId := "";
     channelName := "";
     accessToken := "";
     extraToken := "";
     sock := None |}.

(** The [KEYSETUP] lines of lines 166-174. *)
Definition log_keysetup : M unit :=
  o <- get_self ;;
  match keyword_thresholds o with
  | [] => ret tt
  | _ => emit (LoggerInfo (KeysetupThresholds (keyword_thresholds o)))
  end ;;
  match keyword_windows o with
  | [] => ret tt
  | _ => emit (LoggerInfo (KeysetupWindows (keyword_windows o)))
  end ;;
  let display_keywords :=
    sorted (map (fun k => dget_default (keyword_display o) k k)
                (set_iter (keywords o))) in
  emit (LoggerInfo (KeysetupGlobal (keyword_threshold o) (keyword_window o)
                                   display_keywords)).

Definition __init__ (ienv : InitEnv) : M unit :=
  fun m =>
    let config := ConfigStore.load_config (files m) in
    let stored_counts := ConfigStore.load_counts (files m) in
    let o := init_fields config (environ ienv) stored_counts in
    (match keywords o with
     | _ :: _ => if can_open_keyword_log ienv then ret tt else raise OSError
     | [] => ret tt
     end ;;
     put_self o ;;
     log_keysetup ;;
     uid <- lift (i_userIdHash ienv) ;;
     cid <- lift (i_chatChannelId ienv) ;;
     name <- lift (i_channelName ienv) ;;
     tok <- lift (i_accessToken ienv) ;;
     modify_self (fun o =>
       {| _stop := _stop o;
          keyword_display := keyword_display o;
          keywords := keywords o;
          keyword_threshold := keyword_threshold o;
          keyword_thresholds := keyword_thresholds o;
          keyword_window := keyword_window o;
          keyword_windows := keyword_windows o;
          contains_keywords_list := contains_keywords_list o;
          contains_keywords_set := contains_keywords_set o;
          keyword_patterns := keyword_patterns o;
          keyword_counts := keyword_counts o;
          keyword_hits_window := keyword_hits_window o;
          keyword_log := keyword_log o;
          broadcast_start_timestamp := broadcast_start_timestamp o;
          sid := PNone;
          userIdHash := uid;
          chatChannelId := cid;
          channelName := name;
          accessToken := fst tok;
          extraToken := snd tok;
          sock := None |}) ;;
     update_broadcast_start_time (i_start_time ienv) ;;
     connect (i_connect ienv)) m.

End Methods.

End Run.

(* ================================================================== *)
(** ** Vocabulary of the statements, and the data of the examples *)
(* ================================================================== *)

Module Spec.
Import Py.
Import Run.

(** The per-keyword quantities the detection engine reads. *)
Definition window_of (o : ChzzkChat) (kw : string) : list Q :=
  dget_default (keyword_hits_window o) kw [].

Definition window_sec_of (o : ChzzkChat) (kw : string) : Z :=
  dget_default (keyword_windows o) kw (keyword_window o).

Definition threshold_of (o : ChzzkChat) (kw : string) : Z :=
  dget_default (keyword_thresholds o) kw (keyword_threshold o).

Definition count_of (o : ChzzkChat) (kw : string) : Z :=
  dget_default (keyword_counts o) kw 0.

Definition label_of (o : ChzzkChat) (kw : string) : string :=
  dget_default (keyword_display o) kw kw.

(** What a step added to the trace. *)
Definition new_events (m m' : Machine) : list event :=
  skipn (List.length (trace m)) (trace m').

Definition is_detection (e : event) : bool :=
  match e with KeywordLogWrite _ => true | _ => false end.

Definition is_log (e : event) : bool :=
  match e with LoggerInfo _ | LoggerWarning _ => true | _ => false end.

Definition is_keycount (e : event) : bool :=
  match e with LoggerInfo (KeycountLine _ _ _ _) => true | _ => false end.

(** *** Data of the examples *)

(** A runtime whose sets iterate in insertion order.  Its [strftime]
    prints the number of milliseconds: no example depends on the
    calendar. *)
Definition insertion_order_runtime : Runtime :=
  {| repr_container := fun _ => "<container>";
     set_iter := fun s => s;
     strftime := fun ms => Some (str_of_int ms);
     set_iter_perm := fun s => Permutation_refl s |}.

(** A runtime whose sets iterate in the opposite order. *)
Definition reverse_order_runtime : Runtime :=
  {| repr_container := fun _ => "<container>";
     set_iter := fun s => rev s;
     strftime := fun ms => Some (str_of_int ms);
     set_iter_perm := fun s => Permutation_sym (Permutation_rev s) |}.

(** The command codes of the chat server. *)
Definition chzzk_commands : Commands :=
  {| cmd_ping := 0;
     cmd_pong := 10000;
     cmd_connect := 100;
     cmd_send_chat := 3101;
     cmd_request_recent_chat := 5101;
     cmd_chat := 93101;
     cmd_donation := 93102 |}.

(** No settings file, no legacy file, a disk that can be written. *)
Definition fresh_files : ConfigStore.Files :=
  {| ConfigStore.CONFIG_PATH := None;
     ConfigStore.LEGACY_COUNTS_JSON := None;
     ConfigStore.legacy_keywords := [];
     ConfigStore.legacy_threshold := None;
     ConfigStore.legacy_thresholds := [];
     ConfigStore.legacy_window := None;
     ConfigStore.legacy_windows := [];
     ConfigStore.writable := true;
     ConfigStore.fails_after_open := false |}.

(** The same with a file that cannot be opened for writing. *)
Definition readonly_files : ConfigStore.Files :=
  {| ConfigStore.CONFIG_PATH := None;
     ConfigStore.LEGACY_COUNTS_JSON := None;
     ConfigStore.legacy_keywords := [];
     ConfigStore.legacy_threshold := None;
     ConfigStore.legacy_thresholds := [];
     ConfigStore.legacy_window := None;
     ConfigStore.legacy_windows := [];
     ConfigStore.writable := false;
     ConfigStore.fails_after_open := false |}.

(** A connected object watching the one exact keyword ["gg"] with the given
    threshold and window. *)
Definition watching_gg (thr win : Z) : ChzzkChat :=
  {| _stop := false;
     keyword_display := [("gg", "GG")];
     keywords := ["gg"];
     keyword_threshold := 1;
     keyword_thresholds := [("gg", thr)];
     keyword_window := 60;
     keyword_windows := [("gg", win)];
     contains_keywords_list := [];
     contains_keywords_set := [];
     keyword_patterns := [("gg", compile_keyword "gg")];
     keyword_counts := [("gg", 0)];
     keyword_hits_window := [("gg", [])];
     keyword_log := Some FileOpen;
     broadcast_start_timestamp := None;
     sid := PStr "sid-1";
     userIdHash := "user";
     chatChannelId := "channel-1";
     channelName := "streamer";
     accessToken := "token";
     extraToken := "extra";
     sock := Some {| connected := true |} |}.

Definition machine_of (o : ChzzkChat) (f : ConfigStore.Files) : Machine :=
  {| self := o; files := f; trace := [] |}.

End Spec.

(** Sanitized form of the stored configuration, and the reading of the
    [contains_keywords] loop of [_sanitize_config] as "first occurrence
    kept". *)
Module StoreSpec.
Import Py.
Import ConfigStore.

(** A non-empty string that [strip] leaves alone. *)
Definition stripped (s : string) : Prop := strip s = s /\ s <> "".

Definition positive_or_absent (o : option Z) : Prop :=
  match o with
  | Some z => 1 <= z
  | None => True
  end.

Definition int_map_ok (d : dict Z) : Prop :=
  NoDup (dkeys d) /\ Forall (fun kv => stripped (fst kv) /\ 1 <= snd kv) d.

Definition lower_keyword (e : ContainsEntry) : string := lower (keyword e).

Definition entry_ok (e : ContainsEntry) : Prop :=
  stripped (keyword e) /\ 1 <= threshold e /\ 1 <= window e.

Record sanitized (c : Config) : Prop := {
  keywords_ok : Forall stripped (keywords c);
  global_threshold_ok : positive_or_absent (global_threshold c);
  per_keyword_thresholds_ok : int_map_ok (per_keyword_thresholds c);
  global_window_ok : positive_or_absent (global_window c);
  per_keyword_windows_ok : int_map_ok (per_keyword_windows c);
  contains_entries_ok : Forall entry_ok (contains_keywords c);
  contains_distinct : NoDup (map lower_keyword (contains_keywords c))
}.

(** Keeping the first entry of each lowercased keyword. *)
Fixpoint dedup_first (seen : list string) (l : list ContainsEntry)
  : list ContainsEntry :=
  match l with
  | [] => []
  | e :: r =>
      if set_mem (lower_keyword e) seen then dedup_first seen r
      else e :: dedup_first (seen ++ [lower_keyword e]) r
  end.

Section WithRuntime.
Context {RT : Runtime}.

(** The entry an item of [contains_keywords] stands for, if any. *)
Definition candidate (item : pyval) : option ContainsEntry :=
  match item with
  | PDict d =>
      let kw := strip (str (dget_default d "keyword" (PStr ""))) in
      if nonempty kw then
        Some {| keyword := kw;
                threshold := _ensure_positive_int (dget_default d "threshold" (PInt 1)) 1;
                window := _ensure_positive_int (dget_default d "window" (PInt 60)) 60 |}
      else None
  | PStr s =>
      let kw := strip s in
      if nonempty kw then Some {| keyword := kw; threshold := 1; window := 60 |}
      else None
  | _ => None
  end.

Definition candidates (items : list pyval) : list ContainsEntry :=
  flat_map (fun item => match candidate item with Some e => [e] | None => [] end)
           items.

End WithRuntime.

End StoreSpec.

(** Relations between the machine before and after a piece of code, and
    what it takes for every method of the session to respect one. *)
Module Frame.
Import Py.
Import Run.

(** [c] takes every machine to one related to it by [R]. *)
Definition preserves (R : Machine -> Machine -> Prop) {A} (c : M A) : Prop :=
  forall m, R m (snd (c m)).

(** The events of the connection life cycle: everything but chat lines,
    keyword lines, detection records and writes of the store. *)
Definition session_event (e : event) : bool :=
  match e with
  | LoggerInfo ConnectedLine => true
  | LoggerInfo (BroadcastStartLine _) => true
  | LoggerInfo _ => false
  | LoggerWarning _ => true
  | KeywordLogWrite _ => false
  | KeywordLogClose => true
  | StoreWrite _ => false
  | WsConnect => true
  | WsSend _ => true
  | WsClose => true
  | StopRequested => true
  end.

(** A relation respected by the steps of [connect], [stop] and [close]. *)
Class SessionInvariant (R : Machine -> Machine -> Prop) : Prop := {
  inv_refl : forall m, R m m;
  inv_trans : forall a b c, R a b -> R b c -> R a c;
  inv_event : forall m e, session_event e = true -> R m (emit_event m e);
  inv_set_stop : forall m, R m (with_self m (set__stop (self m) true));
  inv_set_sock : forall m s, R m (with_self m (set_sock (self m) s));
  inv_close_log :
    forall m, R m (with_self m (set_keyword_log (self m) (Some FileClosed)));
  inv_set_chatChannelId :
    forall m v, R m (with_self m (set_chatChannelId (self m) v));
  inv_set_tokens : forall m a b, R m (with_self m (set_tokens (self m) a b));
  inv_set_sid : forall m v, R m (with_self m (set_sid (self m) v));
  inv_set_broadcast_start_timestamp :
    forall m v, R m (with_self m (set_broadcast_start_timestamp (self m) v))
}.

(** A relation respected by everything the loop of [run] does. *)
Class LoopInvariant {RT : Runtime} (R : Machine -> Machine -> Prop) : Prop := {
  inv_session :: SessionInvariant R;
  inv_chat_line :
    forall m now ct nick msg_text,
      R m (emit_event m (LoggerInfo (ChatLine now ct nick msg_text)));
  inv_record_hit :
    forall m hit ms now nick msg_text,
      R m (snd (record_hit hit ms now nick msg_text m))
}.

End Frame.

(** The relations the statements about the session use. *)
Module Rel.
Import Py.
Import Run.
Import Spec.

(** The keyword policy of the two objects is the same. *)
Definition same_policy (o o' : ChzzkChat) : Prop :=
  keyword_display o' = keyword_display o /\
  keywords o' = keywords o /\
  keyword_threshold o' = keyword_threshold o /\
  keyword_thresholds o' = keyword_thresholds o /\
  keyword_window o' = keyword_window o /\
  keyword_windows o' = keyword_windows o /\
  contains_keywords_list o' = contains_keywords_list o /\
  contains_keywords_set o' = contains_keywords_set o /\
  keyword_patterns o' = keyword_patterns o.

(** What a step of the connection life cycle leaves alone: the policy, the
    cumulative counts, the sliding windows, the identity of the user and of
    the channel, the files, and the detection records written so far. *)
Definition session_frame (m m' : Machine) : Prop :=
  same_policy (self m) (self m') /\
  keyword_counts (self m') = keyword_counts (self m) /\
  keyword_hits_window (self m') = keyword_hits_window (self m) /\
  userIdHash (self m') = userIdHash (self m) /\
  channelName (self m') = channelName (self m) /\
  files m' = files m /\
  filter is_detection (trace m') = filter is_detection (trace m).

(** No cumulative count goes down. *)
Definition counts_grow (m m' : Machine) : Prop :=
  forall k, count_of (self m) k <= count_of (self m') k.

(** The policy stays what it is. *)
Definition policy_kept (m m' : Machine) : Prop :=
  same_policy (self m) (self m').

(** Once set, the stop flag stays set. *)
Definition stop_sticky (m m' : Machine) : Prop :=
  _stop (self m) = true -> _stop (self m') = true.

(** Once the event log is no longer open, it does not reopen and no
    detection record is written. *)
Definition closed_log_silent (m m' : Machine) : Prop :=
  keyword_log (self m) <> Some FileOpen ->
  keyword_log (self m') <> Some FileOpen /\
  filter is_detection (trace m') = filter is_detection (trace m).

End Rel.

(** The form of the keys and values [_sanitize_counts] produces. *)
Module CountsSpec.
Import Py.

(** A key that is its own stripped lowercase form. *)
Definition normal_key (k : string) : Prop := lower (strip k) = k /\ k <> "".

Definition counts_ok (d : dict Z) : Prop :=
  NoDup (dkeys d) /\ Forall (fun kv => normal_key (fst kv) /\ 0 <= snd kv) d.

(** No other key of [d] is stored under [kw] by [_sanitize_counts]. *)
Definition unshadowed (d : dict Z) (kw : string) : Prop :=
  forall k, In k (dkeys d) -> lower (strip k) = kw -> k = kw.

End CountsSpec.

(** Scenarios: a start-up, a chat frame, a restart. *)
Module Scenario.
Import Py.
Import Run.
Import Spec.

(** An answer that arrives while the host leaves the object alone. *)
Definition quiet {A} (r : result A) : Answer A :=
  {| stop_during := false; outcome := r |}.

(** An answer during which the host calls [stop()]. *)
Definition stopped_meanwhile {A} (r : result A) : Answer A :=
  {| stop_during := true; outcome := r |}.

(** A connection that succeeds on channel [cid] and is given session
    [session]. *)
Definition connect_ok (cid session : string) : ConnectEnv :=
  {| c_chatChannelId := quiet (Ok cid);
     c_accessToken := quiet (Ok (String.append "token-of-" cid, String.append "extra-of-" cid));
     c_sock_connect := quiet (Ok tt);
     c_send_connect := quiet (Ok tt);
     c_recv_connect :=
       quiet (Ok (Some (PDict [("bdy", PDict [("sid", PStr session)])])));
     c_send_recent := quiet (Ok tt);
     c_recv_recent := quiet (Ok tt);
     c_connected := true;
     c_start_time := quiet (Ok (inject_Z 0)) |}.

Definition no_environ : Environ :=
  {| KEYWORDS := None;
     KEYWORD_THRESHOLD := None;
     KEYWORD_THRESHOLDS := None;
     KEYWORD_WINDOW := None;
     KEYWORD_WINDOWS := None |}.

(** An environment in which [KEYWORD_THRESHOLDS] is [{" gg ": 1}]. *)
Definition padded_threshold_key : Environ :=
  {| KEYWORDS := None;
     KEYWORD_THRESHOLD := None;
     KEYWORD_THRESHOLDS := Some (PDict [(" gg ", PInt 1)]);
     KEYWORD_WINDOW := None;
     KEYWORD_WINDOWS := None |}.

(** An environment in which [KEYWORD_THRESHOLDS] is [{"": 1}]. *)
Definition empty_threshold_key : Environ :=
  {| KEYWORDS := None;
     KEYWORD_THRESHOLD := None;
     KEYWORD_THRESHOLDS := Some (PDict [("", PInt 1)]);
     KEYWORD_WINDOW := None;
     KEYWORD_WINDOWS := None |}.

(** A start-up in which every call of the [api] module succeeds. *)
Definition startup (env : Environ) : InitEnv :=
  {| environ := env;
     can_open_keyword_log := true;
     i_userIdHash := Ok "user";
     i_chatChannelId := Ok "channel-1";
     i_channelName := Ok "streamer";
     i_accessToken := Ok ("token", "extra");
     i_start_time := quiet (Ok (inject_Z 0));
     i_connect := connect_ok "channel-1" "sid-1" |}.

(** A turn of the loop in which [recv] returns [frame] and nothing else is
    asked of the outside. *)
Definition turn_receiving (frame : pyval) : IterEnv :=
  {| recv1 := quiet (Ok (Some frame));
     reconnect := connect_ok "channel-1" "sid-2";
     recv2 := quiet (Raise WebSocketException);
     send_pong := quiet (Ok tt);
     ping_chatChannelId := quiet (Ok "channel-1");
     ping_connect := connect_ok "channel-1" "sid-3" |}.

(** A CHAT frame with one message of a named viewer. *)
Definition chat_frame (text : string) (msgTime : Z) : pyval :=
  PDict [("cmd", PInt 93101);
         ("bdy", PList [PDict [("uid", PStr "viewer-1");
                               ("profile", PDict [("nickname", PStr "viewer")]);
                               ("msg", PStr text);
                               ("msgTime", PInt msgTime)]])].

(** A turn in which [recv] fails, the reconnection to [cid] succeeds and
    the next [recv] returns [frame]. *)
Definition turn_reconnecting (cid session : string) (frame : pyval) : IterEnv :=
  {| recv1 := quiet (Raise WebSocketException);
     reconnect := connect_ok cid session;
     recv2 := quiet (Ok (Some frame));
     send_pong := quiet (Ok tt);
     ping_chatChannelId := quiet (Ok cid);
     ping_connect := connect_ok cid session |}.

Definition ping_frame : pyval := PDict [("cmd", PInt 0)].

(** A turn in which a PING arrives and the host calls [stop()] while the
    worker asks the [api] module for the chat channel, which answers
    [cid]. *)
Definition turn_stopped_in_ping (cid session : string) : IterEnv :=
  {| recv1 := quiet (Ok (Some ping_frame));
     reconnect := connect_ok cid session;
     recv2 := quiet (Raise WebSocketException);
     send_pong := quiet (Ok tt);
     ping_chatChannelId := stopped_meanwhile (Ok cid);
     ping_connect := connect_ok cid session |}.

(** A turn in which the host calls [stop()] while the worker waits in
    [recv], which then fails on the closed socket. *)
Definition turn_stopped_in_recv : IterEnv :=
  {| recv1 := stopped_meanwhile (Raise WebSocketException);
     reconnect := connect_ok "channel-1" "sid-2";
     recv2 := quiet (Raise WebSocketException);
     send_pong := quiet (Ok tt);
     ping_chatChannelId := quiet (Ok "channel-1");
     ping_connect := connect_ok "channel-1" "sid-3" |}.

(** A configuration without Contains rules. *)
Definition config_of (kws : list string) (thr win : option Z)
    (per_thr per_win : dict Z) : ConfigStore.Config :=
  {| ConfigStore.keywords := kws;
     ConfigStore.global_threshold := thr;
     ConfigStore.per_keyword_thresholds := per_thr;
     ConfigStore.global_window := win;
     ConfigStore.per_keyword_windows := per_win;
     ConfigStore.contains_keywords := [] |}.

(** A settings file holding the given configuration and counts. *)
Definition settings (c : ConfigStore.Config) (counts : dict Z)
  : ConfigStore.Files :=
  {| ConfigStore.CONFIG_PATH :=
       Some (Some (ConfigStore.data_to_py
         {| ConfigStore.config := c; ConfigStore.counts := counts |}));
     ConfigStore.LEGACY_COUNTS_JSON := None;
     ConfigStore.legacy_keywords := [];
     ConfigStore.legacy_threshold := None;
     ConfigStore.legacy_thresholds := [];
     ConfigStore.legacy_window := None;
     ConfigStore.legacy_windows := [];
     ConfigStore.writable := true;
     ConfigStore.fails_after_open := false |}.

(** The same files on a disk that is full: the settings file can be opened
    for writing, and the write then fails. *)
Definition on_full_disk (f : ConfigStore.Files) : ConfigStore.Files :=
  {| ConfigStore.CONFIG_PATH := ConfigStore.CONFIG_PATH f;
     ConfigStore.LEGACY_COUNTS_JSON := ConfigStore.LEGACY_COUNTS_JSON f;
     ConfigStore.legacy_keywords := ConfigStore.legacy_keywords f;
     ConfigStore.legacy_threshold := ConfigStore.legacy_threshold f;
     ConfigStore.legacy_thresholds := ConfigStore.legacy_thresholds f;
     ConfigStore.legacy_window := ConfigStore.legacy_window f;
     ConfigStore.legacy_windows := ConfigStore.legacy_windows f;
     ConfigStore.writable := false;
     ConfigStore.fails_after_open := true |}.

(** The machine a process starts from: the files, and no object yet (the
    object of [watching_gg] stands for the memory [__init__] overwrites). *)
Definition boot (f : ConfigStore.Files) : Machine :=
  machine_of (watching_gg 1 60) f.

Section WithRuntime.
Context {RT : Runtime} {CMD : Commands}.

(** The machine once [__init__] has run on the files [f]. *)
Definition started (f : ConfigStore.Files) (env : Environ) : Machine :=
  snd (__init__ (startup env) (boot f)).

(** A process: start-up on the files [f], then the loop fed with
    [script]. *)
Definition session (f : ConfigStore.Files) (env : Environ) (script : list IterEnv)
  : Machine :=
  snd (run script (started f env)).

End WithRuntime.

End Scenario.

(** What it means for a keyword to occur in a message. *)
Module MatchSpec.
Import Py.







(** The elements of a list by order of first occurrence. *)
Fixpoint first_occurrences (seen l : list string) : list string :=
  match l with
  | [] => []
  | x :: r =>
      if set_mem x seen then first_occurrences seen r
      else x :: first_occurrences (seen ++ [x]) r
  end.

(** The keys under which the stored Contains entries are registered, in the
    order of the entries. *)
Definition registered_contains (c : ConfigStore.Config) : list string :=
  filter nonempty
    (map (fun e => lower (strip (ConfigStore.keyword e)))
         (ConfigStore.contains_keywords c)).

End MatchSpec.

(* ================================================================== *)
(** ** More of [str]: what [gui.py] and the legacy loaders use *)
(* ================================================================== *)

Module Text.
Import Py.

(** [s.replace(a, b)] for one-character [a] and [b]. *)
Fixpoint replace (a b : ascii) (s : string) : string :=
  match s with
  | EmptyString => EmptyString
  | String c r => String (if Ascii.eqb c a then b else c) (replace a b r)
  end.

(** [s.split()]: the maximal runs of characters that are not white space. *)
Fixpoint split_ws (s : string) : list string :=
  match s with
  | EmptyString => []
  | String c r =>
      if is_space c then split_ws r
      else
        match r with
        | EmptyString => [String c EmptyString]
        | String c' _ =>
            if is_space c' then String c EmptyString :: split_ws r
            else match split_ws r with
                 | w :: ws => String c w :: ws
                 | [] => [String c EmptyString]
                 end
        end
  end.

(** [sep.join(l)] *)
Fixpoint join (sep : string) (l : list string) : string :=
  match l with
  | [] => EmptyString
  | x :: r =>
      match r with
      | [] => x
      | _ :: _ => String.append x (String.append sep (join sep r))
      end
  end.

(** The line boundaries of [str.splitlines] on the ASCII range: line feed,
    vertical tab, form feed, carriage return and the three separators
    0x1c, 0x1d and 0x1e. *)
Definition is_linebreak (c : ascii) : bool :=
  ((10 <=? code c) && (code c <=? 13)) || ((28 <=? code c) && (code c <=? 30)).

(** [s.splitlines()]: a carriage return followed by a line feed is one
    boundary, and a boundary at the very end opens no further line. *)
Fixpoint splitlines (s : string) : list string :=
  match s with
  | EmptyString => []
  | String c r =>
      if is_linebreak c then
        EmptyString ::
        (if code c =? 13 then
           match r with
           | String c' r' => if code c' =? 10 then splitlines r' else splitlines r
           | EmptyString => []
           end
         else splitlines r)
      else
        match splitlines r with
        | l :: ls => String c l :: ls
        | [] => [String c EmptyString]
        end
  end.

End Text.

(* ================================================================== *)
(** ** config_store.py: the loaders of the legacy files *)
(* ================================================================== *)

Module Legacy.
Import Py.
Import Text.
Import ConfigStore.

(** What the loaders read.  A text file is given by its text and a JSON
    file by the value it parses to; [None] stands for a file that does not
    exist, cannot be read or, for a JSON file, cannot be parsed: the code
    treats these alike.  The environment is that of [Run.Environ]. *)
Record Sources : Type := {
  LEGACY_KEYWORDS_TXT : option string;
  LEGACY_THRESHOLD_TXT : option string;
  LEGACY_THRESHOLDS_JSON : option pyval;
  LEGACY_WINDOW_TXT : option string;
  LEGACY_WINDOWS_JSON : option pyval;
  environ : Run.Environ
}.

(** [os.getenv(name) or ''] *)
Definition getenv_or_empty (v : option string) : string :=
  match v with Some s => s | None => EmptyString end.

Section WithRuntime.
Context {RT : Runtime}.

Definition _load_legacy_keywords (src : Sources) : list string :=
  let lines :=
    match LEGACY_KEYWORDS_TXT src with
    | Some text =>
        map strip (filter (fun ln => nonempty (strip ln)) (splitlines text))
    | None => []
    end in
  match lines with
  | _ :: _ => lines
  | [] =>
      let env_val := strip (getenv_or_empty (Run.KEYWORDS (environ src))) in
      map strip (filter (fun seg => nonempty (strip seg)) (split "," env_val))
  end.

(** The shape shared by [_load_legacy_threshold] and [_load_legacy_window]:
    the file when its stripped text is not empty, else the variable when its
    stripped text is not empty, else [None]. *)
Definition load_legacy_int (file env : option string) (default : Z) : option Z :=
  let from_env :=
    let env_val := strip (getenv_or_empty env) in
    if nonempty env_val
    then Some (_ensure_positive_int (PStr env_val) default)
    else None in
  match file with
  | Some text =>
      let txt := strip text in
      if nonempty txt
      then Some (_ensure_positive_int (PStr txt) default)
      else from_env
  | None => from_env
  end.

Definition _load_legacy_threshold (src : Sources) : option Z :=
  load_legacy_int (LEGACY_THRESHOLD_TXT src)
                  (Run.KEYWORD_THRESHOLD (environ src)) 1.

Definition _load_legacy_window (src : Sources) : option Z :=
  load_legacy_int (LEGACY_WINDOW_TXT src)
                  (Run.KEYWORD_WINDOW (environ src)) 60.

(** The loop [for k, v in raw.items(): if str(v).isdigit(): key =
    str(k).strip(); if key: data[key] = max(1, int(v))].  The result is the
    dictionary reached and whether the loop was left by an exception. *)
Fixpoint legacy_items (data : dict Z) (items : dict pyval) : dict Z * bool :=
  match items with
  | [] => (data, false)
  | (k, v) :: r =>
      if isdigit (str v) then
        let key := strip k in
        if nonempty key then
          match int v with
          | Some i => legacy_items (dset data key (Z.max 1 i)) r
          | None => (data, true)
          end
        else legacy_items data r
      else legacy_items data r
  end.

Definition _load_legacy_map (path env_var : option pyval) : dict Z :=
  let data :=
    match path with
    | Some (PDict raw) =>
        match legacy_items [] raw with
        | (data, false) => data
        | (_, true) => []
        end
    | _ => []
    end in
  match data with
  | _ :: _ => data
  | [] =>
      match env_var with
      | Some (PDict raw) => fst (legacy_items [] raw)
      | _ => data
      end
  end.

(** The files as [_load_data] sees them when the legacy sources are [src]. *)
Definition files_of (src : Sources) (settings : option (option pyval))
    (legacy_counts : option pyval) (can_write fails_late : bool) : Files :=
  {| CONFIG_PATH := settings;
     LEGACY_COUNTS_JSON := legacy_counts;
     legacy_keywords := _load_legacy_keywords src;
     legacy_threshold := _load_legacy_threshold src;
     legacy_thresholds :=
       _load_legacy_map (LEGACY_THRESHOLDS_JSON src)
                        (Run.KEYWORD_THRESHOLDS (environ src));
     legacy_window := _load_legacy_window src;
     legacy_windows :=
       _load_legacy_map (LEGACY_WINDOWS_JSON src)
                        (Run.KEYWORD_WINDOWS (environ src));
     writable := can_write;
     fails_after_open := fails_late |}.

End WithRuntime.

End Legacy.

(* ================================================================== *)
(** ** gui.py: the parsers and printers of the two input fields *)
(* ================================================================== *)

Module Gui.
Import Py.
Import Text.
Import ConfigStore.

(** The truth value of a JSON-shaped value. *)
Definition as_bool (v : pyval) : bool :=
  match v with
  | PNone => false
  | PBool b => b
  | PInt z => negb (z =? 0)
  | PStr s => nonempty s
  | PList l => match l with [] => false | _ :: _ => true end
  | PDict d => match d with [] => false | _ :: _ => true end
  end.

(** [parts[i] if len(parts) > i else ""] *)
Definition part (parts : list string) (i : nat) : string :=
  nth i parts EmptyString.

Section WithRuntime.
Context {RT : Runtime}.

Definition _parse_keywords (text : string) : list string :=
  if negb (nonempty text) then []
  else
    let normalized := replace "/" " " (replace "," " " text) in
    map strip (filter (fun seg => nonempty (strip seg)) (split_ws normalized)).

(** An [int] (or a [bool], which is one) is taken as it is; anything else
    goes through [str(text or '').strip()].  No handler guards the call of
    [int]; on the strings of the model it cannot fail, [isdigit] accepting
    ASCII digits only, so the branch [None] below is never taken. *)
Definition _positive_int (text : pyval) (default : Z) : Z :=
  match text with
  | PInt value => if 1 <=? value then value else default
  | PBool b =>
      let value := if b then 1 else 0 in
      if 1 <=? value then value else default
  | _ =>
      let text := strip (str (if as_bool text then text else PStr EmptyString)) in
      if isdigit text then
        match int_of_str text with
        | Some value => if 1 <=? value then value else default
        | None => default
        end
      else default
  end.

(** [env_json] is given by the value it parses to; [None] stands for a
    variable that is unset, empty or not JSON.  As in [_positive_int], the
    call of [int] on a string [isdigit] accepts cannot fail on the strings
    of the model. *)
Definition _sanitize_env_map (env_json : option pyval) : dict Z :=
  match env_json with
  | Some (PDict raw) =>
      fold_left
        (fun result kv =>
           let key := strip (fst kv) in
           if negb (nonempty key) then result
           else
             match snd kv with
             | PInt z => if 1 <=? z then dset result key z else result
             | PBool b => if b then dset result key 1 else result
             | PStr v =>
                 if isdigit v then
                   match int_of_str v with
                   | Some val => if 1 <=? val then dset result key val else result
                   | None => result
                   end
                 else result
             | _ => result
             end)
        raw []
  | _ => []
  end.

(** [[seg.strip() for seg in text.split(sep) if seg.strip()]] *)
Definition stripped_segments (sep : ascii) (text : string) : list string :=
  map strip (filter (fun seg => nonempty (strip seg)) (split sep text)).

(** The threshold and window parts of a segment: lines 108-121 of
    [_parse_combo], which lines 139-152 of [_parse_contains_entries]
    repeat word for word. *)
Definition threshold_window_parts (parts : list string) : string * string :=
  let threshold_part := part parts 1 in
  let window_part := part parts 2 in
  let '(threshold_part, window_part) :=
    if nonempty threshold_part && str_in "," threshold_part
       && negb (nonempty window_part)
    then
      match stripped_segments "," threshold_part with
      | [] => (threshold_part, window_part)
      | first :: rest =>
          (first, match rest with second :: _ => second | [] => window_part end)
      end
    else (threshold_part, window_part) in
  let window_part :=
    if nonempty window_part && str_in "," window_part
    then strip (hd EmptyString (split "," window_part))
    else window_part in
  (threshold_part, window_part).

(** One turn of the loop of [_parse_combo]. *)
Definition combo_step (st : list string * Z * Z) (segment : string)
  : list string * Z * Z :=
  let '(keywords, threshold, window) := st in
  let parts := map strip (split ":" segment) in
  match parts with
  | [] => st
  | kws_part :: _ =>
      let keywords :=
        if nonempty kws_part then keywords ++ _parse_keywords kws_part
        else keywords in
      let '(threshold_part, window_part) := threshold_window_parts parts in
      let threshold :=
        if nonempty threshold_part
        then _positive_int (PStr threshold_part) threshold
        else threshold in
      let window :=
        if nonempty window_part
        then _positive_int (PStr window_part) window
        else window in
      (keywords, threshold, window)
  end.

Definition _parse_combo (text : string) (default_threshold default_window : Z)
  : list string * Z * Z :=
  match stripped_segments "," text with
  | [] => ([], default_threshold, default_window)
  | segments =>
      fold_left combo_step segments ([], default_threshold, default_window)
  end.

(** One turn of the loop of [_parse_contains_entries]: the entry appended,
    if any. *)
Definition contains_entry_of (default_threshold default_window : Z)
    (segment : string) : list ContainsEntry :=
  let parts := map strip (split ":" segment) in
  match parts with
  | [] => []
  | keyword :: _ =>
      if negb (nonempty keyword) then []
      else
        let '(threshold_part, window_part) := threshold_window_parts parts in
        [{| keyword := keyword;
            threshold := _positive_int (PStr threshold_part) default_threshold;
            window := _positive_int (PStr window_part) default_window |}]
  end.

Definition _parse_contains_entries (text : string)
    (default_threshold default_window : Z) : list ContainsEntry :=
  flat_map (contains_entry_of default_threshold default_window)
           (stripped_segments "," text).

(** One turn of the loop of [_format_contains_entries]: the segment
    appended, if any.  The entries are those of a loaded configuration. *)
Definition contains_segment_of (entry : ContainsEntry) : list string :=
  let keyword := strip (keyword entry) in
  if negb (nonempty keyword) then []
  else
    let threshold := _positive_int (PInt (threshold entry)) 1 in
    let window := _positive_int (PInt (window entry)) 60 in
    [String.append keyword
       (String.append ":"
          (String.append (str_of_int threshold)
             (String.append ":" (str_of_int window))))].

Definition _format_contains_entries (entries : list ContainsEntry) : string :=
  match entries with
  | [] => EmptyString
  | _ :: _ => join ", " (flat_map contains_segment_of entries)
  end.

(** One turn of the loop of [_parse_per_combo].  As in [_positive_int], the
    calls of [int] cannot fail on the strings of the model. *)
Definition per_combo_step (st : dict Z * dict Z) (segment : string)
  : dict Z * dict Z :=
  let '(per_thresholds, per_windows) := st in
  let segment := strip segment in
  if negb (nonempty segment) then st
  else
    let parts := map strip (split ":" segment) in
    if (List.length parts <? 2)%nat then st
    else
      let key := part parts 0 in
      if negb (nonempty key) then st
      else
        let thr_part := part parts 1 in
        let win_part := part parts 2 in
        let per_thresholds :=
          if isdigit thr_part then
            match int_of_str thr_part with
            | Some i => dset per_thresholds key (Z.max 1 i)
            | None => per_thresholds
            end
          else per_thresholds in
        let per_windows :=
          if isdigit win_part then
            match int_of_str win_part with
            | Some i => dset per_windows key (Z.max 1 i)
            | None => per_windows
            end
          else per_windows in
        (per_thresholds, per_windows).

Definition _parse_per_combo (text : string) : dict Z * dict Z :=
  fold_left per_combo_step (split "," text) ([], []).

Definition _format_per_combo (per_thresholds per_windows : dict Z) : string :=
  let keys :=
    fold_left set_add (dkeys per_windows)
              (fold_left set_add (dkeys per_thresholds) []) in
  match keys with
  | [] => EmptyString
  | _ :: _ =>
      join ","
        (map (fun key =>
                let thr := dget_default per_thresholds key 1 in
                let win := dget_default per_windows key 60 in
                String.append key
                  (String.append ":"
                     (String.append (str_of_int thr)
                        (String.append ":" (str_of_int win)))))
             (Run.sorted (set_iter keys)))
  end.

(** The configuration [App.start] hands to [save_config] (lines 419-433),
    from the text of the two input fields and the current defaults. *)
Definition start_config (keyword_combo contains : string)
    (default_threshold default_window : Z) : pyval :=
  let '(combo_keywords, combo_threshold, combo_window) :=
    _parse_combo keyword_combo default_threshold default_window in
  let contains_entries :=
    _parse_contains_entries contains combo_threshold combo_window in
  PDict [("keywords", PList (map PStr combo_keywords));
         ("global_threshold", PInt combo_threshold);
         ("per_keyword_thresholds", PDict []);
         ("global_window", PInt combo_window);
         ("per_keyword_windows", PDict []);
         ("contains_keywords", PList (map entry_to_py contains_entries))].

(** The text [App.__init__] puts in the keyword field (lines 288-309), from
    the keywords, the threshold and the window it has settled on. *)
Definition combo_value (initial_keywords : list string)
    (config_threshold config_window : Z) : string :=
  let keywords_display := join " " initial_keywords in
  let threshold_display := str_of_int config_threshold in
  let window_display := str_of_int config_window in
  join "," [join ":" [keywords_display; threshold_display; window_display]].

End WithRuntime.

End Gui.
(** Vocabulary of the statements about text. *)
Module TextSpec.
Import Py.

(** No character of [s] satisfies [p]. *)
Definition free_of (p : ascii -> bool) (s : string) : Prop :=
  Forall (fun c => p c = false) (list_ascii_of_string s).

(** The character [a]. *)
Definition is_char (a : ascii) (c : ascii) : bool := Ascii.eqb c a.

End TextSpec.
(** What the receive loop leaves alone in the store. *)
Module StoreRel.
Import Py.
Import Run.

Section WithRuntime.
Context {RT : Runtime}.

(** A write of the settings file cannot damage it: it succeeds, or it
    fails when the file is opened. *)
Definition write_is_safe (f : ConfigStore.Files) : Prop :=
  ConfigStore.writable f = true \/ ConfigStore.fails_after_open f = false.

(** Of the files, only the settings file may have changed. *)
Definition only_settings_written (m m' : Machine) : Prop :=
  files m' = ConfigStore.set_CONFIG_PATH (files m) (ConfigStore.CONFIG_PATH (files m')).

(** Only the settings file may have changed and, when a write cannot damage
    it, the configuration [load_config] reads from the files stays what it
    is. *)
Definition stored_config_kept (m m' : Machine) : Prop :=
  only_settings_written m m' /\
  (write_is_safe (files m) ->
   ConfigStore.load_config (files m') = ConfigStore.load_config (files m)).

End WithRuntime.

End StoreRel.

(** Vocabulary of the statements about a turn of the loop and about the
    handshake. *)
Module SessionSpec.
Import Py.
Import Run.
Import Spec.

(** Code that ends the turn with [continue] unless it raises. *)
Definition goes_on (c : M control) : Prop :=
  forall m, fst (c m) <> Ok Break.

Definition is_send (e : event) : bool :=
  match e with WsSend _ => true | _ => false end.

(** A step that sends no frame and leaves the identity of the user, the
    chat channel, the tokens and the session id alone. *)
Definition sends_nothing (m m' : Machine) : Prop :=
  userIdHash (self m') = userIdHash (self m) /\
  chatChannelId (self m') = chatChannelId (self m) /\
  accessToken (self m') = accessToken (self m) /\
  extraToken (self m') = extraToken (self m) /\
  sid (self m') = sid (self m) /\
  exists l, trace m' = trace m ++ l /\ filter is_send l = [].

Section WithCommands.
Context {CMD : Commands}.

(** The first frame of the handshake. *)
Definition connect_frame (cid uid accTkn : string) : pyval :=
  PDict [("cmd", PInt cmd_connect);
         ("tid", PInt 1);
         ("bdy", PDict [("uid", PStr uid);
                        ("devType", PInt 2001);
                        ("accTkn", PStr accTkn);
                        ("auth", PStr "SEND")]);
         ("ver", PStr "2"); ("svcid", PStr "game"); ("cid", PStr cid)].

(** The second frame of the handshake. *)
Definition recent_chat_frame (cid : string) (session : pyval) : pyval :=
  PDict [("cmd", PInt cmd_request_recent_chat);
         ("tid", PInt 2);
         ("sid", session);
         ("bdy", PDict [("recentMessageCount", PInt 50)]);
         ("ver", PStr "2"); ("svcid", PStr "game"); ("cid", PStr cid)].

End WithCommands.

(** [reply["bdy"]["sid"]] is [session]. *)
Definition carries_sid (reply session : pyval) : Prop :=
  exists d b, reply = PDict d /\ dget d "bdy" = Some (PDict b) /\
              dget b "sid" = Some session.

End SessionSpec.
(** What [__init__] guarantees about the policy it builds. *)
Module PolicySpec.
Import Py.
Import Run.

Definition lower_case (k : string) : Prop := lower k = k.

(** The display label of a keyword is a spelling of it. *)
Definition spells (kv : string * string) : Prop := lower (snd kv) = fst kv.

(** A per-keyword threshold or window: the key is in lower case and the
    value is at least 1. *)
Definition rule_ok (kv : string * Z) : Prop :=
  lower_case (fst kv) /\ 1 <= snd kv.

(** The state of the loop over the stored Contains entries, as the loop
    keeps it. *)
Record contains_state_ok (st : ContainsState) : Prop := {
  cs_display_ok : Forall spells (cs_display st);
  cs_keywords_ok : Forall lower_case (cs_keywords st);
  cs_thresholds_ok : Forall rule_ok (cs_thresholds st);
  cs_windows_ok : Forall rule_ok (cs_windows st);
  cs_set_is_list : cs_set st = cs_list st;
  cs_list_in_keywords : incl (cs_list st) (cs_keywords st)
}.

End PolicySpec.
(** Vocabulary of the statements about the input fields of the window. *)
Module GuiSpec.
Import Py.
Import TextSpec.
Import ConfigStore.

(** What separates two keywords in the keyword field: white space, a comma
    or a slash. *)
Definition is_keyword_separator (c : ascii) : bool :=
  is_space c || is_char "," c || is_char "/" c.

(** A keyword as the keyword field holds it. *)
Definition token (w : string) : Prop :=
  w <> EmptyString /\ free_of is_keyword_separator w.


(** What separates the parts of a field: a comma or a colon. *)
Definition is_field_separator (c : ascii) : bool :=
  is_char "," c || is_char ":" c.

(** An entry of the Contains field that can be printed and read back: the
    keyword is stripped, not empty and holds no comma and no colon, and the
    threshold and the window are at least 1. *)
Definition printable (e : ContainsEntry) : Prop :=
  StoreSpec.entry_ok e /\ free_of is_field_separator (keyword e).

End GuiSpec.
(** Reading a duration back. *)
Module DurationSpec.
Import Py.

(** The number of seconds a text of the form [h:m:s] stands for. *)
Definition parse_duration (text : string) : option Z :=
  match split ":" text with
  | [h; m; s] =>
      match int_of_str h, int_of_str m, int_of_str s with
      | Some h, Some m, Some s => Some (h * 3600 + m * 60 + s)
      | _, _, _ => None
      end
  | _ => None
  end.

End DurationSpec.

(* ================================================================== *)
(** ** Properties *)
(* ================================================================== *)

Import Py.
Import Run.
Import Spec.
Local Open Scope py_scope.

(** Unfolding of the monad, for the proofs that follow a method step by
    step. *)
Ltac unfold_monad :=
  unfold bind, ret, Run.raise, emit, modify_self, get_self, put_self, lift,
         try_except, try_except_Exception, with_self, with_files, emit_event
    in *.

(** *** Dictionaries *)

Lemma dget_dset_same {V} (d : dict V) (k : string) (v : V) :
  dget (dset d k v) k = Some v.
Proof.
  induction d as [|[k' v'] r IH]; simpl.
  - now rewrite String.eqb_refl.
  - destruct (String.eqb k' k) eqn:E; simpl; rewrite E; [reflexivity | exact IH].
Qed.

Lemma dget_dset_other {V} (d : dict V) (k k' : string) (v : V) :
  k' <> k -> dget (dset d k v) k' = dget d k'.
Proof.
  intro Hne. induction d as [|[k0 v0] r IH]; simpl.
  - apply String.eqb_neq in Hne. rewrite String.eqb_sym. now rewrite Hne.
  - destruct (String.eqb k0 k) eqn:E; simpl.
    + apply String.eqb_eq in E. subst k0.
      assert (H : String.eqb k k' = false)
        by (apply String.eqb_neq; congruence).
      now rewrite H.
    + destruct (String.eqb k0 k'); [reflexivity | exact IH].
Qed.

Lemma dget_default_dset_same {V} (d : dict V) (k : string) (v dflt : V) :
  dget_default (dset d k v) k dflt = v.
Proof. unfold dget_default. now rewrite dget_dset_same. Qed.

Lemma dget_default_dset_other {V} (d : dict V) (k k' : string) (v dflt : V) :
  k' <> k -> dget_default (dset d k v) k' dflt = dget_default d k' dflt.
Proof. intro H. unfold dget_default. now rewrite dget_dset_other. Qed.

Lemma dget_None_not_In {V} (d : dict V) (k : string) :
  dget d k = None <-> ~ In k (dkeys d).
Proof.
  induction d as [|[k' v'] r IH]; simpl.
  - split; auto.
  - destruct (String.eqb k' k) eqn:E.
    + apply String.eqb_eq in E. split; [discriminate | intro H; exfalso; auto].
    + apply String.eqb_neq in E. rewrite IH. split.
      * intros H [H'|H']; auto.
      * intros H H'. apply H. now right.
Qed.

(** Storing under a key that is not there appends the entry. *)
Lemma dset_fresh {V} (d : dict V) (k : string) (v : V) :
  ~ In k (dkeys d) -> dset d k v = d ++ [(k, v)].
Proof.
  induction d as [|[k' v'] r IH]; simpl; intro H; [reflexivity|].
  destruct (String.eqb k' k) eqn:E.
  - apply String.eqb_eq in E. exfalso. auto.
  - f_equal. apply IH. auto.
Qed.

(** Storing never changes the keys already there nor their order. *)
Lemma dkeys_dset {V} (d : dict V) (k : string) (v : V) :
  dkeys (dset d k v) = if dmem d k then dkeys d else dkeys d ++ [k].
Proof.
  unfold dmem. induction d as [|[k' v'] r IH]; simpl; [reflexivity|].
  destruct (String.eqb k' k) eqn:E; simpl.
  - apply String.eqb_eq in E. now subst.
  - rewrite IH. now destruct (dget r k).
Qed.

Lemma dmem_true_In {V} (d : dict V) (k : string) :
  dmem d k = true <-> In k (dkeys d).
Proof.
  unfold dmem. destruct (dget d k) eqn:E.
  - split; [intros _|reflexivity].
    destruct (in_dec string_dec k (dkeys d)) as [H|H]; [exact H|].
    apply dget_None_not_In in H. congruence.
  - split; [discriminate|]. intro H. apply dget_None_not_In in E. contradiction.
Qed.

Lemma NoDup_dkeys_dset {V} (d : dict V) (k : string) (v : V) :
  NoDup (dkeys d) -> NoDup (dkeys (dset d k v)).
Proof.
  intro H. rewrite dkeys_dset. destruct (dmem d k) eqn:E; [exact H|].
  apply NoDup_app; [exact H | repeat constructor; auto |].
  intros x Hx [<-|[]]. apply dmem_true_In in Hx. congruence.
Qed.

(** *** The sliding window *)

Lemma drop_while_split {A} (p : A -> bool) (l : list A) :
  exists evicted,
    l = evicted ++ drop_while p l /\
    Forall (fun x => p x = true) evicted /\
    match drop_while p l with
    | [] => True
    | x :: _ => p x = false
    end.
Proof.
  induction l as [|x r IH]; simpl.
  - exists []. repeat split; constructor.
  - destruct (p x) eqn:E.
    + destruct IH as (ev & Hl & Hall & Hhd).
      exists (x :: ev). repeat split.
      * simpl. congruence.
      * constructor; assumption.
      * exact Hhd.
    + exists []. repeat split; [constructor | exact E].
Qed.

Lemma Qltb_lt (x y : Q) : Qltb x y = true <-> (x < y)%Q.
Proof.
  unfold Qltb. rewrite negb_true_iff. split; intro H.
  - apply Qnot_le_lt. intro Hle. apply Qle_bool_iff in Hle. congruence.
  - destruct (Qle_bool y x) eqn:E; [|reflexivity].
    apply Qle_bool_iff in E. exfalso. eapply Qlt_not_le; eassumption.
Qed.

Lemma Qltb_ge (x y : Q) : Qltb x y = false <-> (y <= x)%Q.
Proof.
  unfold Qltb. rewrite negb_false_iff. apply Qle_bool_iff.
Qed.

(** On a window in ascending order, popping from the left while the head is
    old removes every old entry. *)
Lemma drop_while_sorted_filter (cutoff : Q) (l : list Q) :
  StronglySorted Qle l ->
  drop_while (fun x => Qltb x cutoff) l
  = filter (fun x => negb (Qltb x cutoff)) l.
Proof.
  induction 1 as [|x r Hs IH Hall]; simpl; [reflexivity|].
  destruct (Qltb x cutoff) eqn:E; simpl.
  - exact IH.
  - f_equal. clear IH Hs. apply Qltb_ge in E.
    induction r as [|y r IHr]; simpl; [reflexivity|].
    inversion Hall as [|? ? Hxy Hall']; subst.
    assert (Hy : Qltb y cutoff = false).
    { apply Qltb_ge. eapply Qle_trans; eassumption. }
    rewrite Hy. simpl. f_equal. apply IHr. exact Hall'.
Qed.

(** *** The store can only fail by [OSError] *)

Section StoreFailure.
Context {RT : Runtime}.

Lemma write_data_raises (d : ConfigStore.Data) (f f' : ConfigStore.Files) (e : exn) :
  ConfigStore._write_data d f = (Raise e, f') ->
  e = OSError /\ ConfigStore.writable f = false /\
  f' = ConfigStore.after_failed_write f.
Proof.
  unfold ConfigStore._write_data, ConfigStore.write_text.
  destruct (ConfigStore.writable f); [discriminate|].
  intro H. inversion H. auto.
Qed.

Lemma save_counts_raises (c : dict Z) (f f' : ConfigStore.Files) (e : exn) :
  ConfigStore.save_counts c f = (Raise e, f') ->
  e = OSError /\ ConfigStore.writable f = false /\
  f' = ConfigStore.after_failed_write f.
Proof. unfold ConfigStore.save_counts. apply write_data_raises. Qed.

Lemma save_counts_refused (c : dict Z) (f : ConfigStore.Files) :
  ConfigStore.writable f = false ->
  ConfigStore.save_counts c f = (Raise OSError, ConfigStore.after_failed_write f).
Proof.
  intro H. unfold ConfigStore.save_counts, ConfigStore._write_data,
    ConfigStore.write_text.
  now rewrite H.
Qed.

Lemma save_counts_writable (c : dict Z) (f : ConfigStore.Files) :
  ConfigStore.writable f = true ->
  exists f', ConfigStore.save_counts c f = (Ok tt, f').
Proof.
  intro H. unfold ConfigStore.save_counts, ConfigStore._write_data,
    ConfigStore.write_text.
  rewrite H. eexists. reflexivity.
Qed.

Lemma save_counts_returns (c : dict Z) (f f' : ConfigStore.Files) (u : unit) :
  ConfigStore.save_counts c f = (Ok u, f') ->
  ConfigStore.writable f = true /\ ConfigStore.save_counts c f = (Ok tt, f').
Proof.
  intro H. destruct u. split; [|exact H].
  unfold ConfigStore.save_counts, ConfigStore._write_data,
    ConfigStore.write_text in H.
  destruct (ConfigStore.writable f); [reflexivity | discriminate].
Qed.

End StoreFailure.

Section Detection.
Context {RT : Runtime} {CMD : Commands}.

(** The object after [record_hit], whatever happens after the window is
    updated: the later steps write files and logs only. *)
Lemma record_hit_self (m : Machine) hit ms now nick msg_text :
  let o := self m in
  let counts' :=
    dset (keyword_counts o) hit (dget_default (keyword_counts o) hit 0 + 1) in
  let dq :=
    slide (dget_default (keyword_hits_window o) hit []) (ts_of_ms ms)
          (dget_default (keyword_windows o) hit (keyword_window o)) in
  self (snd (record_hit hit ms now nick msg_text m))
  = set_keyword_hits_window (set_keyword_counts o counts')
      (dset (keyword_hits_window o) hit dq).
Proof.
  intros o counts' dq. unfold record_hit. unfold_monad. simpl.
  fold o. fold counts'. fold dq.
  destruct (_ <=? _); simpl; [|reflexivity].
  unfold save_counts. simpl.
  destruct (ConfigStore.save_counts _ _) as [[u|e] f']; simpl.
  - destruct (keyword_log o) as [[|]|]; simpl; reflexivity.
  - destruct (is_Exception e); reflexivity.
Qed.

(** [record_hit] never raises: the store fails by [OSError] and a closed
    log by [ValueError], and both are caught. *)
Lemma record_hit_ok (m : Machine) hit ms now nick msg_text :
  fst (record_hit hit ms now nick msg_text m) = Ok tt.
Proof.
  unfold record_hit. unfold_monad. simpl.
  destruct (_ <=? _); simpl; [|reflexivity].
  unfold save_counts. simpl.
  destruct (ConfigStore.save_counts _ _) as [[u|e] f'] eqn:E; simpl.
  - destruct (keyword_log (self m)) as [[|]|]; simpl; reflexivity.
  - apply save_counts_raises in E. destruct E as [-> _]. reflexivity.
Qed.

(** What [record_hit] adds to the trace. *)
Lemma record_hit_trace (m : Machine) hit ms now nick msg_text :
  let o := self m in
  let counts' := dset (keyword_counts o) hit (count_of o hit + 1) in
  let dq := slide (window_of o hit) (ts_of_ms ms) (window_sec_of o hit) in
  let window_count := Z.of_nat (List.length dq) in
  trace (snd (record_hit hit ms now nick msg_text m))
  = trace m ++
    if threshold_of o hit <=? window_count then
      match ConfigStore.save_counts counts' (files m) with
      | (Ok _, f') =>
          [StoreWrite (ConfigStore.CONFIG_PATH f');
           LoggerInfo (KeycountLine (label_of o hit) (window_sec_of o hit)
                                    window_count (threshold_of o hit))]
          ++ match keyword_log o with
             | Some FileOpen =>
                 [KeywordLogWrite
                    {| dr_now := now;
                       dr_channelName := channelName o;
                       dr_keyword_label := label_of o hit;
                       dr_nickname := nick;
                       dr_duration_text := duration_text o ms;
                       dr_msg_text := msg_text |}]
             | _ => []
             end
      | (Raise _, _) => []
      end
    else [].
Proof.
  intros o counts' dq window_count.
  unfold record_hit. unfold_monad. simpl.
  unfold threshold_of, window_sec_of, window_of, count_of, label_of in *.
  fold o. fold counts'. fold dq. fold window_count.
  destruct (_ <=? _); simpl; [|now rewrite app_nil_r].
  unfold save_counts. simpl. fold o. fold counts'.
  destruct (ConfigStore.save_counts _ _) as [[u|e] f'] eqn:E; simpl.
  - destruct (keyword_log o) as [[|]|]; simpl;
      rewrite <- ?app_assoc; reflexivity.
  - apply save_counts_raises in E. destruct E as [-> _]. simpl.
    now rewrite app_nil_r.
Qed.

Lemma new_events_app (m m' : Machine) (l : list event) :
  trace m' = trace m ++ l -> new_events m m' = l.
Proof.
  intro H. unfold new_events. rewrite H.
  rewrite skipn_app, skipn_all, Nat.sub_diag. reflexivity.
Qed.

(** C1.  Recording a hit at time [t] for a keyword of window [W] appends
    [t] to the keyword's window and pops from the left exactly the leading
    entries that are strictly less than [t - W]: the popped entries form a
    prefix, each of them is older than the cutoff, and the entry that
    remains at the head, if any, is not (an entry equal to [t - W] stays).
    On a window in ascending order this removes every entry older than the
    cutoff and nothing else.  The window count is the length of what is
    left, and, the store accepting the write, the keyword fires (the
    [KEYCOUNT] line is logged) exactly when the count reaches the
    threshold, whatever was fired before.  For hits at 0, 10, 20 and 30
    seconds with window 15 and threshold 2, the hit at 20 leaves the window
    [10, 20] and fires with count 2, and the hit at 30 leaves [20, 30] and
    fires again with count 2. *)
Theorem C1_sliding_window_fires
    (m : Machine) (hit : string) (ms : Z) (now : string) (nick : nickname)
    (msg_text : string)
    (Hstore : ConfigStore.writable (files m) = true) :
  let o := self m in
  let t := ts_of_ms ms in
  let W := window_sec_of o hit in
  let thr := threshold_of o hit in
  let m' := snd (record_hit hit ms now nick msg_text m) in
  let new := window_of (self m') hit in
  let windowCount := Z.of_nat (List.length new) in
  (exists evicted,
      window_of o hit ++ [t] = evicted ++ new /\
      Forall (fun x => (x < t - inject_Z W)%Q) evicted /\
      match new with
      | [] => True
      | x :: _ => (t - inject_Z W <= x)%Q
      end) /\
  (StronglySorted Qle (window_of o hit ++ [t]) ->
   new = filter (fun x => Qle_bool (t - inject_Z W)%Q x) (window_of o hit ++ [t])) /\
  (thr <= windowCount ->
   In (LoggerInfo (KeycountLine (label_of o hit) W windowCount thr))
      (new_events m m')) /\
  (windowCount < thr -> new_events m m' = []) /\
  (let m0 := machine_of (watching_gg 2 15) fresh_files in
   let hit_at ms := record_hit "gg" ms "now" AnonymousDonor "gg" in
   let m2 := snd ((hit_at 0 ;; hit_at 10000) m0) in
   let m3 := snd (hit_at 20000 m2) in
   let m4 := snd (hit_at 30000 m3) in
   window_of (self m3) "gg" = [ts_of_ms 10000; ts_of_ms 20000] /\
   filter is_keycount (new_events m2 m3)
     = [LoggerInfo (KeycountLine "GG" 15 2 2)] /\
   window_of (self m4) "gg" = [ts_of_ms 20000; ts_of_ms 30000] /\
   filter is_keycount (new_events m3 m4)
     = [LoggerInfo (KeycountLine "GG" 15 2 2)]).
Proof.
  intros o t W thr m' new windowCount.
  assert (Hnew : new = slide (window_of o hit) t W).
  { unfold new, m'. rewrite record_hit_self. unfold window_of. simpl.
    unfold dget_default at 1. rewrite dget_dset_same. reflexivity. }
  assert (Htrace := record_hit_trace m hit ms now nick msg_text).
  cbv zeta in Htrace. fold o t W thr m' in Htrace.
  rewrite <- Hnew in Htrace. fold windowCount in Htrace.
  destruct (save_counts_writable
              (dset (keyword_counts o) hit (count_of o hit + 1)) (files m) Hstore)
    as [f' Hf'].
  rewrite Hf' in Htrace.
  split; [|split; [|split; [|split]]].
  - rewrite Hnew. unfold slide.
    destruct (drop_while_split
                (fun x => Qltb x (t - inject_Z W)%Q) (window_of o hit ++ [t]))
      as (ev & Hsplit & Hall & Hhd).
    exists ev. repeat split.
    + exact Hsplit.
    + eapply Forall_impl; [|exact Hall]. intros a Ha. now apply Qltb_lt.
    + destruct (drop_while _ _); [exact I|]. now apply Qltb_ge.
  - intro Hs. rewrite Hnew. unfold slide.
    rewrite drop_while_sorted_filter by exact Hs.
    apply filter_ext. intro a. unfold Qltb. apply negb_involutive.
  - intro Hge. apply Z.leb_le in Hge. rewrite Hge in Htrace.
    rewrite (new_events_app _ _ _ Htrace). simpl. right. left. reflexivity.
  - intro Hlt. apply Z.leb_gt in Hlt. rewrite Hlt in Htrace.
    apply (new_events_app _ _ _ Htrace).
  - cbv zeta. split; [|split; [|split]]; vm_compute; reflexivity.
Qed.

End Detection.

(** *** Strings *)

Lemma nonempty_true (s : string) : nonempty s = true <-> s <> "".
Proof. destruct s; simpl; split; congruence. Qed.

Lemma nonempty_false (s : string) : nonempty s = false <-> s = "".
Proof. destruct s; simpl; split; congruence. Qed.

Lemma lstrip_head (s : string) :
  match lstrip s with
  | EmptyString => True
  | String c _ => is_space c = false
  end.
Proof.
  induction s as [|c r IH]; simpl; [exact I|].
  destruct (is_space c) eqn:E; [exact IH | exact E].
Qed.

Lemma lstrip_fixed (s : string) :
  match s with
  | EmptyString => True
  | String c _ => is_space c = false
  end ->
  lstrip s = s.
Proof. destruct s as [|c r]; simpl; [reflexivity|]. now intros ->. Qed.

Lemma rstrip_idem (s : string) : rstrip (rstrip s) = rstrip s.
Proof.
  induction s as [|c r IH]; simpl; [reflexivity|].
  destruct (rstrip r) as [|c' r'] eqn:E.
  - destruct (is_space c) eqn:Ec; simpl; [reflexivity|]. now rewrite Ec.
  - change (rstrip (String c (String c' r')))
      with (match rstrip (String c' r') with
            | EmptyString => if is_space c then EmptyString else String c EmptyString
            | r0 => String c r0
            end).
    now rewrite IH.
Qed.

Lemma rstrip_head (c : ascii) (r : string) :
  is_space c = false -> exists r', rstrip (String c r) = String c r'.
Proof.
  intro H. simpl. destruct (rstrip r) as [|c' r'].
  - rewrite H. now exists EmptyString.
  - now exists (String c' r').
Qed.

Lemma strip_idem (s : string) : strip (strip s) = strip s.
Proof.
  unfold strip.
  assert (H := lstrip_head s).
  destruct (lstrip s) as [|c r] eqn:E; [reflexivity|].
  destruct (rstrip_head c r H) as [r' Hr']. rewrite Hr'.
  rewrite lstrip_fixed by exact H.
  rewrite <- Hr'. apply rstrip_idem.
Qed.

Lemma strip_stripped (s : string) :
  nonempty (strip s) = true -> StoreSpec.stripped (strip s).
Proof.
  intro H. split; [apply strip_idem | now apply nonempty_true].
Qed.

Lemma stripped_nonempty (s : string) :
  StoreSpec.stripped s -> nonempty (strip s) = true.
Proof. intros [H1 H2]. rewrite H1. now apply nonempty_true. Qed.

Lemma set_mem_true_In (x : string) (s : pyset) : set_mem x s = true <-> In x s.
Proof.
  unfold set_mem. rewrite existsb_exists. split.
  - intros (y & Hy & Heq). apply String.eqb_eq in Heq. now subst.
  - intro H. exists x. split; [exact H | apply String.eqb_refl].
Qed.

Lemma set_mem_false_not_In (x : string) (s : pyset) :
  set_mem x s = false <-> ~ In x s.
Proof.
  rewrite <- set_mem_true_In. destruct (set_mem x s); split; congruence.
Qed.

(** *** The sanitizer of the configuration *)

Section Sanitizer.
Context {RT : Runtime}.
Import ConfigStore StoreSpec.

Lemma ensure_positive_int_ge (v : pyval) (default : Z) :
  1 <= default -> 1 <= _ensure_positive_int v default.
Proof.
  intro H. unfold _ensure_positive_int.
  destruct (int v) as [i|]; [|exact H].
  destruct (1 <=? i) eqn:E; [now apply Z.leb_le | exact H].
Qed.

Lemma ensure_positive_int_fixed (z default : Z) :
  1 <= z -> _ensure_positive_int (PInt z) default = z.
Proof.
  intro H. unfold _ensure_positive_int. simpl.
  apply Z.leb_le in H. now rewrite H.
Qed.

(** A value that is no integer, or an integer below 1, gives the default. *)
Lemma ensure_positive_int_default (v : pyval) (default : Z) :
  (forall i, int v = Some i -> i < 1) ->
  _ensure_positive_int v default = default.
Proof.
  intro H. unfold _ensure_positive_int.
  destruct (int v) as [i|]; [|reflexivity].
  specialize (H i eq_refl). apply Z.leb_gt in H. now rewrite H.
Qed.

Lemma Forall_dset {V} (P : string * V -> Prop) (d : dict V) (k : string) (v : V) :
  Forall P d -> P (k, v) -> Forall P (dset d k v).
Proof.
  intros Hd Hk. induction Hd as [|[k' v'] r Hh Hr IH]; simpl.
  - repeat constructor. exact Hk.
  - destruct (String.eqb k' k) eqn:E.
    + apply String.eqb_eq in E. subst k'. constructor; assumption.
    + constructor; assumption.
Qed.

Lemma int_map_ok_dset (d : dict Z) (k : string) (v : Z) :
  int_map_ok d -> stripped k -> 1 <= v -> int_map_ok (dset d k v).
Proof.
  intros [Hnd Hall] Hk Hv. split.
  - now apply NoDup_dkeys_dset.
  - apply Forall_dset; [exact Hall | now split].
Qed.

Lemma sanitize_int_map_ok (default : Z) (m : dict pyval) :
  1 <= default -> int_map_ok (sanitize_int_map default m).
Proof.
  intro Hd. unfold sanitize_int_map.
  assert (H0 : int_map_ok (@nil (string * Z))) by (split; constructor).
  revert H0. generalize (@nil (string * Z)) as acc.
  induction m as [|[k v] r IH]; intros acc Hacc; simpl; [exact Hacc|].
  apply IH. destruct (nonempty (strip k)) eqn:E; [|exact Hacc].
  apply int_map_ok_dset; [exact Hacc | now apply strip_stripped |].
  now apply ensure_positive_int_ge.
Qed.

(** Sanitizing a map that is already in sanitized form rebuilds it, entry by
    entry and in the same order. *)
Lemma sanitize_int_map_rebuild (default : Z) (d acc : dict Z) :
  NoDup (dkeys (acc ++ d)) ->
  Forall (fun kv => stripped (fst kv) /\ 1 <= snd kv) d ->
  fold_left
    (fun sanitized kv =>
       let key := strip (fst kv) in
       if nonempty key
       then dset sanitized key (_ensure_positive_int (snd kv) default)
       else sanitized)
    (map (fun kv => (fst kv, PInt (snd kv))) d) acc
  = acc ++ d.
Proof.
  revert acc. induction d as [|[k v] r IH]; intros acc Hnd Hall; simpl.
  - now rewrite app_nil_r.
  - inversion Hall as [|? ? [Hk Hv] Hall']; subst. simpl in Hk, Hv.
    rewrite (stripped_nonempty k Hk). destruct Hk as [Hk _]. rewrite Hk.
    rewrite ensure_positive_int_fixed by exact Hv.
    assert (Hfresh : ~ In k (dkeys acc)).
    { unfold dkeys in *. rewrite map_app in Hnd. simpl in Hnd.
      apply NoDup_remove_2 in Hnd. intro Hin. apply Hnd.
      apply in_or_app. now left. }
    rewrite dset_fresh by exact Hfresh.
    rewrite IH.
    + now rewrite <- app_assoc.
    + now rewrite <- app_assoc.
    + exact Hall'.
Qed.

Lemma sanitize_int_map_fixed (default : Z) (d : dict Z) :
  int_map_ok d ->
  sanitize_int_map default (map (fun kv => (fst kv, PInt (snd kv))) d) = d.
Proof.
  intros [Hnd Hall]. unfold sanitize_int_map.
  now rewrite sanitize_int_map_rebuild.
Qed.

(** The loop over [contains] keeps the first entry of each lowercased
    keyword; [seen] is the list of the lowercased keywords kept so far. *)
Lemma contains_loop (items : list pyval) (acc : list ContainsEntry) :
  fold_left contains_step items (acc, map lower_keyword acc)
  = (acc ++ dedup_first (map lower_keyword acc) (candidates items),
     map lower_keyword
       (acc ++ dedup_first (map lower_keyword acc) (candidates items))).
Proof.
  revert acc. induction items as [|item r IH]; intro acc; simpl.
  - now rewrite app_nil_r.
  - assert (Hskip :
      fold_left contains_step r (acc, map lower_keyword acc)
      = (acc ++ dedup_first (map lower_keyword acc) (candidates r),
         map lower_keyword
           (acc ++ dedup_first (map lower_keyword acc) (candidates r))))
      by apply IH.
    assert (Hkeep : forall e,
      set_mem (lower_keyword e) (map lower_keyword acc) = false ->
      fold_left contains_step r
        (acc ++ [e], set_add (map lower_keyword acc) (lower_keyword e))
      = (acc ++ e :: dedup_first (map lower_keyword acc ++ [lower_keyword e])
                       (candidates r),
         map lower_keyword
           (acc ++ e :: dedup_first (map lower_keyword acc ++ [lower_keyword e])
                          (candidates r)))).
    { intros e He. unfold set_add. rewrite He.
      replace (map lower_keyword acc ++ [lower_keyword e])
        with (map lower_keyword (acc ++ [e])) by now rewrite map_app.
      rewrite IH. now rewrite <- !app_assoc. }
    unfold candidates in *. simpl.
    destruct item as [| | |s|l|d]; simpl; try exact Hskip.
    + destruct (nonempty (strip s)) eqn:E; simpl; [|exact Hskip].
      set (e := {| keyword := strip s; threshold := 1; window := 60 |}).
      change (lower (strip s)) with (lower_keyword e).
      destruct (set_mem (lower_keyword e) (map lower_keyword acc)) eqn:Em;
        [exact Hskip | now apply Hkeep].
    + destruct (nonempty (strip (str (dget_default d "keyword" (PStr ""))))) eqn:E;
        simpl; [|exact Hskip].
      set (e :=
        {| keyword := strip (str (dget_default d "keyword" (PStr "")));
           threshold := _ensure_positive_int (dget_default d "threshold" (PInt 1)) 1;
           window := _ensure_positive_int (dget_default d "window" (PInt 60)) 60 |}).
      change (lower (strip (str (dget_default d "keyword" (PStr "")))))
        with (lower_keyword e).
      destruct (set_mem (lower_keyword e) (map lower_keyword acc)) eqn:Em;
        [exact Hskip | now apply Hkeep].
Qed.

Lemma candidates_ok (items : list pyval) : Forall entry_ok (candidates items).
Proof.
  unfold candidates. induction items as [|item r IH]; simpl; [constructor|].
  apply Forall_app. split; [|exact IH].
  destruct item as [| | |s|l|d]; simpl; try constructor.
  - destruct (nonempty (strip s)) eqn:E; constructor; [|constructor].
    repeat split; simpl; try lia; now apply strip_stripped.
  - destruct (nonempty _) eqn:E; constructor; [|constructor].
    repeat split; simpl;
      try (apply ensure_positive_int_ge; lia); now apply strip_stripped.
Qed.

Lemma dedup_first_ok (seen : list string) (l : list ContainsEntry) :
  Forall entry_ok l -> Forall entry_ok (dedup_first seen l).
Proof.
  intro H. revert seen. induction H as [|e r He Hr IH]; intro seen; simpl.
  - constructor.
  - destruct (set_mem _ seen); [apply IH|]. constructor; [exact He | apply IH].
Qed.

Lemma dedup_first_distinct (seen : list string) (l : list ContainsEntry) :
  NoDup seen -> NoDup (seen ++ map lower_keyword (dedup_first seen l)).
Proof.
  revert seen. induction l as [|e r IH]; intros seen Hs; simpl.
  - now rewrite app_nil_r.
  - destruct (set_mem (lower_keyword e) seen) eqn:E; [now apply IH|].
    simpl. apply set_mem_false_not_In in E.
    change (lower_keyword e :: map lower_keyword
              (dedup_first (seen ++ [lower_keyword e]) r))
      with ([lower_keyword e] ++ map lower_keyword
              (dedup_first (seen ++ [lower_keyword e]) r)).
    rewrite app_assoc. apply IH.
    apply NoDup_app; [exact Hs | repeat constructor; auto |].
    intros x Hx [<-|[]]. contradiction.
Qed.

(** A list without two entries of the same lowercased keyword is left as it
    is. *)
Lemma dedup_first_fixed (seen : list string) (l : list ContainsEntry) :
  NoDup (seen ++ map lower_keyword l) -> dedup_first seen l = l.
Proof.
  revert seen. induction l as [|e r IH]; intros seen H; simpl; [reflexivity|].
  simpl in H.
  assert (Hnot : ~ In (lower_keyword e) seen).
  { apply NoDup_remove_2 in H. intro Hin. apply H. apply in_or_app. now left. }
  apply set_mem_false_not_In in Hnot. rewrite Hnot. f_equal.
  apply IH. rewrite <- app_assoc. exact H.
Qed.

Lemma candidates_of_entries (es : list ContainsEntry) :
  Forall entry_ok es -> candidates (map entry_to_py es) = es.
Proof.
  unfold candidates. induction 1 as [|e r He Hr IH]; simpl; [reflexivity|].
  rewrite IH. destruct He as (Hk & Ht & Hw).
  unfold dget_default. simpl.
  rewrite (stripped_nonempty _ Hk). destruct Hk as [Hk _]. rewrite Hk.
  rewrite !ensure_positive_int_fixed by assumption.
  now destruct e.
Qed.

End Sanitizer.

Section StoreRoundTrip.
Context {RT : Runtime}.
Import ConfigStore StoreSpec.

Lemma stripped_map_filter {A} (f : A -> string) (l : list A) :
  Forall stripped
    (map (fun x => strip (f x)) (filter (fun x => nonempty (strip (f x))) l)).
Proof.
  induction l as [|x r IH]; simpl; [constructor|].
  destruct (nonempty (strip (f x))) eqn:E; simpl; [|exact IH].
  constructor; [now apply strip_stripped | exact IH].
Qed.

Lemma stripped_keywords_fixed (ks : list string) :
  Forall stripped ks ->
  map (fun k => strip (str k))
      (filter (fun k => nonempty (strip (str k))) (map PStr ks)) = ks.
Proof.
  induction 1 as [|k r Hk Hr IH]; simpl; [reflexivity|].
  rewrite (stripped_nonempty k Hk). simpl. rewrite IH.
  destruct Hk as [Hk _]. now rewrite Hk.
Qed.

(** What [_sanitize_config] returns is in sanitized form. *)
Lemma sanitize_config_sanitized (raw : pyval) : sanitized (_sanitize_config raw).
Proof.
  unfold _sanitize_config.
  set (d := match raw with PDict d => d | _ => [] end).
  constructor; simpl.
  - destruct (dget d "keywords") as [[| | |s|l|d']|]; try constructor.
    + apply (stripped_map_filter (fun seg => seg)).
    + apply (stripped_map_filter str).
  - destruct (dget d "global_threshold") as [[| | |s|l|d']|]; simpl;
      try exact I; apply ensure_positive_int_ge; lia.
  - destruct (dget d "per_keyword_thresholds") as [[| | |s|l|d']|];
      try (split; constructor). apply sanitize_int_map_ok. lia.
  - destruct (dget d "global_window") as [[| | |s|l|d']|]; simpl;
      try exact I; apply ensure_positive_int_ge; lia.
  - destruct (dget d "per_keyword_windows") as [[| | |s|l|d']|];
      try (split; constructor). apply sanitize_int_map_ok. lia.
  - destruct (dget d "contains_keywords") as [[| | |s|l|d']|]; try constructor.
    rewrite (contains_loop l []). simpl.
    apply dedup_first_ok, candidates_ok.
  - destruct (dget d "contains_keywords") as [[| | |s|l|d']|]; try constructor.
    rewrite (contains_loop l []). simpl.
    apply (dedup_first_distinct [] (candidates l)). constructor.
Qed.

(** A configuration in sanitized form is a fixed point of the sanitizer. *)
Lemma sanitize_config_fixed (c : Config) :
  sanitized c -> _sanitize_config (config_to_py c) = c.
Proof.
  intros [Hk Hgt Hpt Hgw Hpw Hce Hcd].
  destruct c as [ks gt pt gw pw ce]. simpl in *.
  unfold _sanitize_config, config_to_py. simpl.
  f_equal.
  - now apply stripped_keywords_fixed.
  - destruct gt as [z|]; simpl; [|reflexivity].
    now rewrite ensure_positive_int_fixed.
  - now apply sanitize_int_map_fixed.
  - destruct gw as [z|]; simpl; [|reflexivity].
    now rewrite ensure_positive_int_fixed.
  - now apply sanitize_int_map_fixed.
  - rewrite (contains_loop (map entry_to_py ce) []). simpl.
    rewrite candidates_of_entries by exact Hce.
    now apply dedup_first_fixed.
Qed.

Lemma sanitize_config_idempotent (raw : pyval) :
  _sanitize_config (config_to_py (_sanitize_config raw)) = _sanitize_config raw.
Proof. apply sanitize_config_fixed, sanitize_config_sanitized. Qed.

Lemma sanitize_data_config (raw : pyval) :
  exists raw', config (_sanitize_data raw) = _sanitize_config raw'.
Proof.
  unfold _sanitize_data. destruct (_ || _); simpl; eexists; reflexivity.
Qed.

Lemma load_data_config (f : Files) :
  exists raw, config (_load_data f) = _sanitize_config raw.
Proof.
  unfold _load_data.
  destruct (CONFIG_PATH f) as [[raw|]|]; try (simpl; eexists; reflexivity).
  destruct (sanitize_data_config raw) as [raw' Hraw'].
  exists raw'.
  destruct (counts (_sanitize_data raw)); [|exact Hraw'].
  destruct (_load_legacy_counts f); simpl; exact Hraw'.
Qed.

Lemma load_config_sanitized (f : Files) : sanitized (load_config f).
Proof.
  unfold load_config. destruct (load_data_config f) as [raw ->].
  apply sanitize_config_sanitized.
Qed.

Lemma sanitize_data_of_data (d : Data) :
  _sanitize_data (data_to_py d)
  = {| config := _sanitize_config (config_to_py (config d));
       counts := _sanitize_counts (int_dict_to_py (counts d)) |}.
Proof. reflexivity. Qed.

Lemma load_data_config_of_data (d : Data) (f : Files) :
  CONFIG_PATH f = Some (Some (data_to_py d)) ->
  config (_load_data f) = _sanitize_config (config_to_py (config d)).
Proof.
  intro H. unfold _load_data. rewrite H, sanitize_data_of_data.
  cbn [counts config].
  destruct (_sanitize_counts _); [|reflexivity].
  destruct (_load_legacy_counts f); reflexivity.
Qed.

(** What [load_config] finds once [_write_data] has written [data]. *)
Lemma load_after_write (data : Data) (f f' : Files) :
  _write_data data f = (Ok tt, f') ->
  load_config f' = _sanitize_config (config_to_py (config data)).
Proof.
  unfold _write_data, write_text. destruct (writable f); [|discriminate].
  intro H. inversion H; subst f'; clear H.
  unfold load_config.
  erewrite load_data_config_of_data by reflexivity.
  cbn [config]. apply sanitize_config_idempotent.
Qed.

(** C10.  Once [save_config c] has written the store, [load_config]
    returns exactly [_sanitize_config c]; [_sanitize_config] is idempotent;
    and every configuration read from the store is in sanitized form: the
    keywords are non-empty stripped strings, the thresholds and windows that
    are present are integers not below 1 (a value that is no integer or is
    below 1 having been replaced by the default, 1 for a threshold and 60
    for a window), and [contains_keywords] holds, in order, the first entry
    of each lowercased keyword. *)
Theorem C10_save_then_load_is_sanitize
    (c : pyval) (f f' : Files) (Hsave : save_config c f = (Ok tt, f')) :
  load_config f' = _sanitize_config c /\
  (forall raw,
     _sanitize_config (config_to_py (_sanitize_config raw)) = _sanitize_config raw) /\
  (forall g, sanitized (load_config g)) /\
  (forall v default,
     (forall i, int v = Some i -> i < 1) -> _ensure_positive_int v default = default) /\
  (forall d v,
     v <> PNone -> (forall i, int v = Some i -> i < 1) ->
     (dget d "global_threshold" = Some v ->
      global_threshold (_sanitize_config (PDict d)) = Some 1) /\
     (dget d "global_window" = Some v ->
      global_window (_sanitize_config (PDict d)) = Some 60)) /\
  (forall d items,
     dget d "contains_keywords" = Some (PList items) ->
     contains_keywords (_sanitize_config (PDict d))
     = dedup_first [] (candidates items)).
Proof.
  split; [|split; [|split; [|split; [|split]]]].
  - unfold save_config in Hsave. apply load_after_write in Hsave.
    simpl in Hsave. rewrite Hsave. apply sanitize_config_idempotent.
  - exact sanitize_config_idempotent.
  - exact load_config_sanitized.
  - exact ensure_positive_int_default.
  - intros d v Hv Hbad. split; intro Hget; unfold _sanitize_config; simpl;
      rewrite Hget; destruct v; try congruence;
      now rewrite ensure_positive_int_default.
  - intros d items Hget. unfold _sanitize_config. simpl. rewrite Hget.
    now rewrite (contains_loop items []).
Qed.

End StoreRoundTrip.

(** *** Relations respected by the methods *)

Import Frame.

Section MonadRules.
Context (R : Machine -> Machine -> Prop) {HR : SessionInvariant R}.

Lemma preserves_ret {A} (a : A) : preserves R (ret a).
Proof. intro m. apply inv_refl. Qed.

Lemma preserves_raise {A} (e : exn) : preserves R (@Run.raise A e).
Proof. intro m. apply inv_refl. Qed.

Lemma preserves_lift {A} (r : result A) : preserves R (lift r).
Proof. intro m. apply inv_refl. Qed.

Lemma preserves_get_self : preserves R get_self.
Proof. intro m. apply inv_refl. Qed.

Lemma preserves_bind {A B} (c : M A) (k : A -> M B) :
  preserves R c -> (forall a, preserves R (k a)) -> preserves R (bind c k).
Proof.
  intros Hc Hk m. unfold bind. specialize (Hc m).
  destruct (c m) as [[a|e] m1]; simpl in *; [|exact Hc].
  eapply inv_trans; [exact Hc | apply Hk].
Qed.

Lemma preserves_try_except {A} (body handler : M A) :
  preserves R body -> preserves R handler ->
  preserves R (try_except body handler).
Proof.
  intros Hb Hh m. unfold try_except. specialize (Hb m).
  destruct (body m) as [[a|e] m1]; simpl in *; [exact Hb|].
  eapply inv_trans; [exact Hb | apply Hh].
Qed.

Lemma preserves_try_except_Exception {A} (body handler : M A) :
  preserves R body -> preserves R handler ->
  preserves R (try_except_Exception body handler).
Proof.
  intros Hb Hh m. unfold try_except_Exception. specialize (Hb m).
  destruct (body m) as [[a|e] m1]; simpl in *; [exact Hb|].
  destruct (is_Exception e); simpl; [|exact Hb].
  eapply inv_trans; [exact Hb | apply Hh].
Qed.

Lemma preserves_emit (e : event) :
  session_event e = true -> preserves R (emit e).
Proof. intros He m. now apply inv_event. Qed.

Lemma preserves_modify_self (f : ChzzkChat -> ChzzkChat) :
  (forall m, R m (with_self m (f (self m)))) -> preserves R (modify_self f).
Proof. intros Hf m. apply Hf. Qed.

Lemma preserves_for_each {A} (l : list A) (body : A -> M unit) :
  (forall x, preserves R (body x)) -> preserves R (for_each l body).
Proof.
  intro Hb. induction l as [|x r IH]; simpl.
  - apply preserves_ret.
  - apply preserves_bind; [apply Hb | intros _; exact IH].
Qed.

Lemma preserves_getitem (v : pyval) (k : string) : preserves R (getitem v k).
Proof.
  unfold getitem. destruct v; try apply preserves_raise.
  destruct (dget d k); [apply preserves_ret | apply preserves_raise].
Qed.

Lemma preserves_iter_items (v : pyval) : preserves R (iter_items v).
Proof. destruct v; simpl; first [apply preserves_ret | apply preserves_raise]. Qed.

Lemma preserves_as_number (v : pyval) : preserves R (as_number v).
Proof. destruct v; simpl; first [apply preserves_ret | apply preserves_raise]. Qed.

Lemma preserves_json_loads_embedded (v : pyval) :
  preserves R (json_loads_embedded v).
Proof. destruct v; simpl; first [apply preserves_ret | apply preserves_raise]. Qed.

End MonadRules.

(** One step of a proof that a method respects a relation: the rule of the
    construct at the head, or a case distinction on what it branches on. *)
Ltac use_rule lem := apply lem; try exact _.

Ltac preserve_step :=
  lazymatch goal with
  | |- preserves _ (ret _) => use_rule preserves_ret
  | |- preserves _ (Run.raise _) => use_rule preserves_raise
  | |- preserves _ (lift _) => use_rule preserves_lift
  | |- preserves _ get_self => use_rule preserves_get_self
  | |- preserves _ (getitem _ _) => use_rule preserves_getitem
  | |- preserves _ (iter_items _) => use_rule preserves_iter_items
  | |- preserves _ (as_number _) => use_rule preserves_as_number
  | |- preserves _ (json_loads_embedded _) =>
      use_rule preserves_json_loads_embedded
  | |- preserves _ (emit _) => use_rule preserves_emit; reflexivity
  | |- preserves _ (modify_self _) =>
      use_rule preserves_modify_self; intro;
      first [ apply inv_set_stop | apply inv_set_sock | apply inv_close_log
            | apply inv_set_chatChannelId | apply inv_set_tokens
            | apply inv_set_sid | apply inv_set_broadcast_start_timestamp ]
  | |- preserves _ (try_except _ _) => use_rule preserves_try_except
  | |- preserves _ (try_except_Exception _ _) =>
      use_rule preserves_try_except_Exception
  | |- preserves _ (bind _ _) => use_rule preserves_bind; [|intro]
  | |- preserves _ (match ?x with _ => _ end) => destruct x
  | |- preserves _ (let _ := _ in _) => cbv zeta
  end.

Section SessionMethods.
Context {RT : Runtime} {CMD : Commands}.
Context (R : Machine -> Machine -> Prop) {HR : SessionInvariant R}.

Lemma preserves_close : preserves R close.
Proof. unfold close. repeat preserve_step. Qed.

Lemma preserves_stop : preserves R stop.
Proof.
  unfold stop. use_rule preserves_bind; [preserve_step | intro; apply preserves_close].
Qed.

Lemma preserves_host_stop : preserves R host_stop.
Proof.
  unfold host_stop.
  use_rule preserves_bind; [preserve_step | intro; apply preserves_stop].
Qed.

Lemma preserves_io {A} (a : Answer A) : preserves R (io a).
Proof.
  unfold io. use_rule preserves_bind; [|intro; preserve_step].
  destruct (stop_during a); [apply preserves_host_stop | preserve_step].
Qed.

Lemma preserves_ws_send (frame : pyval) (a : Answer unit) :
  preserves R (ws_send frame a).
Proof.
  unfold ws_send. use_rule preserves_bind; [|intro; apply preserves_io].
  destruct (outcome a); preserve_step.
Qed.

Lemma preserves_sock_recv (a : Answer (option pyval)) : preserves R (sock_recv a).
Proof.
  unfold sock_recv. use_rule preserves_bind; [preserve_step|]. intro o.
  destruct (sock o) as [ws|]; [|preserve_step].
  destruct (connected ws); [apply preserves_io | preserve_step].
Qed.

Lemma preserves_sock_send (frame : pyval) (a : Answer unit) :
  preserves R (sock_send frame a).
Proof.
  unfold sock_send. use_rule preserves_bind; [preserve_step|]. intro o.
  destruct (sock o) as [ws|]; [|preserve_step].
  destruct (connected ws); [apply preserves_ws_send | preserve_step].
Qed.

Lemma preserves_update_broadcast_start_time (a : Answer Q) :
  preserves R (update_broadcast_start_time a).
Proof.
  unfold update_broadcast_start_time.
  use_rule preserves_try_except_Exception.
  - use_rule preserves_bind; [apply preserves_io | intro; repeat preserve_step].
  - repeat preserve_step.
Qed.

Lemma preserves_connect (env : ConnectEnv) : preserves R (connect env).
Proof.
  unfold connect.
  repeat first
    [ apply preserves_io
    | apply preserves_ws_send
    | apply preserves_update_broadcast_start_time
    | preserve_step ].
Qed.

Lemma preserves_receive (env : IterEnv) : preserves R (receive env).
Proof.
  intro m. unfold receive.
  assert (H1 := preserves_sock_recv (recv1 env) m).
  destruct (sock_recv (recv1 env) m) as [[raw|e] m1]; simpl in *; [exact H1|].
  assert (H2 : preserves R
            (o <- get_self ;;
             if _stop o then ret None
             else connect (reconnect env) ;;
                  raw_message <- sock_recv (recv2 env) ;;
                  ret (Some raw_message))).
  { repeat first
      [ apply preserves_connect
      | apply preserves_sock_recv
      | preserve_step ]. }
  destruct e; simpl; try exact H1;
    (eapply inv_trans; [exact H1 | apply H2]).
Qed.

End SessionMethods.

Section LoopMethods.
Context {RT : Runtime} {CMD : Commands}.
Context (R : Machine -> Machine -> Prop) {HL : LoopInvariant R}.

Lemma preserves_resolve_nickname (chat_data : pyval) :
  preserves R (resolve_nickname chat_data).
Proof. unfold resolve_nickname. repeat preserve_step. Qed.

Lemma preserves_record_hit hit ms now nick msg_text :
  preserves R (record_hit hit ms now nick msg_text).
Proof. intro m. apply inv_record_hit. Qed.

Lemma preserves_process_chat_data (ct : chat_type) (chat_data : pyval) :
  preserves R (process_chat_data ct chat_data).
Proof.
  unfold process_chat_data.
  use_rule preserves_bind; [apply preserves_resolve_nickname|].
  intros [nick|]; [|preserve_step].
  repeat first
    [ apply preserves_record_hit
    | lazymatch goal with
      | |- preserves _ (emit (LoggerInfo (ChatLine _ _ _ _))) =>
          intro m; apply inv_chat_line
      end
    | preserve_step ].
Qed.

Lemma preserves_dispatch (env : IterEnv) (raw_message : option pyval) :
  preserves R (dispatch env raw_message).
Proof.
  unfold dispatch, pong_frame.
  repeat first
    [ apply preserves_connect; exact _
    | apply preserves_sock_send; exact _
    | apply preserves_io; exact _
    | apply preserves_for_each;
      [exact _ | intro; apply preserves_process_chat_data]
    | preserve_step ].
Qed.

Lemma preserves_loop_body (env : IterEnv) : preserves R (loop_body env).
Proof.
  unfold loop_body.
  repeat first
    [ apply preserves_receive; exact _
    | apply preserves_dispatch
    | preserve_step ].
Qed.

Lemma preserves_run (script : list IterEnv) : preserves R (run script).
Proof.
  induction script as [|env rest IH]; simpl.
  - repeat preserve_step.
  - use_rule preserves_bind; [preserve_step|]. intro o.
    destruct (_stop o); [preserve_step|].
    use_rule preserves_bind; [apply preserves_loop_body|].
    intros [|]; [exact IH | preserve_step].
Qed.

(** The loop body never raises, and neither does [run]. *)
Lemma loop_body_ok (env : IterEnv) (m : Machine) :
  exists c, fst (loop_body env m) = Ok c.
Proof.
  unfold loop_body, try_except.
  match goal with
  | |- context [match ?body m with _ => _ end] =>
      destruct (body m) as [[c|e] m1]; simpl; [now exists c|]
  end.
  unfold bind, get_self, ret.
  destruct (_stop (self m1)); simpl; eexists; reflexivity.
Qed.

Lemma run_ok (script : list IterEnv) (m : Machine) :
  exists b, fst (run script m) = Ok b.
Proof.
  revert m. induction script as [|env rest IH]; intro m; simpl.
  - unfold bind, get_self, ret. destruct (_stop (self m)); simpl; eexists; reflexivity.
  - unfold bind at 1. unfold get_self.
    destruct (_stop (self m)); [eexists; reflexivity|].
    unfold bind. destruct (loop_body_ok env m) as [c Hc].
    destruct (loop_body env m) as [[c'|e] m1]; simpl in Hc; [|discriminate].
    destruct c'; [apply IH | eexists; reflexivity].
Qed.

End LoopMethods.

(** *** The relations of module [Rel] are respected *)

Import Rel.

Lemma filter_detection_session (tr : list event) (e : event) :
  session_event e = true ->
  filter is_detection (tr ++ [e]) = filter is_detection tr.
Proof.
  intro H. rewrite filter_app. simpl.
  destruct e as [[]| | | | | | | |]; simpl in *; try discriminate;
    now rewrite app_nil_r.
Qed.

#[export] Instance session_frame_invariant : SessionInvariant session_frame.
Proof.
  constructor; unfold session_frame, same_policy.
  - intro m. repeat split; reflexivity.
  - intros a b c Hab Hbc.
    destruct Hab as ((?&?&?&?&?&?&?&?&?)&?&?&?&?&?&?).
    destruct Hbc as ((?&?&?&?&?&?&?&?&?)&?&?&?&?&?&?).
    repeat split; congruence.
  - intros m e He. simpl. repeat split; try reflexivity.
    now apply filter_detection_session.
  - intro m. repeat split; reflexivity.
  - intros m s. repeat split; reflexivity.
  - intro m. repeat split; reflexivity.
  - intros m v. repeat split; reflexivity.
  - intros m a b. repeat split; reflexivity.
  - intros m v. repeat split; reflexivity.
  - intros m v. repeat split; reflexivity.
Qed.

#[export] Instance counts_grow_session : SessionInvariant counts_grow.
Proof.
  constructor; unfold counts_grow, count_of; simpl; intros; try reflexivity.
  eapply Z.le_trans; eauto.
Qed.

#[export] Instance policy_kept_session : SessionInvariant policy_kept.
Proof.
  constructor; unfold policy_kept, same_policy; simpl; intros;
    try (repeat split; reflexivity).
  destruct H as (?&?&?&?&?&?&?&?&?). destruct H0 as (?&?&?&?&?&?&?&?&?).
  repeat split; congruence.
Qed.

#[export] Instance stop_sticky_session : SessionInvariant stop_sticky.
Proof.
  constructor; unfold stop_sticky; simpl; intros; auto.
Qed.

#[export] Instance closed_log_silent_session : SessionInvariant closed_log_silent.
Proof.
  constructor; unfold closed_log_silent; simpl.
  - intros m H. now split.
  - intros a b c Hab Hbc H. destruct (Hab H) as [H1 H2].
    destruct (Hbc H1) as [H3 H4]. split; [exact H3 | congruence].
  - intros m e He H. split; [exact H | now apply filter_detection_session].
  - intros m H. now split.
  - intros m s H. now split.
  - intros m H. split; [discriminate | reflexivity].
  - intros m v H. now split.
  - intros m a b H. now split.
  - intros m v H. now split.
  - intros m v H. now split.
Qed.

Section LoopRelations.
Context {RT : Runtime}.

#[export] Instance counts_grow_loop : LoopInvariant counts_grow.
Proof.
  constructor; [exact _ | |]; unfold counts_grow.
  - intros. simpl. reflexivity.
  - intros m hit ms now nick msg_text k. rewrite record_hit_self.
    unfold count_of. simpl.
    destruct (string_dec k hit) as [->|Hne].
    + rewrite dget_default_dset_same. lia.
    + rewrite dget_default_dset_other by exact Hne. reflexivity.
Qed.

#[export] Instance policy_kept_loop : LoopInvariant policy_kept.
Proof.
  constructor; [exact _ | |]; unfold policy_kept, same_policy.
  - intros. simpl. repeat split; reflexivity.
  - intros. rewrite record_hit_self. simpl. repeat split; reflexivity.
Qed.

#[export] Instance stop_sticky_loop : LoopInvariant stop_sticky.
Proof.
  constructor; [exact _ | |]; unfold stop_sticky.
  - intros. simpl. assumption.
  - intros. rewrite record_hit_self. simpl. assumption.
Qed.

#[export] Instance closed_log_silent_loop : LoopInvariant closed_log_silent.
Proof.
  constructor; [exact _ | |]; unfold closed_log_silent.
  - intros m now ct nick msg_text H. simpl. split; [exact H|].
    rewrite filter_app. simpl. now rewrite app_nil_r.
  - intros m hit ms now nick msg_text H. rewrite record_hit_self.
    split; [exact H|].
    rewrite record_hit_trace. rewrite filter_app.
    match goal with |- _ ++ ?l = _ => assert (Hl : l = []) end.
    { destruct (_ <=? _); [|reflexivity].
      destruct (ConfigStore.save_counts _ _) as [[u|e] f']; [|reflexivity].
      destruct (keyword_log (self m)) as [[|]|]; try reflexivity.
      now contradiction H. }
    rewrite Hl. now rewrite app_nil_r.
Qed.

End LoopRelations.

(** *** The sanitizer of the counts *)

Lemma is_space_lower_char (c : ascii) : is_space (lower_char c) = is_space c.
Proof. destruct c as [[] [] [] [] [] [] [] []]; reflexivity. Qed.

Lemma lower_char_idem (c : ascii) : lower_char (lower_char c) = lower_char c.
Proof. destruct c as [[] [] [] [] [] [] [] []]; reflexivity. Qed.


Lemma lower_idem (s : string) : lower (lower s) = lower s.
Proof.
  induction s as [|c r IH]; simpl; [reflexivity|].
  now rewrite lower_char_idem, IH.
Qed.


Lemma lower_empty (s : string) : lower s = "" <-> s = "".
Proof. destruct s; simpl; split; congruence. Qed.

Lemma lstrip_lower (s : string) : lstrip (lower s) = lower (lstrip s).
Proof.
  induction s as [|c r IH]; simpl; [reflexivity|].
  rewrite is_space_lower_char. now destruct (is_space c).
Qed.

Lemma rstrip_lower (s : string) : rstrip (lower s) = lower (rstrip s).
Proof.
  induction s as [|c r IH]; simpl; [reflexivity|].
  rewrite IH, is_space_lower_char.
  destruct (rstrip r); simpl; [now destruct (is_space c) | reflexivity].
Qed.

Lemma strip_lower (s : string) : strip (lower s) = lower (strip s).
Proof. unfold strip. now rewrite lstrip_lower, rstrip_lower. Qed.

Import CountsSpec.

Lemma normal_key_of (k : string) :
  nonempty (strip k) = true -> normal_key (lower (strip k)).
Proof.
  intro H. split.
  - now rewrite strip_lower, strip_idem, lower_idem.
  - intro E. apply (proj1 (lower_empty _)) in E.
    apply (proj1 (nonempty_true _)) in H. exact (H E).
Qed.

Lemma normal_key_nonempty (k : string) :
  normal_key k -> nonempty (strip k) = true.
Proof.
  intros [H1 H2]. apply nonempty_true. intro E. rewrite E in H1. simpl in H1.
  congruence.
Qed.

Section CountsSanitizer.
Context {RT : Runtime}.
Import ConfigStore.

Lemma counts_ok_dset (d : dict Z) (k : string) (v : Z) :
  counts_ok d -> normal_key k -> 0 <= v -> counts_ok (dset d k v).
Proof.
  intros [Hnd Hall] Hk Hv. split.
  - now apply NoDup_dkeys_dset.
  - apply Forall_dset; [exact Hall | now split].
Qed.

Lemma sanitize_counts_ok (raw : pyval) : counts_ok (_sanitize_counts raw).
Proof.
  assert (H0 : counts_ok []) by (split; constructor).
  unfold _sanitize_counts. destruct raw as [| | | | |d]; try exact H0.
  revert H0. generalize (@nil (string * Z)) as acc.
  induction d as [|[k v] r IH]; intros acc Hacc; simpl; [exact Hacc|].
  apply IH. destruct (nonempty (strip k)) eqn:E; simpl; [|exact Hacc].
  destruct (int v) as [i|]; [|exact Hacc].
  apply counts_ok_dset; [exact Hacc | now apply normal_key_of |].
  destruct (i <? 0) eqn:Ei; [lia | now apply Z.ltb_ge].
Qed.

Lemma sanitize_counts_rebuild (d acc : dict Z) :
  NoDup (dkeys (acc ++ d)) ->
  Forall (fun kv => normal_key (fst kv) /\ 0 <= snd kv) d ->
  fold_left
    (fun (counts : dict Z) (kv : string * pyval) =>
       let key := strip (fst kv) in
       if negb (nonempty key) then counts
       else match int (snd kv) with
            | None => counts
            | Some ival =>
                let ival := if ival <? 0 then 0 else ival in
                dset counts (lower key) ival
            end)
    (map (fun kv => (fst kv, PInt (snd kv))) d) acc
  = acc ++ d.
Proof.
  revert acc. induction d as [|[k v] r IH]; intros acc Hnd Hall; simpl.
  - now rewrite app_nil_r.
  - inversion Hall as [|? ? [Hk Hv] Hall']; subst. simpl in Hk, Hv.
    rewrite (normal_key_nonempty k Hk). simpl.
    destruct Hk as [Hk _]. rewrite Hk.
    assert (Hv' : (v <? 0) = false) by now apply Z.ltb_ge.
    rewrite Hv'.
    assert (Hfresh : ~ In k (dkeys acc)).
    { unfold dkeys in *. rewrite map_app in Hnd. simpl in Hnd.
      apply NoDup_remove_2 in Hnd. intro Hin. apply Hnd.
      apply in_or_app. now left. }
    rewrite dset_fresh by exact Hfresh.
    rewrite IH.
    + now rewrite <- app_assoc.
    + now rewrite <- app_assoc.
    + exact Hall'.
Qed.

Lemma sanitize_counts_fixed (d : dict Z) :
  counts_ok d -> _sanitize_counts (int_dict_to_py d) = d.
Proof.
  intros [Hnd Hall]. unfold _sanitize_counts, int_dict_to_py.
  now rewrite sanitize_counts_rebuild.
Qed.

Lemma sanitize_counts_idempotent (raw : pyval) :
  _sanitize_counts (int_dict_to_py (_sanitize_counts raw)) = _sanitize_counts raw.
Proof. apply sanitize_counts_fixed, sanitize_counts_ok. Qed.

(** The sanitized map holds the count of a normal key that no other key
    shadows. *)
Lemma sanitize_counts_lookup (d : dict Z) (kw : string) (v : Z) :
  NoDup (dkeys d) -> normal_key kw -> unshadowed d kw ->
  dget d kw = Some v -> 0 <= v ->
  dget (_sanitize_counts (int_dict_to_py d)) kw = Some v.
Proof.
  intros Hnd Hkw Hun Hget Hv.
  unfold _sanitize_counts, int_dict_to_py.
  revert Hnd Hun Hget. induction d as [|[k v0] r IH] using rev_ind;
    intros Hnd Hun Hget; [discriminate|].
  rewrite map_app, fold_left_app. simpl.
  unfold dkeys in Hnd. rewrite map_app in Hnd. simpl in Hnd.
  assert (Hnd_r : NoDup (dkeys r)).
  { apply NoDup_remove_1 in Hnd. now rewrite app_nil_r in Hnd. }
  assert (Hk_r : ~ In k (dkeys r)).
  { apply NoDup_remove_2 in Hnd. now rewrite app_nil_r in Hnd. }
  assert (Hun_r : unshadowed r kw).
  { intros k' Hin. apply Hun. unfold dkeys. rewrite map_app.
    apply in_or_app. now left. }
  destruct (string_dec k kw) as [->|Hne].
  - assert (Hv0 : v0 = v).
    { clear - Hget Hk_r.
      apply dget_None_not_In in Hk_r.
      induction r as [|[k1 v1] r IH]; simpl in *.
      - rewrite String.eqb_refl in Hget. congruence.
      - destruct (String.eqb k1 kw); [discriminate | now apply IH]. }
    subst v0. rewrite (normal_key_nonempty kw Hkw). simpl.
    destruct Hkw as [Hkw _]. rewrite Hkw.
    assert (Hv' : (v <? 0) = false) by now apply Z.ltb_ge.
    rewrite Hv'. apply dget_dset_same.
  - assert (Hget_r : dget r kw = Some v).
    { clear - Hget Hne.
      induction r as [|[k1 v1] r IH]; simpl in *.
      - apply String.eqb_neq in Hne. rewrite Hne in Hget. discriminate.
      - destruct (String.eqb k1 kw); [exact Hget | now apply IH]. }
    assert (Hnorm : lower (strip k) <> kw).
    { intro E. apply Hne. apply Hun; [|exact E].
      unfold dkeys. rewrite map_app. apply in_or_app. right. now left. }
    destruct (nonempty (strip k)); cbn [negb]; [|now apply IH].
    cbn [int]. rewrite dget_dset_other by congruence. now apply IH.
Qed.

(** What [save_counts] writes: the stored configuration as it is, and the
    sanitized counts in place of whatever counts were stored. *)
Lemma save_counts_file (c : dict Z) (f : Files) :
  writable f = true ->
  save_counts c f
  = (Ok tt,
     set_CONFIG_PATH f
       (Some (Some (data_to_py
          {| config := load_config f;
             counts := _sanitize_counts (int_dict_to_py c) |})))).
Proof.
  intro Hw. unfold save_counts, _write_data, write_text. rewrite Hw.
  cbv zeta. cbn [config counts].
  rewrite sanitize_counts_idempotent.
  unfold load_config. destruct (load_data_config f) as [raw ->].
  now rewrite sanitize_config_idempotent.
Qed.

(** What [load_counts] finds after such a write. *)
Lemma load_counts_after_save (c : dict Z) (f f' : Files) :
  save_counts c f = (Ok tt, f') ->
  _sanitize_counts (int_dict_to_py c) <> [] ->
  load_counts f' = _sanitize_counts (int_dict_to_py c).
Proof.
  intros Hs Hne.
  assert (Hw : writable f = true).
  { unfold save_counts, _write_data, write_text in Hs. destruct (writable f);
      [reflexivity | discriminate]. }
  assert (Hf' : f' = set_CONFIG_PATH f
            (Some (Some (data_to_py
               {| config := load_config f;
                  counts := _sanitize_counts (int_dict_to_py c) |})))).
  { rewrite (save_counts_file c f Hw) in Hs. congruence. }
  subst f'. clear Hs.
  unfold load_counts, _load_data. cbn [CONFIG_PATH set_CONFIG_PATH].
  rewrite sanitize_data_of_data. cbn [config counts].
  rewrite sanitize_counts_idempotent.
  destruct (_sanitize_counts (int_dict_to_py c)); [congruence | reflexivity].
Qed.

End CountsSanitizer.

(** *** Firing, persistence and failure of the detection engine *)

Section Firing.
Context {RT : Runtime}.

(** The files after [record_hit]. *)
Lemma record_hit_files (m : Machine) hit ms now nick msg_text :
  let o := self m in
  let counts' := dset (keyword_counts o) hit (count_of o hit + 1) in
  let dq := slide (window_of o hit) (ts_of_ms ms) (window_sec_of o hit) in
  files (snd (record_hit hit ms now nick msg_text m))
  = if threshold_of o hit <=? Z.of_nat (List.length dq) then
      snd (ConfigStore.save_counts counts' (files m))
    else files m.
Proof.
  intros o counts' dq.
  unfold record_hit. unfold_monad. simpl.
  unfold threshold_of, window_sec_of, window_of, count_of in *.
  fold o. fold counts'. fold dq.
  destruct (_ <=? _); simpl; [|reflexivity].
  unfold save_counts. simpl. fold o. fold counts'.
  destruct (ConfigStore.save_counts _ _) as [[u|e] f'] eqn:E; simpl.
  - destruct (keyword_log o) as [[|]|]; reflexivity.
  - apply save_counts_raises in E. destruct E as [-> _]. reflexivity.
Qed.

Lemma record_hit_window (m : Machine) hit ms now nick msg_text :
  window_of (self (snd (record_hit hit ms now nick msg_text m))) hit
  = slide (window_of (self m) hit) (ts_of_ms ms) (window_sec_of (self m) hit).
Proof.
  rewrite record_hit_self. unfold window_of. simpl.
  apply dget_default_dset_same.
Qed.

Lemma record_hit_counts (m : Machine) hit ms now nick msg_text :
  keyword_counts (self (snd (record_hit hit ms now nick msg_text m)))
  = dset (keyword_counts (self m)) hit (count_of (self m) hit + 1).
Proof. rewrite record_hit_self. reflexivity. Qed.


(** C6, as the code has it.  When the write of the store that a hit
    reaching its threshold asks for fails, the exception is swallowed: the
    try block ends normally and nothing at all is logged or emitted for it;
    the increment of the cumulative count and the update of the window stay
    in memory; the settings file is what it was when it could not be opened,
    and is left with an incomplete text, which is not JSON, when the write
    failed after the file was opened; and neither the loop over the entries
    of the frame nor the receive loop is left by an exception. *)
Theorem C6_failure_is_swallowed_silently
    {CMD : Commands}
    (m : Machine) (hit : string) (ms : Z) (now : string) (nick : nickname)
    (msg_text : string)
    (Hstore : ConfigStore.writable (files m) = false)
    (Hfire : threshold_of (self m) hit
             <= Z.of_nat (List.length
                  (slide (window_of (self m) hit) (ts_of_ms ms)
                         (window_sec_of (self m) hit)))) :
  let o := self m in
  let r := record_hit hit ms now nick msg_text m in
  let m' := snd r in
  fst (ConfigStore.save_counts (keyword_counts (self m')) (files m))
    = Raise OSError /\
  fst r = Ok tt /\
  new_events m m' = [] /\
  count_of (self m') hit = count_of o hit + 1 /\
  window_of (self m') hit
    = slide (window_of o hit) (ts_of_ms ms) (window_sec_of o hit) /\
  files m'
    = (if ConfigStore.fails_after_open (files m)
       then ConfigStore.set_CONFIG_PATH (files m) (Some None)
       else files m) /\
  (forall env m0, exists c, fst (loop_body env m0) = Ok c).
Proof.
  intros o r m'.
  assert (Hraise : forall c,
            ConfigStore.save_counts c (files m)
            = (Raise OSError, ConfigStore.after_failed_write (files m))).
  { intro c. now apply save_counts_refused. }
  apply Z.leb_le in Hfire.
  split; [now rewrite Hraise|].
  split; [apply record_hit_ok|].
  split; [|split; [|split; [|split]]].
  - apply new_events_app. unfold m', r. rewrite record_hit_trace. cbv zeta.
    rewrite Hfire, Hraise. now rewrite app_nil_r.
  - unfold m', r. rewrite record_hit_self. unfold count_of. simpl.
    apply dget_default_dset_same.
  - apply record_hit_window.
  - unfold m', r. rewrite record_hit_files. cbv zeta.
    now rewrite Hfire, Hraise.
  - intros env m0. apply loop_body_ok.
Qed.

End Firing.

(** *** The cumulative count *)

Import Scenario.

Lemma fold_dset_lookup {V} (g : string -> V) (l : list string) (acc : dict V)
    (k : string) :
  In k l \/ dget acc k = Some (g k) ->
  dget (fold_left (fun d x => dset d x (g x)) l acc) k = Some (g k).
Proof.
  revert acc. induction l as [|x r IH]; intros acc H; simpl.
  - destruct H as [[]|H]; exact H.
  - apply IH. destruct (string_dec x k) as [->|Hne].
    + right. apply dget_dset_same.
    + destruct H as [[H|H]|H]; [contradiction | now left |].
      right. rewrite dget_dset_other by congruence. exact H.
Qed.

Section CumulativeCount.
Context {RT : Runtime} {CMD : Commands}.

(** [__init__] seeds the count of every keyword from the stored counts. *)
Lemma init_fields_seeds (config : ConfigStore.Config) (env : Environ)
    (stored_counts : dict Z) (k : string) :
  In k (keywords (init_fields config env stored_counts)) ->
  count_of (init_fields config env stored_counts) k
  = dget_default stored_counts k 0.
Proof.
  unfold init_fields.
  destruct (fold_left register_keyword _ _) as [display kws].
  cbv zeta. cbn [keywords keyword_counts count_of]. intro Hin.
  unfold count_of. cbn [keyword_counts]. unfold dget_default at 1.
  rewrite (fold_dset_lookup (fun k => dget_default stored_counts k 0)).
  - reflexivity.
  - left. eapply Permutation_in; [|exact Hin].
    apply Permutation_sym, set_iter_perm.
Qed.

(** C4, as the code has it.  Recording a hit adds one to the keyword's
    cumulative count and leaves the other counts alone, whether or not the
    threshold fires and whether or not the store can be written; over any
    run of the receive loop no count goes down; [__init__] seeds each
    keyword's count from the stored counts; and a process started on a store
    holding 5 for ["gg"], after one hit that reaches the threshold, leaves 6
    in the store, which the next start reads back.  But a hit that reaches
    the threshold stores the new count under the stripped lower-case form of
    the keyword, so that [load_counts] returns it for the keyword only when
    the keyword is in that form and no other key of the count map takes it.
    [__init__] does not see to that: it takes the keys of the environment
    maps in lower case without stripping them and makes them keywords.  With
    [KEYWORD_THRESHOLDS] holding the key [" gg "], the keywords ["gg"] and
    [" gg "] are stored under the one key ["gg"], the later of the two in
    the count map winning: the process that holds 6 for ["gg"] in memory
    leaves 0 in the store when its set of keywords iterates ["gg"] first,
    and the next start begins at 0; it leaves 6 when the set iterates the
    other way round. *)
Theorem C4_count_lost_under_unstripped_key
    (m : Machine) (hit : string) (ms : Z) (now : string) (nick : nickname)
    (msg_text : string) :
  let o := self m in
  let m' := snd (record_hit hit ms now nick msg_text m) in
  (count_of (self m') hit = count_of o hit + 1 /\
   forall k, k <> hit -> count_of (self m') k = count_of o k) /\
  (forall script m0 k,
     count_of (self m0) k <= count_of (self (snd (run script m0))) k) /\
  (ConfigStore.writable (files m) = true ->
   threshold_of o hit <= Z.of_nat (List.length (window_of (self m') hit)) ->
   CountsSpec.normal_key hit ->
   NoDup (dkeys (keyword_counts o)) ->
   CountsSpec.unshadowed (keyword_counts o) hit ->
   0 <= count_of o hit ->
   dget (ConfigStore.load_counts (files m')) hit = Some (count_of o hit + 1)) /\
  (forall config env stored_counts k,
     In k (keywords (init_fields config env stored_counts)) ->
     count_of (init_fields config env stored_counts) k
     = dget_default stored_counts k 0) /\
  (let session :=
     @session insertion_order_runtime chzzk_commands in
   let first_run :=
     session (settings (config_of ["GG"] None None [] []) [("gg", 5)])
             no_environ
             [turn_receiving (chat_frame "gg wp" 1000)] in
   let second_run := session (files first_run) no_environ [] in
   count_of (self first_run) "gg" = 6 /\
   @ConfigStore.load_counts insertion_order_runtime (files first_run)
     = [("gg", 6)] /\
   count_of (self second_run) "gg" = 6) /\
  (let store := settings (config_of ["gg"] None None [] []) [("gg", 5)] in
   let turns := [turn_receiving (chat_frame "gg wp" 1000)] in
   let one :=
     @session insertion_order_runtime chzzk_commands store
       padded_threshold_key turns in
   let restarted :=
     @session insertion_order_runtime chzzk_commands (files one)
       padded_threshold_key [] in
   let other :=
     @session reverse_order_runtime chzzk_commands store
       padded_threshold_key turns in
   keywords (self one) = ["gg"; " gg "] /\
   keyword_counts (self one) = [("gg", 6); (" gg ", 0)] /\
   @ConfigStore.load_counts insertion_order_runtime (files one) = [("gg", 0)] /\
   count_of (self restarted) "gg" = 0 /\
   keyword_counts (self other) = [(" gg ", 0); ("gg", 6)] /\
   @ConfigStore.load_counts reverse_order_runtime (files other) = [("gg", 6)]).
Proof.
  intros o m'.
  assert (Hc : keyword_counts (self m')
               = dset (keyword_counts o) hit (count_of o hit + 1))
    by apply record_hit_counts.
  split; [|split; [|split; [|split; [|split]]]].
  - unfold count_of at 1 3. rewrite Hc. split.
    + apply dget_default_dset_same.
    + intros k Hk. now apply dget_default_dset_other.
  - intros script m0 k. apply (preserves_run counts_grow script m0).
  - intros Hw Hfire Hkey Hnd Hun Hpos.
    assert (Hwin := record_hit_window m hit ms now nick msg_text).
    fold m' in Hwin. fold o in Hwin.
    assert (Hfiles := record_hit_files m hit ms now nick msg_text).
    cbv zeta in Hfiles. fold m' in Hfiles. fold o in Hfiles.
    rewrite <- Hwin, <- Hc in Hfiles.
    apply Z.leb_le in Hfire. rewrite Hfire in Hfiles.
    destruct (save_counts_writable (keyword_counts (self m')) (files m) Hw)
      as [f' Hf'].
    rewrite Hf' in Hfiles. cbn [snd] in Hfiles.
    assert (Hlook :
      dget (ConfigStore._sanitize_counts
              (ConfigStore.int_dict_to_py (keyword_counts (self m')))) hit
      = Some (count_of o hit + 1)).
    { rewrite Hc. apply sanitize_counts_lookup.
      - now apply NoDup_dkeys_dset.
      - exact Hkey.
      - intros k Hin Hk. rewrite dkeys_dset in Hin.
        destruct (dmem (keyword_counts o) hit).
        + now apply Hun.
        + apply in_app_or in Hin. destruct Hin as [Hin|[<-|[]]];
            [now apply Hun | reflexivity].
      - apply dget_dset_same.
      - lia. }
    rewrite Hfiles.
    rewrite (load_counts_after_save _ _ _ Hf'); [exact Hlook|].
    intro E. rewrite E in Hlook. discriminate.
  - exact init_fields_seeds.
  - cbv zeta. split; [|split]; vm_compute; reflexivity.
  - cbv zeta. repeat split; vm_compute; reflexivity.
Qed.

End CumulativeCount.

(** *** The two matching modes *)

Import MatchSpec.

Lemma string_app_assoc (a b c : string) :
  ((a ++ b) ++ c = a ++ (b ++ c))%string.
Proof. induction a as [|x a IH]; simpl; [reflexivity | now rewrite IH]. Qed.

Lemma string_app_nil_r (a : string) : (a ++ "")%string = a.
Proof. induction a as [|x a IH]; simpl; [reflexivity | now rewrite IH]. Qed.










(** *** Resolution order, and where the values of the policy come from *)

Section Resolution.
Context {RT : Runtime}.

(** The Exact loop returns the first pattern, in the order of
    [keyword_patterns], that matches. *)
Lemma first_pattern_hit_spec (pats : dict Pattern) (text : string) :
  match first_pattern_hit pats text with
  | Some kw =>
      exists before pat after,
        pats = before ++ (kw, pat) :: after /\
        search pat text = true /\
        Forall (fun kp => search (snd kp) text = false) before
  | None => Forall (fun kp => search (snd kp) text = false) pats
  end.
Proof.
  induction pats as [|[kw pat] r IH]; simpl; [constructor|].
  destruct (search pat text) eqn:E.
  - exists [], pat, r. repeat split; [exact E | constructor].
  - destruct (first_pattern_hit r text) as [kw'|].
    + destruct IH as (before & pat' & after & -> & Hm & Hb).
      exists ((kw, pat) :: before), pat', after. repeat split; auto.
    + constructor; assumption.
Qed.

(** The Contains loop returns the first keyword, in the order of
    [contains_keywords_list], that the lowercased text contains. *)
Lemma first_contains_hit_spec (kws : list string) (text_lower : string) :
  match first_contains_hit kws text_lower with
  | Some kw =>
      exists before after,
        kws = before ++ kw :: after /\
        str_in kw text_lower = true /\
        Forall (fun k => str_in k text_lower = false) before
  | None => Forall (fun k => str_in k text_lower = false) kws
  end.
Proof.
  induction kws as [|kw r IH]; simpl; [constructor|].
  destruct (str_in kw text_lower) eqn:E.
  - exists [], r. repeat split; [exact E | constructor].
  - destruct (first_contains_hit r text_lower) as [kw'|].
    + destruct IH as (before & after & -> & Hm & Hb).
      exists (kw :: before), after. repeat split; auto.
    + constructor; assumption.
Qed.

Lemma NoDup_set_add (s : pyset) (x : string) : NoDup s -> NoDup (set_add s x).
Proof.
  intro H. unfold set_add. destruct (set_mem x s) eqn:E; [exact H|].
  apply set_mem_false_not_In in E.
  apply NoDup_app; [exact H | repeat constructor; auto |].
  intros y Hy [<-|[]]. contradiction.
Qed.

Lemma NoDup_fold_set_add (l : list string) (s : pyset) :
  NoDup s -> NoDup (fold_left set_add l s).
Proof.
  revert s. induction l as [|x r IH]; intros s H; simpl; [exact H|].
  apply IH. now apply NoDup_set_add.
Qed.

Lemma register_keyword_NoDup (st : dict string * pyset) (raw_kw : string) :
  NoDup (snd st) -> NoDup (snd (register_keyword st raw_kw)).
Proof.
  destruct st as [display kws]. unfold register_keyword. simpl. intro H.
  destruct (nonempty (strip raw_kw)); simpl; [|exact H].
  destruct (nonempty (lower (strip raw_kw))); simpl; [|exact H].
  now apply NoDup_set_add.
Qed.

Lemma register_contains_NoDup (thr win : Z) (st : ContainsState)
    (entry : ConfigStore.ContainsEntry) :
  NoDup (cs_keywords st) ->
  NoDup (cs_keywords (register_contains thr win st entry)).
Proof.
  intro H. unfold register_contains.
  destruct (nonempty (strip _)); simpl; [|exact H].
  destruct (nonempty (lower _)); simpl; [|exact H].
  now apply NoDup_set_add.
Qed.

(** The set of keywords [__init__] builds has no repeated member. *)
Lemma init_fields_keywords_NoDup (config : ConfigStore.Config) (env : Environ)
    (stored_counts : dict Z) :
  NoDup (keywords (init_fields config env stored_counts)).
Proof.
  unfold init_fields.
  assert (H0 : NoDup (snd (fold_left register_keyword
                 (ConfigStore.keywords config ++
                  map strip
                    (filter (fun k => nonempty (strip k))
                       (split ","
                          (strip match KEYWORDS env with
                                 | Some s => s
                                 | None => ""
                                 end))))
                 ([], [])))).
  { generalize (ConfigStore.keywords config ++
                  map strip
                    (filter (fun k => nonempty (strip k))
                       (split ","
                          (strip match KEYWORDS env with
                                 | Some s => s
                                 | None => ""
                                 end)))).
    intro l.
    assert (Hnil : NoDup (snd (@nil (string * string), @nil string)))
      by constructor.
    revert Hnil. generalize (@nil (string * string), @nil string).
    induction l as [|x r IH]; intros st Hst; simpl; [exact Hst|].
    apply IH. now apply register_keyword_NoDup. }
  destruct (fold_left register_keyword _ _) as [display kws]. simpl in H0.
  cbv zeta. cbn [keywords].
  apply NoDup_fold_set_add, NoDup_fold_set_add.
  match goal with
  | |- NoDup (cs_keywords (fold_left ?f ?l ?st)) =>
      assert (Hst : NoDup (cs_keywords st)) by exact H0;
      revert Hst; generalize st; generalize l
  end.
  intro l. induction l as [|e r IH]; intros st Hst; simpl; [exact Hst|].
  apply IH. now apply register_contains_NoDup.
Qed.

(** Filling a dictionary from a list without repetition lists the keys in
    the order of the list. *)
Lemma fold_dset_filter_keys {V} (skip : string -> bool) (g : string -> V)
    (l : list string) (acc : dict V) :
  NoDup (dkeys acc ++ l) ->
  dkeys (fold_left (fun d x => if skip x then d else dset d x (g x)) l acc)
  = dkeys acc ++ filter (fun x => negb (skip x)) l.
Proof.
  revert acc. induction l as [|x r IH]; intros acc H; simpl.
  - now rewrite app_nil_r.
  - assert (Hx : ~ In x (dkeys acc)).
    { apply NoDup_remove_2 in H. intro Hin. apply H. apply in_or_app. now left. }
    destruct (skip x); simpl.
    + apply IH. apply NoDup_remove_1 in H. exact H.
    + rewrite IH.
      * rewrite dset_fresh by exact Hx. unfold dkeys. rewrite map_app. simpl.
        now rewrite <- app_assoc.
      * rewrite dset_fresh by exact Hx. unfold dkeys. rewrite map_app. simpl.
        now rewrite <- app_assoc.
Qed.

(** The Exact rules are stored in the order in which the runtime iterates
    over the set of keywords. *)
Lemma init_fields_patterns_order (config : ConfigStore.Config) (env : Environ)
    (stored_counts : dict Z) :
  let o := init_fields config env stored_counts in
  dkeys (keyword_patterns o)
  = filter (fun kw => negb (set_mem kw (contains_keywords_set o)))
           (set_iter (keywords o)).
Proof.
  intro o.
  assert (Hnd : NoDup (set_iter (keywords o))).
  { eapply Permutation_NoDup; [apply Permutation_sym, set_iter_perm|].
    apply init_fields_keywords_NoDup. }
  revert Hnd. unfold o, init_fields.
  destruct (fold_left register_keyword _ _) as [display kws].
  cbv zeta. cbn [keywords keyword_patterns contains_keywords_set].
  intro Hnd.
  apply (fold_dset_filter_keys _ compile_keyword _ []). exact Hnd.
Qed.

Lemma nonempty_lower (s : string) : nonempty (lower s) = nonempty s.
Proof. now destruct s. Qed.

(** What one stored Contains entry does to [contains_keywords_list] and
    [contains_keywords_set]. *)
Lemma register_contains_cases (thr win : Z) (st : ContainsState)
    (e : ConfigStore.ContainsEntry) :
  let k := lower (strip (ConfigStore.keyword e)) in
  let st1 := register_contains thr win st e in
  (nonempty k = false /\ cs_list st1 = cs_list st /\ cs_set st1 = cs_set st) \/
  (nonempty k = true /\ set_mem k (cs_set st) = true /\
   cs_list st1 = cs_list st /\ cs_set st1 = cs_set st) \/
  (nonempty k = true /\ set_mem k (cs_set st) = false /\
   cs_list st1 = cs_list st ++ [k] /\ cs_set st1 = cs_set st ++ [k]).
Proof.
  cbv zeta. unfold register_contains. rewrite !nonempty_lower.
  destruct (nonempty (strip (ConfigStore.keyword e))) eqn:En; simpl.
  - destruct (set_mem _ (cs_set st)) eqn:Em; simpl.
    + right. left. auto.
    + right. right. unfold set_add. rewrite Em. auto.
  - left. auto.
Qed.

(** The loop over the stored Contains entries keeps [contains_keywords_list]
    and [contains_keywords_set] equal, and appends each new key. *)
Lemma register_contains_list (thr win : Z)
    (entries : list ConfigStore.ContainsEntry) (st : ContainsState) :
  cs_set st = cs_list st ->
  cs_list (fold_left (register_contains thr win) entries st)
  = cs_list st ++
    first_occurrences (cs_list st)
      (filter nonempty
         (map (fun e => lower (strip (ConfigStore.keyword e))) entries)).
Proof.
  revert st. induction entries as [|e r IH]; intros st Hst; simpl.
  - now rewrite app_nil_r.
  - destruct (register_contains_cases thr win st e)
      as [(Hk & Hl & Hs)|[(Hk & Hm & Hl & Hs)|(Hk & Hm & Hl & Hs)]];
      rewrite Hk; simpl.
    + rewrite IH by congruence. now rewrite Hl.
    + rewrite Hst in Hm. rewrite Hm. rewrite IH by congruence. now rewrite Hl.
    + rewrite Hst in Hm, Hs. rewrite Hm. rewrite IH by congruence.
      rewrite Hl. now rewrite <- app_assoc.
Qed.

(** The Contains rules are stored in the order of the stored entries. *)
Lemma init_fields_contains_order (config : ConfigStore.Config) (env : Environ)
    (stored_counts : dict Z) :
  contains_keywords_list (init_fields config env stored_counts)
  = first_occurrences [] (registered_contains config).
Proof.
  unfold init_fields.
  destruct (fold_left register_keyword _ _) as [display kws].
  cbv zeta. cbn [contains_keywords_list].
  now rewrite register_contains_list.
Qed.

End Resolution.

(** C2, as the code has it.  At most one keyword is attributed to a
    message; an Exact rule that matches wins over every Contains rule; the
    Exact rules are tried in the order of [keyword_patterns] and the
    Contains rules in the order of [contains_keywords_list], the first
    match being returned.  But [keyword_patterns] is filled by iterating
    over the set [self.keywords], so the order of the Exact rules is the
    iteration order of that set and not the order of registration: with the
    keywords ["win"] and ["now"] registered in this order, the message
    ["we win now"] is attributed to ["win"] by a runtime that iterates the
    set in insertion order and to ["now"] by one that iterates it the other
    way round. *)
Theorem C2_exact_rules_follow_set_iteration :
  (forall (o : ChzzkChat) (text kw : string),
     first_pattern_hit (keyword_patterns o) text = Some kw ->
     nonempty kw = true ->
     resolve_hit o text = Some kw) /\
  (forall (o : ChzzkChat) (text : string),
     first_pattern_hit (keyword_patterns o) text = None ->
     resolve_hit o text
     = first_contains_hit (contains_keywords_list o) (lower text)) /\
  (let files := settings (config_of ["win"; "now"] None None [] []) [] in
   let one := self (@started insertion_order_runtime chzzk_commands files no_environ) in
   let other := self (@started reverse_order_runtime chzzk_commands files no_environ) in
   keywords one = ["win"; "now"] /\
   keywords other = ["win"; "now"] /\
   dkeys (keyword_patterns one) = ["win"; "now"] /\
   dkeys (keyword_patterns other) = ["now"; "win"] /\
   resolve_hit one "we win now" = Some "win" /\
   resolve_hit other "we win now" = Some "now").
Proof.
  split; [|split].
  - intros o text kw H Hne. unfold resolve_hit. rewrite H. simpl.
    now rewrite Hne.
  - intros o text H. unfold resolve_hit. rewrite H. simpl.
    now destruct (first_contains_hit _ _).
  - cbv zeta. repeat split; vm_compute; reflexivity.
Qed.

(** C9, as the code has it.  A runtime override that is made of digits
    replaces the stored value: the global threshold and window become
    [max(1, int(env))] whatever the store holds, and an entry of an
    environment map replaces the stored entry of the same keyword.  With 5
    stored and 2 in the environment the policy holds 2, for the global
    threshold, the global window and a per-keyword threshold alike. *)
Theorem C9_environment_overrides_store :
  (forall (RT : Runtime) config env stored_counts s i,
     KEYWORD_THRESHOLD env = Some s -> isdigit s = true ->
     int_of_str s = Some i ->
     keyword_threshold (init_fields config env stored_counts) = Z.max 1 i) /\
  (forall (RT : Runtime) config env stored_counts s i,
     KEYWORD_WINDOW env = Some s -> isdigit s = true ->
     int_of_str s = Some i ->
     keyword_window (init_fields config env stored_counts) = Z.max 1 i) /\
  (let stored :=
     settings (config_of ["gg"] (Some 5) (Some 5) [("gg", 5)] [("gg", 5)]) [] in
   let env :=
     {| KEYWORDS := None;
        KEYWORD_THRESHOLD := Some "2";
        KEYWORD_THRESHOLDS := Some (PDict [("gg", PInt 2)]);
        KEYWORD_WINDOW := Some "2";
        KEYWORD_WINDOWS := Some (PDict [("gg", PInt 2)]) |} in
   let o := self (@started insertion_order_runtime chzzk_commands stored env) in
   ConfigStore.global_threshold
     (@ConfigStore.load_config insertion_order_runtime stored) = Some 5 /\
   keyword_threshold o = 2 /\
   keyword_window o = 2 /\
   threshold_of o "gg" = 2 /\
   window_sec_of o "gg" = 2).
Proof.
  split; [|split].
  - intros RT config env stored_counts s i Hs Hd Hi. unfold init_fields.
    destruct (fold_left register_keyword _ _) as [display kws].
    cbv zeta. cbn [keyword_threshold]. unfold env_int_override.
    rewrite Hs, Hd, Hi.
    destruct s; [discriminate | reflexivity].
  - intros RT config env stored_counts s i Hs Hd Hi. unfold init_fields.
    destruct (fold_left register_keyword _ _) as [display kws].
    cbv zeta. cbn [keyword_window]. unfold env_int_override.
    rewrite Hs, Hd, Hi.
    destruct s; [discriminate | reflexivity].
  - cbv zeta. repeat split; vm_compute; reflexivity.
Qed.

(** *** Reconnection *)

Lemma fold_dset_const_values {V} (v : V) (l : list string) (acc : dict V)
    (k : string) (w : V) :
  dget (fold_left (fun d x => dset d x v) l acc) k = Some w ->
  w = v \/ dget acc k = Some w.
Proof.
  revert acc. induction l as [|x r IH]; intros acc H; simpl in H.
  - now right.
  - destruct (IH _ H) as [Hw|Hacc]; [now left|].
    destruct (string_dec k x) as [->|Hne].
    + rewrite dget_dset_same in Hacc. left. congruence.
    + rewrite dget_dset_other in Hacc by exact Hne. now right.
Qed.

Section Reconnection.
Context {RT : Runtime} {CMD : Commands}.

(** [__init__] gives every keyword an empty window. *)
Lemma init_fields_windows_empty (config : ConfigStore.Config) (env : Environ)
    (stored_counts : dict Z) (k : string) :
  window_of (init_fields config env stored_counts) k = [].
Proof.
  unfold init_fields.
  destruct (fold_left register_keyword _ _) as [display kws].
  cbv zeta. unfold window_of. cbn [keyword_hits_window].
  unfold dget_default.
  destruct (dget _ k) as [w|] eqn:E; [|reflexivity].
  apply fold_dset_const_values in E. destruct E as [E|E];
    [exact E | discriminate].
Qed.

(** A reconnection that meets no obstacle replaces the chat channel, the
    tokens, the session id, the socket and the broadcast start, and nothing
    else. *)
Lemma connect_ok_result (cid session : string) (m : Machine) :
  let r := connect (connect_ok cid session) m in
  let o := self m in
  let o' := self (snd r) in
  fst r = Ok tt /\
  chatChannelId o' = cid /\
  accessToken o' = String.append "token-of-" cid /\
  extraToken o' = String.append "extra-of-" cid /\
  sid o' = PStr session /\
  sock o' = Some {| connected := true |} /\
  broadcast_start_timestamp o' = Some (inject_Z 0) /\
  _stop o' = _stop o /\
  keyword_log o' = keyword_log o.
Proof. cbv zeta. repeat split; reflexivity. Qed.

(** C5, as the code has it.  A reconnection, whether [connect] is called
    alone or by the receive step after a failed [recv], and whatever the
    network answers, leaves the keyword policy, the cumulative counts and
    also the sliding windows exactly as they were, and does not touch the
    files; when it succeeds it replaces the chat channel id, the two
    tokens, the session id, the socket and the broadcast start.  The
    windows are empty only in an object fresh from [__init__].  In a
    session that has seen one hit, a failed [recv] followed by a successful
    reconnection keeps the count 1 and the window of one entry, and the hit
    that comes next brings both to 2. *)
Theorem C5_reconnect_keeps_policy_counts_windows
    (env : ConnectEnv) (ienv : IterEnv) (m : Machine) :
  session_frame m (snd (connect env m)) /\
  session_frame m (snd (receive ienv m)) /\
  (forall cid session,
     let r := connect (connect_ok cid session) m in
     fst r = Ok tt /\
     chatChannelId (self (snd r)) = cid /\
     accessToken (self (snd r)) = String.append "token-of-" cid /\
     extraToken (self (snd r)) = String.append "extra-of-" cid /\
     sid (self (snd r)) = PStr session /\
     sock (self (snd r)) = Some {| connected := true |} /\
     broadcast_start_timestamp (self (snd r)) = Some (inject_Z 0) /\
     _stop (self (snd r)) = _stop (self m) /\
     keyword_log (self (snd r)) = keyword_log (self m)) /\
  (forall config environ stored_counts k,
     window_of (init_fields config environ stored_counts) k = []) /\
  (let session := @session insertion_order_runtime chzzk_commands in
   let files := settings (config_of ["gg"] (Some 5) None [] []) [] in
   let live := session files no_environ [turn_receiving (chat_frame "gg" 1000)] in
   let reconnected :=
     snd (@receive chzzk_commands
            (turn_reconnecting "channel-2" "sid-2" (chat_frame "gg" 2000)) live) in
   let resumed :=
     session files no_environ
       [turn_receiving (chat_frame "gg" 1000);
        turn_reconnecting "channel-2" "sid-2" (chat_frame "gg" 2000)] in
   chatChannelId (self live) = "channel-1" /\
   chatChannelId (self reconnected) = "channel-2" /\
   count_of (self reconnected) "gg" = 1 /\
   window_of (self reconnected) "gg" = [ts_of_ms 1000] /\
   count_of (self resumed) "gg" = 2 /\
   window_of (self resumed) "gg" = [ts_of_ms 1000; ts_of_ms 2000]).
Proof.
  split; [|split; [|split; [|split]]].
  - apply (preserves_connect session_frame env m).
  - apply (preserves_receive session_frame ienv m).
  - intros cid session. apply connect_ok_result.
  - exact init_fields_windows_empty.
  - cbv zeta. repeat split; vm_compute; reflexivity.
Qed.

End Reconnection.

(** *** Stopping *)

Section Stopping.
Context {RT : Runtime} {CMD : Commands}.

(** The object once [stop()] has run. *)
Lemma stop_effect (m : Machine) :
  let m' := snd (host_stop m) in
  fst (host_stop m) = Ok tt /\
  _stop (self m') = true /\
  (forall ws, sock (self m') = Some ws -> connected ws = false) /\
  keyword_log (self m') <> Some FileOpen.
Proof.
  unfold host_stop, stop, close. unfold_monad. simpl.
  destruct (sock (self m)) as [[[|]]|] eqn:Es;
    destruct (keyword_log (self m)) as [[|]|] eqn:El; simpl;
    rewrite ?Es, ?El; simpl;
    repeat split; try congruence;
    intros ws H; try rewrite Es in H; now inversion H.
Qed.

(** [stop()] while the loop waits in [recv]: whatever [recv] then does,
    the loop is left in this very turn, and apart from closing the socket
    and the event log nothing is done: no frame is sent, no connection
    opened, no record written. *)
Lemma stop_while_receiving (env : IterEnv) (m : Machine) :
  stop_during (recv1 env) = true ->
  sock (self m) = Some {| connected := true |} ->
  let r := loop_body env m in
  fst r = Ok Break /\
  _stop (self (snd r)) = true /\
  new_events m (snd r)
  = StopRequested :: WsClose ::
    match keyword_log (self m) with
    | Some FileOpen => [KeywordLogClose]
    | _ => []
    end.
Proof.
  intros Hstop Hsock.
  destruct m as [o f tr]. destruct o. cbn in Hsock. subst.
  unfold loop_body, receive, sock_recv, io, host_stop, stop, close, dispatch.
  unfold_monad. cbn. rewrite Hstop. cbn.
  match goal with
  | k : option logfile |- _ => destruct k as [[|]|]
  end; cbn;
    destruct (outcome (recv1 env)) as [raw|[]]; cbn;
    repeat split; try reflexivity;
    unfold new_events; cbn; rewrite <- ?app_assoc;
    rewrite skipn_app, skipn_all, Nat.sub_diag; reflexivity.
Qed.

(** Once the stop flag is set the loop does not take another turn. *)
Lemma run_stopped (script : list IterEnv) (m : Machine) :
  _stop (self m) = true -> run script m = (Ok true, m).
Proof.
  intro H. destruct script; simpl; unfold bind, get_self, ret; now rewrite H.
Qed.

End Stopping.

(** C8, as the code has it.  [stop()] sets the stop flag and closes the
    socket and the event log.  Called while the loop waits in [recv], it
    makes the loop leave in that very turn without sending, connecting or
    writing anything (a frame that would have come next is never read);
    from then on the flag stays set, the loop takes no further turn, and no
    detection record is written as long as the event log is not open,
    which it never is again.  But the PING branch calls
    [connect()] without testing the flag: when [stop()] comes while the
    worker is asking for the chat channel id after a PING, and the id has
    changed, the worker opens a new connection after the stop was
    requested and leaves the loop with a connected socket. *)
Theorem C8_stop_and_late_reconnect :
  (forall (RT : Runtime) (CMD : Commands) (m : Machine),
     fst (host_stop m) = Ok tt /\
     _stop (self (snd (host_stop m))) = true /\
     (forall ws, sock (self (snd (host_stop m))) = Some ws -> connected ws = false) /\
     keyword_log (self (snd (host_stop m))) <> Some FileOpen) /\
  (forall (RT : Runtime) (CMD : Commands) (env : IterEnv) (m : Machine),
     stop_during (recv1 env) = true ->
     sock (self m) = Some {| connected := true |} ->
     fst (loop_body env m) = Ok Break /\
     new_events m (snd (loop_body env m))
     = StopRequested :: WsClose ::
       match keyword_log (self m) with
       | Some FileOpen => [KeywordLogClose]
       | _ => []
       end) /\
  (forall (RT : Runtime) (CMD : Commands) (script : list IterEnv) (m : Machine),
     (_stop (self m) = true -> run script m = (Ok true, m)) /\
     (_stop (self m) = true -> _stop (self (snd (run script m))) = true) /\
     (keyword_log (self m) <> Some FileOpen ->
      filter is_detection (trace (snd (run script m)))
      = filter is_detection (trace m))) /\
  (let live :=
     @started insertion_order_runtime chzzk_commands
       (settings (config_of ["gg"] None None [] []) []) no_environ in
   let r :=
     @run insertion_order_runtime chzzk_commands
       [turn_stopped_in_recv; turn_receiving (chat_frame "gg" 1000)] live in
   fst r = Ok true /\
   new_events live (snd r) = [StopRequested; WsClose; KeywordLogClose]) /\
  (let live :=
     @started insertion_order_runtime chzzk_commands
       (settings (config_of ["gg"] None None [] []) []) no_environ in
   let r :=
     @run insertion_order_runtime chzzk_commands
       [turn_stopped_in_ping "channel-2" "sid-2"] live in
   fst r = Ok true /\
   _stop (self (snd r)) = true /\
   sock (self (snd r)) = Some {| connected := true |} /\
   chatChannelId (self (snd r)) = "channel-2" /\
   filter (fun e => match e with
                    | StopRequested | WsConnect | WsClose | KeywordLogClose => true
                    | _ => false
                    end)
          (new_events live (snd r))
   = [StopRequested; WsClose; KeywordLogClose; WsConnect]).
Proof.
  split; [|split; [|split; [|split]]].
  - intros RT CMD m. apply stop_effect.
  - intros RT CMD env m Hstop Hsock.
    destruct (stop_while_receiving env m Hstop Hsock) as (H1 & _ & H3).
    now split.
  - intros RT CMD script m. split; [|split].
    + apply run_stopped.
    + apply (preserves_run stop_sticky script m).
    + apply (preserves_run closed_log_silent script m).
  - cbv zeta. split; vm_compute; reflexivity.
  - cbv zeta. repeat split; vm_compute; reflexivity.
Qed.

(** *** Instances of the conditional statements, and the two refuted readings *)

(** C1 at a first hit with threshold 1: the store is writable, and the
    keyword fires with count 1. *)
Lemma C1_sliding_window_fires_witness :
  let m := machine_of (watching_gg 1 15) fresh_files in
  let m' :=
    snd (@record_hit insertion_order_runtime "gg" 20000 "now" AnonymousDonor "gg" m) in
  ConfigStore.writable (files m) = true /\
  In (LoggerInfo (KeycountLine "GG" 15 1 1)) (new_events m m').
Proof.
  cbv zeta. split; [reflexivity|].
  apply (proj1 (proj2 (proj2
    (@C1_sliding_window_fires insertion_order_runtime
       (machine_of (watching_gg 1 15) fresh_files)
       "gg" 20000 "now" AnonymousDonor "gg" eq_refl)))).
  vm_compute. discriminate.
Defined.


(** C10 at a raw configuration with padded keywords, a threshold below 1
    and a repeated Contains keyword. *)
Lemma C10_save_then_load_is_sanitize_witness :
  let c :=
    PDict [("keywords", PStr " gg , wp ,,");
           ("global_threshold", PInt 0);
           ("global_window", PStr "abc");
           ("contains_keywords",
            PList [PStr "Pizza"; PDict [("keyword", PStr " PIZZA ")];
                   PDict [("keyword", PStr "cake"); ("threshold", PInt 3)]])] in
  let f' := snd (@ConfigStore.save_config insertion_order_runtime c fresh_files) in
  @ConfigStore.save_config insertion_order_runtime c fresh_files = (Ok tt, f') /\
  @ConfigStore.load_config insertion_order_runtime f'
  = @ConfigStore._sanitize_config insertion_order_runtime c /\
  @ConfigStore.load_config insertion_order_runtime f'
  = {| ConfigStore.keywords := ["gg"; "wp"];
       ConfigStore.global_threshold := Some 1;
       ConfigStore.per_keyword_thresholds := [];
       ConfigStore.global_window := Some 60;
       ConfigStore.per_keyword_windows := [];
       ConfigStore.contains_keywords :=
         [{| ConfigStore.keyword := "Pizza";
             ConfigStore.threshold := 1; ConfigStore.window := 60 |};
          {| ConfigStore.keyword := "cake";
             ConfigStore.threshold := 3; ConfigStore.window := 60 |}] |}.
Proof.
  cbv zeta.
  assert (Hsave :
    @ConfigStore.save_config insertion_order_runtime
       (PDict [("keywords", PStr " gg , wp ,,");
               ("global_threshold", PInt 0);
               ("global_window", PStr "abc");
               ("contains_keywords",
                PList [PStr "Pizza"; PDict [("keyword", PStr " PIZZA ")];
                       PDict [("keyword", PStr "cake"); ("threshold", PInt 3)]])])
       fresh_files
    = (Ok tt,
       snd (@ConfigStore.save_config insertion_order_runtime
              (PDict [("keywords", PStr " gg , wp ,,");
                      ("global_threshold", PInt 0);
                      ("global_window", PStr "abc");
                      ("contains_keywords",
                       PList [PStr "Pizza"; PDict [("keyword", PStr " PIZZA ")];
                              PDict [("keyword", PStr "cake");
                                     ("threshold", PInt 3)]])])
              fresh_files)))
    by (vm_compute; reflexivity).
  split; [exact Hsave|].
  destruct (@C10_save_then_load_is_sanitize insertion_order_runtime _ _ _ Hsave)
    as [Hload _].
  split; [exact Hload|].
  vm_compute. reflexivity.
Defined.


(** C6 at a hit that reaches threshold 1 while the disk is full: nothing is
    emitted, the count and the window are kept, and the settings file is
    left unreadable. *)
Lemma C6_failure_is_swallowed_silently_witness :
  let m := machine_of (watching_gg 1 60) (on_full_disk fresh_files) in
  let r := @record_hit insertion_order_runtime "gg" 1000 "now" AnonymousDonor "gg" m in
  ConfigStore.writable (files m) = false /\
  threshold_of (self m) "gg"
  <= Z.of_nat (List.length
       (slide (window_of (self m) "gg") (ts_of_ms 1000) (window_sec_of (self m) "gg"))) /\
  fst r = Ok tt /\
  new_events m (snd r) = [] /\
  count_of (self (snd r)) "gg" = 1 /\
  window_of (self (snd r)) "gg" = [ts_of_ms 1000] /\
  ConfigStore.CONFIG_PATH (files (snd r)) = Some None.
Proof.
  cbv zeta.
  assert (Hfire :
    threshold_of (self (machine_of (watching_gg 1 60) (on_full_disk fresh_files))) "gg"
    <= Z.of_nat (List.length
         (slide (window_of (self (machine_of (watching_gg 1 60)
                                    (on_full_disk fresh_files))) "gg")
                (ts_of_ms 1000)
                (window_sec_of (self (machine_of (watching_gg 1 60)
                                        (on_full_disk fresh_files)))
                               "gg"))))
    by (vm_compute; discriminate).
  split; [reflexivity|]. split; [exact Hfire|].
  destruct (@C6_failure_is_swallowed_silently insertion_order_runtime chzzk_commands
              (machine_of (watching_gg 1 60) (on_full_disk fresh_files))
              "gg" 1000 "now" AnonymousDonor "gg" eq_refl Hfire)
    as (_ & Hok & Hev & Hcount & Hwin & Hfiles & _).
  split; [exact Hok|]. split; [exact Hev|].
  split; [rewrite Hcount; reflexivity|].
  split; [rewrite Hwin; reflexivity|].
  rewrite Hfiles. reflexivity.
Defined.

(** C6 as stated fails: the store refuses the write, the exception is
    raised inside the hit recording, and no line reaches the logger. *)
Lemma C6_nothing_is_logged :
  let m := machine_of (watching_gg 1 60) readonly_files in
  let r := @record_hit insertion_order_runtime "gg" 1000 "now" AnonymousDonor "gg" m in
  fst (@ConfigStore.save_counts insertion_order_runtime
         (keyword_counts (self (snd r))) (files m)) = Raise OSError /\
  ~ (exists e, In e (new_events m (snd r)) /\ is_log e = true).
Proof.
  cbv zeta. split; [reflexivity|].
  intros (e & Hin & _). vm_compute in Hin. exact Hin.
Qed.

(** C5 as stated fails: after a failed [recv] and a successful
    reconnection the window of the keyword still holds the hit recorded
    before, so not every window is empty. *)
Lemma C5_windows_survive_reconnect :
  let live :=
    @session insertion_order_runtime chzzk_commands
      (settings (config_of ["gg"] (Some 5) None [] []) []) no_environ
      [turn_receiving (chat_frame "gg" 1000)] in
  let r :=
    @receive chzzk_commands
      (turn_reconnecting "channel-2" "sid-2" (chat_frame "gg" 2000)) live in
  fst r = Ok (Some (Some (chat_frame "gg" 2000))) /\
  sid (self (snd r)) = PStr "sid-2" /\
  window_of (self (snd r)) "gg" = [ts_of_ms 1000] /\
  ~ (forall k, window_of (self (snd r)) k = []).
Proof.
  cbv zeta. split; [vm_compute; reflexivity|].
  split; [vm_compute; reflexivity|].
  split; [vm_compute; reflexivity|].
  intro H. specialize (H "gg"). vm_compute in H. discriminate.
Qed.

(** C4 at a first hit with threshold 1 on a writable store: the stored
    count of the keyword becomes 1. *)
Lemma C4_count_lost_under_unstripped_key_witness :
  let m := machine_of (watching_gg 1 60) fresh_files in
  let m' :=
    snd (@record_hit insertion_order_runtime "gg" 1000 "now" AnonymousDonor "gg" m) in
  ConfigStore.writable (files m) = true /\
  CountsSpec.normal_key "gg" /\
  CountsSpec.unshadowed (keyword_counts (self m)) "gg" /\
  count_of (self m') "gg" = 1 /\
  dget (@ConfigStore.load_counts insertion_order_runtime (files m')) "gg" = Some 1.
Proof.
  cbv zeta.
  assert (Hkey : CountsSpec.normal_key "gg") by (split; [reflexivity | discriminate]).
  assert (Hun : CountsSpec.unshadowed
                  (keyword_counts (self (machine_of (watching_gg 1 60) fresh_files)))
                  "gg").
  { intros k [<-|[]] _. reflexivity. }
  destruct (@C4_count_lost_under_unstripped_key insertion_order_runtime chzzk_commands
              (machine_of (watching_gg 1 60) fresh_files)
              "gg" 1000 "now" AnonymousDonor "gg")
    as ((Hcount & _) & _ & Hstored & _).
  split; [reflexivity|]. split; [exact Hkey|]. split; [exact Hun|].
  split; [exact Hcount|].
  apply Hstored.
  - reflexivity.
  - vm_compute. discriminate.
  - exact Hkey.
  - repeat constructor. intros [].
  - exact Hun.
  - vm_compute. discriminate.
Defined.

(* ================================================================== *)
(** ** Further properties of the store, the session, the policy and the
    input fields *)
(* ================================================================== *)

Import Py Text TextSpec.

(** *** Decimal text: [str] of an integer and [int] of a string *)

Lemma digits_value_acc (d : Decimal.uint) (acc : positive) :
  digits_value (Z.pos acc) true (NilEmpty.string_of_uint d)
  = Some (Z.pos (Pos.of_uint_acc d acc)).
Proof.
  revert acc. induction d; intro acc; cbn [NilEmpty.string_of_uint Pos.of_uint_acc];
    [reflexivity | ..];
    cbn [digits_value];
    match goal with
    | |- context [is_digit ?c] => change (is_digit c) with true; cbv iota
    end;
    rewrite <- IHd; f_equal;
    match goal with
    | |- context [code ?c] =>
        let v := eval vm_compute in (code c) in change (code c) with v
    end; lia.
Qed.

Lemma digits_value_uint (d : Decimal.uint) :
  digits_value 0 true (NilEmpty.string_of_uint d)
  = Some (Z.of_N (Pos.of_uint d)).
Proof.
  induction d; cbn [NilEmpty.string_of_uint Pos.of_uint];
    [reflexivity | exact IHd | ..];
    cbn [digits_value];
    match goal with
    | |- context [is_digit ?c] => change (is_digit c) with true; cbv iota
    end;
    cbn [Z.of_N]; rewrite <- digits_value_acc; f_equal.
Qed.

Lemma digits_value_first (d : Decimal.uint) :
  d <> Decimal.Nil ->
  digits_value 0 false (NilEmpty.string_of_uint d)
  = digits_value 0 true (NilEmpty.string_of_uint d).
Proof. destruct d; [congruence | reflexivity ..]. Qed.

Lemma all_digits_uint (d : Decimal.uint) :
  all_digits (NilEmpty.string_of_uint d) = true.
Proof. induction d; simpl; [reflexivity | exact IHd ..]. Qed.

(** The text [str] makes of an integer that is not negative. *)
Lemma str_of_int_nonneg (z : Z) :
  0 <= z ->
  exists d, d <> Decimal.Nil /\
            str_of_int z = NilEmpty.string_of_uint d /\
            Z.of_N (Pos.of_uint d) = z.
Proof.
  intro H. destruct z as [|p|p]; [| |lia].
  - exists (Decimal.D0 Decimal.Nil). repeat split. discriminate.
  - exists (Pos.to_uint p).
    assert (E : Pos.of_uint (Pos.to_uint p) = N.pos p)
      by apply DecimalPos.Unsigned.of_to.
    assert (Hd : Pos.to_uint p <> Decimal.Nil).
    { intro E'. rewrite E' in E. discriminate. }
    repeat split; [exact Hd | | now rewrite E].
    unfold str_of_int. cbn [Z.to_int NilZero.string_of_int].
    unfold NilZero.string_of_uint. destruct (Pos.to_uint p); congruence.
Qed.

Lemma free_of_cons (p : ascii -> bool) (c : ascii) (s : string) :
  free_of p (String c s) <-> p c = false /\ free_of p s.
Proof.
  unfold free_of. simpl. split.
  - intro H. inversion H. now split.
  - intros [H1 H2]. now constructor.
Qed.

Lemma free_of_empty (p : ascii -> bool) : free_of p "".
Proof. constructor. Qed.

Lemma free_of_app (p : ascii -> bool) (s t : string) :
  free_of p (s ++ t)%string <-> free_of p s /\ free_of p t.
Proof.
  induction s as [|c r IH]; simpl.
  - split; [intro H; split; [apply free_of_empty | exact H] | now intros [_ H]].
  - rewrite !free_of_cons, IH. tauto.
Qed.

Lemma free_of_weaken (p q : ascii -> bool) (s : string) :
  (forall c, p c = false -> q c = false) -> free_of p s -> free_of q s.
Proof. intros H Hs. eapply Forall_impl; [|exact Hs]. exact H. Qed.

Lemma is_digit_not_space (c : ascii) : is_digit c = true -> is_space c = false.
Proof.
  unfold is_digit, is_space. intro H.
  apply andb_true_iff in H. destruct H as [H1 H2].
  apply Z.leb_le in H1. apply Z.leb_le in H2.
  apply orb_false_iff. split; apply andb_false_iff.
  - right. apply Z.leb_gt. lia.
  - right. apply Z.leb_gt. lia.
Qed.

(** A string of digits holds nothing but digits. *)
Lemma all_digits_free_of (p : ascii -> bool) (s : string) :
  (forall c, is_digit c = true -> p c = false) ->
  all_digits s = true -> free_of p s.
Proof.
  intro Hp. induction s as [|c r IH]; simpl; intro H; [apply free_of_empty|].
  apply andb_true_iff in H. destruct H as [Hc Hr].
  apply free_of_cons. split; [now apply Hp | now apply IH].
Qed.

Lemma rstrip_free (s : string) : free_of is_space s -> rstrip s = s.
Proof.
  induction s as [|c r IH]; [reflexivity|].
  intro H. apply free_of_cons in H. destruct H as [Hc Hr].
  simpl. rewrite (IH Hr). destruct r; [now rewrite Hc | reflexivity].
Qed.

Lemma strip_free (s : string) : free_of is_space s -> strip s = s.
Proof.
  intro H. unfold strip. rewrite lstrip_fixed.
  - now apply rstrip_free.
  - destruct s; [exact I|]. now apply free_of_cons in H.
Qed.

Lemma int_of_str_digit_head (c : ascii) (r : string) :
  is_digit c = true -> strip (String c r) = String c r ->
  int_of_str (String c r) = digits_value 0 false (String c r).
Proof.
  intros Hc Hs. unfold int_of_str. rewrite Hs.
  destruct c as [[] [] [] [] [] [] [] []]; try reflexivity; discriminate.
Qed.

(** [int(str(z))] is [z], and [str(z)] is made of digits, for [z >= 0]. *)
Lemma int_of_str_of_int (z : Z) :
  0 <= z -> int_of_str (str_of_int z) = Some z /\ isdigit (str_of_int z) = true.
Proof.
  intro H. destruct (str_of_int_nonneg z H) as (d & Hd & Hs & Hv).
  rewrite Hs.
  assert (Hall := all_digits_uint d).
  assert (Hne : nonempty (NilEmpty.string_of_uint d) = true)
    by (destruct d; [congruence | reflexivity ..]).
  split; [|unfold isdigit; now rewrite Hne, Hall].
  assert (Hstrip : strip (NilEmpty.string_of_uint d) = NilEmpty.string_of_uint d).
  { apply strip_free. apply all_digits_free_of; [|exact Hall].
    exact is_digit_not_space. }
  destruct (NilEmpty.string_of_uint d) as [|c r] eqn:E; [discriminate|].
  rewrite int_of_str_digit_head; [| |exact Hstrip].
  - rewrite <- E, digits_value_first by exact Hd.
    rewrite digits_value_uint. now rewrite Hv.
  - simpl in Hall. now apply andb_true_iff in Hall.
Qed.


Import Py Text TextSpec ConfigStore StoreSpec CountsSpec Run Spec.

(** *** The counts section of the store *)

Section CountsStore.
Context {RT : Runtime}.

Lemma counts_ok_nil : counts_ok [].
Proof. split; constructor. Qed.

Lemma load_legacy_counts_ok (f : Files) : counts_ok (_load_legacy_counts f).
Proof.
  unfold _load_legacy_counts.
  destruct (LEGACY_COUNTS_JSON f); [apply sanitize_counts_ok | apply counts_ok_nil].
Qed.

Lemma sanitize_data_counts_ok (raw : pyval) : counts_ok (counts (_sanitize_data raw)).
Proof.
  unfold _sanitize_data. destruct (_ || _); cbn [counts];
    [apply sanitize_counts_ok | apply counts_ok_nil].
Qed.

Lemma load_counts_ok (f : Files) : counts_ok (load_counts f).
Proof.
  unfold load_counts, _load_data.
  destruct (CONFIG_PATH f) as [[raw|]|]; cbn [counts];
    try apply load_legacy_counts_ok.
  assert (H := sanitize_data_counts_ok raw).
  destruct (counts (_sanitize_data raw)) eqn:E.
  - assert (Hl := load_legacy_counts_ok f).
    destruct (_load_legacy_counts f); cbn [counts]; [now rewrite E | exact Hl].
  - now rewrite E.
Qed.

(** When no counts are found, the legacy file holds none either. *)
Lemma load_counts_empty (f : Files) :
  load_counts f = [] -> _load_legacy_counts f = [].
Proof.
  unfold load_counts, _load_data.
  destruct (CONFIG_PATH f) as [[raw|]|]; cbn [counts]; try (intro H; exact H).
  destruct (counts (_sanitize_data raw)) eqn:E.
  - destruct (_load_legacy_counts f); cbn [counts]; [reflexivity | discriminate].
  - rewrite E. discriminate.
Qed.

(** What [load_counts] finds in a settings file that holds [d]. *)
Lemma load_counts_of_data (d : Data) (f : Files) :
  CONFIG_PATH f = Some (Some (data_to_py d)) ->
  load_counts f
  = match _sanitize_counts (int_dict_to_py (counts d)) with
    | [] => _load_legacy_counts f
    | c => c
    end.
Proof.
  intro H. unfold load_counts, _load_data. rewrite H, sanitize_data_of_data.
  cbn [counts config].
  destruct (_sanitize_counts _); [|reflexivity].
  destruct (_load_legacy_counts f); reflexivity.
Qed.

Lemma legacy_counts_set_CONFIG_PATH (f : Files) (c : option (option pyval)) :
  _load_legacy_counts (set_CONFIG_PATH f c) = _load_legacy_counts f.
Proof. reflexivity. Qed.

End CountsStore.
Section CountsStoreTheorems.
Context {RT : Runtime}.

(** X1.  Whatever it is given, [_sanitize_counts] returns a map in normal
    form: the keys are distinct, non-empty, stripped and in lower case, and
    no value is negative.  A map in normal form is returned as it is, so
    sanitizing twice is sanitizing once. *)
Theorem X1_sanitize_counts_normal_form (raw : pyval) :
  counts_ok (_sanitize_counts raw) /\
  _sanitize_counts (int_dict_to_py (_sanitize_counts raw)) = _sanitize_counts raw /\
  (forall d, counts_ok d -> _sanitize_counts (int_dict_to_py d) = d).
Proof.
  split; [|split].
  - apply sanitize_counts_ok.
  - apply sanitize_counts_idempotent.
  - exact sanitize_counts_fixed.
Qed.

Lemma In_dkeys_dset {V} (d : dict V) (k k' : string) (v : V) :
  In k' (dkeys (dset d k v)) <-> k' = k \/ In k' (dkeys d).
Proof.
  rewrite dkeys_dset. destruct (dmem d k) eqn:E.
  - apply dmem_true_In in E. split; [now right | intros [->|H]; assumption].
  - rewrite in_app_iff. simpl. split.
    + intros [H|[H|[]]]; [now right | now left].
    + intros [H|H]; [right; now left | now left].
Qed.

(** X2.  [_sanitize_counts] neither loses nor invents a keyword: the keys
    of the result are exactly the stripped lower-case forms of the keys of
    the input that are not blank and whose value [int] accepts. *)
Theorem X2_sanitize_counts_keys (d : dict pyval) (k : string) :
  In k (dkeys (_sanitize_counts (PDict d))) <->
  exists k' v i,
    In (k', v) d /\ nonempty (strip k') = true /\ int v = Some i /\
    k = lower (strip k').
Proof.
  unfold _sanitize_counts.
  induction d as [|[k0 v0] r IH] using rev_ind.
  - simpl. split; [intros [] | intros (k' & v & i & [] & _)].
  - rewrite fold_left_app. cbn [fold_left fst snd].
    destruct (nonempty (strip k0)) eqn:Ek; cbn [negb].
    + destruct (int v0) as [i0|] eqn:Ei.
      * rewrite In_dkeys_dset, IH. split.
        -- intros [->|(k' & v & i & Hin & H1 & H2 & H3)].
           ++ exists k0, v0, i0. repeat split; auto.
              apply in_or_app. right. now left.
           ++ exists k', v, i. repeat split; auto. apply in_or_app. now left.
        -- intros (k' & v & i & Hin & H1 & H2 & H3).
           apply in_app_or in Hin. destruct Hin as [Hin|[Heq|[]]].
           ++ right. now exists k', v, i.
           ++ inversion Heq; subst. now left.
      * rewrite IH. split.
        -- intros (k' & v & i & Hin & H). exists k', v, i.
           split; [apply in_or_app; now left | exact H].
        -- intros (k' & v & i & Hin & H1 & H2 & H3).
           apply in_app_or in Hin. destruct Hin as [Hin|[Heq|[]]].
           ++ now exists k', v, i.
           ++ inversion Heq; subst. congruence.
    + rewrite IH. split.
      * intros (k' & v & i & Hin & H). exists k', v, i.
        split; [apply in_or_app; now left | exact H].
      * intros (k' & v & i & Hin & H1 & H2 & H3).
        apply in_app_or in Hin. destruct Hin as [Hin|[Heq|[]]].
        -- now exists k', v, i.
        -- inversion Heq; subst. congruence.
Qed.

(** X3.  Once [save_counts c] has written the store, [load_config] returns
    what it returned before, and [load_counts] returns the sanitized form of
    [c]; but when that form is empty the reader falls back on the legacy
    counts file, so saving an empty map does not clear counts that
    [keyword_counts.json] still holds. *)
Theorem X3_save_counts_then_load (c : dict Z) (f f' : Files)
    (Hsave : ConfigStore.save_counts c f = (Ok tt, f')) :
  load_config f' = load_config f /\
  load_counts f'
  = match _sanitize_counts (int_dict_to_py c) with
    | [] => _load_legacy_counts f
    | s => s
    end.
Proof.
  assert (Hw : writable f = true) by now apply save_counts_returns in Hsave.
  assert (Hf' : f' = set_CONFIG_PATH f
            (Some (Some (data_to_py
               {| config := load_config f;
                  counts := _sanitize_counts (int_dict_to_py c) |})))).
  { rewrite (save_counts_file c f Hw) in Hsave. congruence. }
  subst f'. clear Hsave.
  split.
  - unfold load_config at 1.
    erewrite load_data_config_of_data by reflexivity.
    cbn [config]. apply sanitize_config_fixed, load_config_sanitized.
  - erewrite load_counts_of_data by reflexivity.
    cbn [counts]. rewrite sanitize_counts_idempotent.
    now rewrite legacy_counts_set_CONFIG_PATH.
Qed.

(** X4.  [save_config] replaces the configuration and nothing else: the
    counts [load_counts] returns afterwards are those it returned before,
    whether they came from the settings file or from the legacy counts
    file. *)
Theorem X4_save_config_keeps_counts (config0 : pyval) (f f' : Files)
    (Hsave : save_config config0 f = (Ok tt, f')) :
  load_counts f' = load_counts f.
Proof.
  unfold save_config, _write_data, write_text in Hsave.
  cbv zeta in Hsave. cbn [config counts] in Hsave.
  destruct (writable f); [|discriminate].
  assert (Hf' : f' = set_CONFIG_PATH f
            (Some (Some (data_to_py
               {| config := _sanitize_config (config_to_py (_sanitize_config config0));
                  counts := _sanitize_counts (int_dict_to_py (load_counts f)) |}))))
    by (unfold load_counts; congruence).
  subst f'. clear Hsave.
  erewrite load_counts_of_data by reflexivity.
  cbn [counts].
  rewrite !(sanitize_counts_fixed (load_counts f)) by apply load_counts_ok.
  rewrite legacy_counts_set_CONFIG_PATH.
  destruct (load_counts f) eqn:E; [|reflexivity].
  now apply load_counts_empty.
Qed.

End CountsStoreTheorems.
Import Frame Rel StoreRel SessionSpec.
Local Open Scope py_scope.

(** *** The receive loop as a whole *)

Section LoopAsAWhole.
Context {RT : Runtime} {CMD : Commands}.

Lemma save_counts_keeps_config (c : dict Z) (f f' : Files) :
  ConfigStore.save_counts c f = (Ok tt, f') -> load_config f' = load_config f.
Proof.
  intro Hsave.
  assert (Hw : writable f = true) by now apply save_counts_returns in Hsave.
  assert (Hf' : f' = set_CONFIG_PATH f
            (Some (Some (data_to_py
               {| config := load_config f;
                  counts := _sanitize_counts (int_dict_to_py c) |})))).
  { rewrite (save_counts_file c f Hw) in Hsave. congruence. }
  subst f'. unfold load_config at 1.
  erewrite load_data_config_of_data by reflexivity.
  cbn [config]. apply sanitize_config_fixed, load_config_sanitized.
Qed.

Lemma set_CONFIG_PATH_same (f : Files) : set_CONFIG_PATH f (CONFIG_PATH f) = f.
Proof. now destruct f. Qed.

Lemma set_CONFIG_PATH_twice (f : Files) (a b : option (option pyval)) :
  set_CONFIG_PATH (set_CONFIG_PATH f a) b = set_CONFIG_PATH f b.
Proof. reflexivity. Qed.

Lemma stored_config_kept_refl (m m' : Machine) :
  files m' = files m -> stored_config_kept m m'.
Proof.
  intro H. unfold stored_config_kept, only_settings_written. rewrite H.
  split; [now rewrite set_CONFIG_PATH_same | reflexivity].
Qed.

#[export] Instance stored_config_kept_session : SessionInvariant stored_config_kept.
Proof.
  constructor; try (intros; now apply stored_config_kept_refl).
  intros a b c [Hab Lab] [Hbc Lbc].
  unfold stored_config_kept, only_settings_written in *. split.
  - etransitivity; [exact Hbc|]. rewrite Hab. apply set_CONFIG_PATH_twice.
  - intro Hs. rewrite Lbc, Lab; [reflexivity | exact Hs |].
    rewrite Hab. exact Hs.
Qed.

#[export] Instance stored_config_kept_loop : LoopInvariant stored_config_kept.
Proof.
  constructor; [exact _ | |].
  - intros. now apply stored_config_kept_refl.
  - intros m hit ms now nick msg_text.
    unfold stored_config_kept, only_settings_written.
    rewrite record_hit_files.
    destruct (_ <=? _);
      [|split; [now rewrite set_CONFIG_PATH_same | reflexivity]].
    destruct (ConfigStore.save_counts _ _) as [[u|e] f'] eqn:E; cbn [snd].
    + apply save_counts_returns in E. destruct E as [Hw E]. split.
      * rewrite (save_counts_file _ _ Hw) in E. injection E as <-.
        reflexivity.
      * intros _. now apply save_counts_keeps_config in E.
    + apply save_counts_raises in E. destruct E as (_ & Hw & ->).
      unfold after_failed_write. split.
      * destruct (fails_after_open (files m));
          [reflexivity | now rewrite set_CONFIG_PATH_same].
      * intros [Hs|Hs]; [congruence|]. now rewrite Hs.
Qed.

Lemma goes_on_bind {A} (c : M A) (k : A -> M control) :
  (forall a, goes_on (k a)) -> goes_on (bind c k).
Proof.
  intros Hk m. unfold bind. destruct (c m) as [[a|e] m1]; [apply Hk|].
  simpl. discriminate.
Qed.

Lemma goes_on_ret : goes_on (ret Continue).
Proof. intro m. simpl. discriminate. Qed.

Lemma dispatch_break (env : IterEnv) (raw_message : option pyval) (m : Machine) :
  fst (dispatch env raw_message m) = Ok Break ->
  _stop (self (snd (dispatch env raw_message m))) = true.
Proof.
  unfold dispatch.
  match goal with |- context [bind get_self ?k] => set (K := k) end.
  change (bind get_self K m) with (K (self m) m). subst K. cbv beta.
  destruct (_stop (self m)) eqn:Es; [intros _; exact Es|].
  intro H. exfalso. revert H.
  match goal with |- fst (?c m) = _ -> False => assert (Hc : goes_on c) end;
    [|apply Hc].
  apply goes_on_bind. intro raw.
  apply goes_on_bind. intro chat_cmd.
  destruct (eq_int chat_cmd cmd_ping).
  - repeat (apply goes_on_bind; intro). apply goes_on_ret.
  - destruct (eq_int chat_cmd cmd_chat);
      [|destruct (eq_int chat_cmd cmd_donation); [|apply goes_on_ret]];
      repeat (apply goes_on_bind; intro); apply goes_on_ret.
Qed.

Lemma sock_recv_interrupted (a : Answer (option pyval)) (m : Machine) :
  fst (sock_recv a m) = Raise KeyboardInterrupt ->
  outcome a = Raise KeyboardInterrupt.
Proof.
  destruct m as [o f tr]. destruct o.
  unfold sock_recv, io, host_stop, stop, close. unfold_monad. cbn.
  match goal with
  | s : option WebSocket |- _ => destruct s as [[[|]]|]
  end; cbn; try discriminate.
  destruct (stop_during a); cbn.
  - match goal with
    | k : option logfile |- _ => destruct k as [[|]|]
    end; cbn; destruct (outcome a) as [v|e]; cbn; congruence.
  - destruct (outcome a) as [v|e]; cbn; congruence.
Qed.

(** A turn is the last one only when the stop flag is found set or when
    [recv] is interrupted from the keyboard. *)
Lemma loop_body_break (env : IterEnv) (m : Machine) :
  fst (loop_body env m) = Ok Break ->
  _stop (self (snd (loop_body env m))) = true \/
  outcome (recv1 env) = Raise KeyboardInterrupt.
Proof.
  unfold loop_body, try_except.
  match goal with
  | |- context [match ?body m with _ => _ end] =>
      destruct (body m) as [[c|e] m1] eqn:Eb
  end.
  - cbn [fst snd]. intro Hc. injection Hc as ->.
    unfold bind in Eb.
    destruct (receive env m) as [[[raw|]|e] m0] eqn:Er; [| |discriminate].
    + left. assert (H := dispatch_break env raw m0).
      rewrite Eb in H. now apply H.
    + unfold ret in Eb. injection Eb as <-.
      unfold receive in Er.
      destruct (sock_recv (recv1 env) m) as [[v|e] m2] eqn:Es; [discriminate|].
      destruct e;
        try (revert Er; unfold bind at 1; unfold get_self;
             destruct (_stop (self m2)) eqn:E2;
             [ unfold ret; intro Er; injection Er as <-; now left
             | unfold bind;
               destruct (connect (reconnect env) m2) as [[u|e'] m3];
               [ destruct (sock_recv (recv2 env) m3) as [[v|e'] m4];
                 unfold ret; discriminate
               | discriminate ] ]).
      right. apply (sock_recv_interrupted _ m). now rewrite Es.
  - unfold bind, get_self, ret. destruct (_stop (self m1)) eqn:E1; cbn [fst snd].
    + intros _. now left.
    + discriminate.
Qed.

End LoopAsAWhole.
Section SessionTheorems.
Context {RT : Runtime} {CMD : Commands}.

(** X5.  [run()] never raises: whatever a network call or the handling of
    a frame raises inside a turn is caught, and the turn ends normally.  A
    turn is the last one only when the stop flag is found set or when
    [recv] is interrupted from the keyboard; after any other exception the
    loop goes on with the next turn. *)
Theorem X5_run_never_raises (script : list IterEnv) (env : IterEnv) (m : Machine) :
  (exists b, fst (run script m) = Ok b) /\
  (exists c, fst (loop_body env m) = Ok c) /\
  (fst (loop_body env m) = Ok Break ->
   _stop (self (snd (loop_body env m))) = true \/
   outcome (recv1 env) = Raise KeyboardInterrupt).
Proof.
  split; [apply run_ok | split; [apply loop_body_ok | apply loop_body_break]].
Qed.

(** X6.  The receive loop never changes the keyword policy: after any run,
    whatever the network answers and whatever the frames hold, the object
    has the keywords, thresholds, windows, display names and rules it
    started with.  Of the files of the store it writes the settings file
    only; and when a write of that file either succeeds or fails at the
    opening, [load_config] reads from the files the configuration it read
    before: the loop then writes nothing but the counts.  A write that fails
    after the file was opened is another matter: with a disk that is full,
    one hit that reaches its threshold leaves a settings file that cannot be
    read, and [load_config] no longer finds the keyword that was stored. *)
Theorem X6_run_keeps_policy_and_stored_config (script : list IterEnv) (m : Machine) :
  let m' := snd (run script m) in
  same_policy (self m) (self m') /\
  files m' = set_CONFIG_PATH (files m) (CONFIG_PATH (files m')) /\
  (writable (files m) = true \/ fails_after_open (files m) = false ->
   load_config (files m') = load_config (files m)) /\
  (let f := on_full_disk (settings (config_of ["gg"] None None [] []) []) in
   let after :=
     @session insertion_order_runtime chzzk_commands f no_environ
       [turn_receiving (chat_frame "gg" 1000)] in
   ConfigStore.keywords (@load_config insertion_order_runtime f) = ["gg"] /\
   CONFIG_PATH (files after) = Some None /\
   ConfigStore.keywords (@load_config insertion_order_runtime (files after)) = []).
Proof.
  intro m'.
  destruct (preserves_run stored_config_kept script m) as [Hfiles Hload].
  split; [exact (preserves_run policy_kept script m)|].
  split; [exact Hfiles|].
  split; [exact Hload|].
  cbv zeta. repeat split; vm_compute; reflexivity.
Qed.

(** X7.  [close()] and [stop()] do the same thing, and doing it twice is
    doing it once: after the first call the flag is set, the socket is not
    connected and the event log is not open, so a second call changes
    nothing and closes nothing again. *)
Theorem X7_close_is_idempotent (m : Machine) :
  fst (close m) = Ok tt /\
  stop m = close m /\
  close (snd (close m)) = (Ok tt, snd (close m)) /\
  stop (snd (close m)) = (Ok tt, snd (close m)).
Proof.
  destruct m as [o f tr]. destruct o.
  unfold stop, close. unfold_monad. cbn.
  match goal with
  | s : option WebSocket |- _ => destruct s as [[[|]]|]
  end; cbn;
  match goal with
  | k : option logfile |- _ => destruct k as [[|]|]
  end; cbn; repeat split; reflexivity.
Qed.

(** X8.  [update_broadcast_start_time] never lets a failed lookup escape:
    when the lookup fails with an [Exception] the start time is set to
    [None] and one warning is logged, so that the detection records that
    follow carry ["-"] as their duration; when it succeeds the start time
    is the one found.  Only a keyboard interrupt passes through. *)
Theorem X8_start_time_lookup_is_contained (a : Answer Q) (m : Machine) :
  let r := update_broadcast_start_time a m in
  (forall start,
     outcome a = Ok start ->
     fst r = Ok tt /\
     broadcast_start_timestamp (self (snd r)) = Some start /\
     filter is_log (new_events m (snd r))
     = [LoggerInfo (BroadcastStartLine start)]) /\
  (forall e,
     outcome a = Raise e -> is_Exception e = true ->
     fst r = Ok tt /\
     broadcast_start_timestamp (self (snd r)) = None /\
     (forall ms, duration_text (self (snd r)) ms = "-") /\
     filter is_log (new_events m (snd r)) = [LoggerWarning BroadcastWarningLine]) /\
  (forall e, fst r = Raise e -> e = KeyboardInterrupt).
Proof.
  destruct m as [o f tr]. destruct o.
  unfold update_broadcast_start_time, io, host_stop, stop, close, duration_text,
    new_events.
  unfold_monad. cbn.
  split; [|split].
  - intros start Ha. rewrite Ha.
    destruct (stop_during a); cbn;
      repeat match goal with
      | s : option WebSocket |- _ => destruct s as [[[|]]|]
      | k : option logfile |- _ => destruct k as [[|]|]
      end; cbn; repeat split; try reflexivity;
      rewrite <- ?app_assoc; rewrite skipn_app, skipn_all, Nat.sub_diag;
      reflexivity.
  - intros e Ha He. rewrite Ha.
    destruct (stop_during a); cbn;
      repeat match goal with
      | s : option WebSocket |- _ => destruct s as [[[|]]|]
      | k : option logfile |- _ => destruct k as [[|]|]
      end; cbn; rewrite He; cbn; repeat split; try reflexivity;
      rewrite <- ?app_assoc; rewrite skipn_app, skipn_all, Nat.sub_diag;
      reflexivity.
  - intro e.
    destruct (stop_during a); cbn;
      repeat match goal with
      | s : option WebSocket |- _ => destruct s as [[[|]]|]
      | k : option logfile |- _ => destruct k as [[|]|]
      end; cbn; destruct (outcome a) as [v|e0]; cbn; try discriminate;
      destruct e0; cbn; congruence.
Qed.

End SessionTheorems.
(** *** The handshake of [connect] *)

Section Handshake.
Context {RT : Runtime} {CMD : Commands}.

Lemma sends_nothing_refl (m : Machine) : sends_nothing m m.
Proof.
  repeat split. exists []. split; [now rewrite app_nil_r | reflexivity].
Qed.

Lemma sends_nothing_trans (a b c : Machine) :
  sends_nothing a b -> sends_nothing b c -> sends_nothing a c.
Proof.
  intros (?&?&?&?&?&l1&E1&F1) (?&?&?&?&?&l2&E2&F2).
  repeat split; try congruence.
  exists (l1 ++ l2). split.
  - rewrite E2, E1. now rewrite app_assoc.
  - rewrite filter_app, F1, F2. reflexivity.
Qed.

Lemma host_stop_sends_nothing (m : Machine) :
  fst (host_stop m) = Ok tt /\ sends_nothing m (snd (host_stop m)).
Proof.
  destruct m as [o f tr]. destruct o.
  unfold host_stop, stop, close, sends_nothing. unfold_monad. cbn.
  repeat match goal with
  | s : option WebSocket |- _ => destruct s as [[[|]]|]
  | k : option logfile |- _ => destruct k as [[|]|]
  end; cbn; repeat split; try reflexivity;
  rewrite <- ?app_assoc; eexists; (split; [reflexivity | reflexivity]).
Qed.

(** A call that waits returns the answer of the outside and sends
    nothing, whether or not the host stops the object meanwhile. *)
Lemma io_sends_nothing {A} (a : Answer A) (m : Machine) :
  exists m', io a m = (outcome a, m') /\ sends_nothing m m'.
Proof.
  unfold io, bind, lift.
  destruct (stop_during a).
  - destruct (host_stop_sends_nothing m) as [H1 H2].
    destruct (host_stop m) as [[u|e] m1]; simpl in *; [|discriminate].
    exists m1. now split.
  - exists m. split; [reflexivity | apply sends_nothing_refl].
Qed.

Lemma emit_sends_nothing (e : event) (m : Machine) :
  is_send e = false -> sends_nothing m (emit_event m e).
Proof.
  intro H. unfold sends_nothing. cbn. repeat split.
  exists [e]. split; [reflexivity|]. cbn. now rewrite H.
Qed.

Lemma update_broadcast_start_time_sends_nothing (a : Answer Q) (m : Machine) :
  sends_nothing m (snd (update_broadcast_start_time a m)).
Proof.
  unfold update_broadcast_start_time, try_except_Exception, bind.
  destruct (io_sends_nothing a m) as (m1 & -> & H1).
  destruct (outcome a) as [start|e].
  - unfold modify_self, emit. cbn.
    eapply sends_nothing_trans; [exact H1|].
    apply (emit_sends_nothing _
             (with_self m1 (set_broadcast_start_timestamp (self m1) (Some start)))).
    reflexivity.
  - destruct (is_Exception e); [|exact H1].
    unfold modify_self, emit. cbn.
    eapply sends_nothing_trans; [exact H1|].
    apply (emit_sends_nothing _
             (with_self m1 (set_broadcast_start_timestamp (self m1) None))).
    reflexivity.
Qed.

End Handshake.
Section HandshakeTheorem.
Context {RT : Runtime} {CMD : Commands}.

(** Sending a frame the socket accepts adds it to what has been sent, and
    nothing else. *)
Lemma ws_send_sends (frame : pyval) (a : Answer unit) (m : Machine) :
  exists m', ws_send frame a m = (outcome a, m') /\
             (forall u, outcome a = Ok u ->
                        sends_nothing (emit_event m (WsSend frame)) m').
Proof.
  unfold ws_send, bind.
  destruct (outcome a) as [u|e] eqn:O.
  - unfold emit.
    destruct (io_sends_nothing a (emit_event m (WsSend frame))) as (m' & E & Q).
    rewrite E, O. exists m'. split; [reflexivity | intros _ _; exact Q].
  - unfold ret. destruct (io_sends_nothing a m) as (m' & E & Q).
    rewrite E, O. exists m'. split; [reflexivity | discriminate].
Qed.

Lemma getitem_ok (v : pyval) (k : string) (m m' : Machine) (x : pyval) :
  getitem v k m = (Ok x, m') ->
  m' = m /\ exists d, v = PDict d /\ dget d k = Some x.
Proof.
  unfold getitem. destruct v as [| | | | |d]; try discriminate.
  destruct (dget d k) as [y|] eqn:E; [|discriminate].
  unfold ret. intro H. injection H as <- <-. split; [reflexivity|].
  now exists d.
Qed.

Ltac step_io Ec :=
  unfold bind at 1 in Ec;
  match type of Ec with
  | context [io ?a ?m] =>
      let m' := fresh "m" in
      let E := fresh "E" in
      let Q := fresh "Q" in
      let O := fresh "O" in
      destruct (io_sends_nothing a m) as (m' & E & Q);
      rewrite E in Ec; clear E;
      destruct (outcome a) eqn:O; [|discriminate Ec]
  end.

Ltac step_ws Ec :=
  unfold bind at 1 in Ec;
  match type of Ec with
  | context [ws_send ?fr ?a ?m] =>
      let m' := fresh "m" in
      let E := fresh "E" in
      let Q := fresh "Q" in
      let O := fresh "O" in
      destruct (ws_send_sends fr a m) as (m' & E & Q);
      rewrite E in Ec; clear E;
      destruct (outcome a) eqn:O; [specialize (Q _ eq_refl)|discriminate Ec]
  end.

Ltac step_getitem Ec :=
  unfold bind at 1 in Ec;
  match type of Ec with
  | context [getitem ?v ?k ?m] =>
      let r := fresh "r" in
      let m' := fresh "m" in
      let E := fresh "E" in
      let G := fresh "G" in
      destruct (getitem v k m) as [[r|] m'] eqn:E; [|discriminate Ec];
      apply getitem_ok in E; destruct E as [-> G]
  end.

Ltac step_modify Ec :=
  unfold bind at 1 in Ec; unfold modify_self at 1 in Ec; cbv beta iota in Ec.

Lemma connect_handshake (env : ConnectEnv) (m mf : Machine) :
  connect env m = (Ok tt, mf) ->
  exists cid tok reply session,
    outcome (c_chatChannelId env) = Ok cid /\
    outcome (c_accessToken env) = Ok tok /\
    outcome (c_recv_connect env) = Ok (Some reply) /\
    carries_sid reply session /\
    c_connected env = true /\
    chatChannelId (self mf) = cid /\
    accessToken (self mf) = fst tok /\
    extraToken (self mf) = snd tok /\
    sid (self mf) = session /\
    filter is_send (new_events m mf)
    = [WsSend (connect_frame cid (userIdHash (self m)) (fst tok));
       WsSend (recent_chat_frame cid session)].
Proof.
  intro Ec. unfold connect in Ec.
  step_io Ec. rename a into cid.
  step_modify Ec.
  step_io Ec. rename a into tok.
  step_modify Ec.
  unfold bind at 1 in Ec. unfold emit at 1 in Ec. cbv beta iota in Ec.
  step_io Ec.
  unfold bind at 1 in Ec. unfold get_self at 1 in Ec. cbv beta iota zeta in Ec.
  step_ws Ec.
  step_io Ec. rename a1 into reply.
  unfold bind at 1 in Ec.
  destruct reply as [reply|]; [|discriminate Ec].
  unfold ret at 1 in Ec. cbv beta iota in Ec.
  step_getitem Ec. rename r into bdy.
  step_getitem Ec. rename r into session.
  step_modify Ec.
  unfold bind at 1 in Ec. unfold get_self at 1 in Ec. cbv beta iota zeta in Ec.
  step_ws Ec.
  step_io Ec.
  step_modify Ec.
  destruct (c_connected env) eqn:Hc; [|discriminate Ec].
  unfold bind at 1 in Ec. unfold emit at 1 in Ec. cbv beta iota in Ec.
  match type of Ec with
  | update_broadcast_start_time ?a ?m6' = _ =>
      assert (Q6 := update_broadcast_start_time_sends_nothing a m6');
      rewrite Ec in Q6; cbn [snd] in Q6
  end.
  clear Ec.
  unfold sends_nothing in *.
  cbn [self with_self emit_event trace userIdHash chatChannelId accessToken
       extraToken sid set_chatChannelId set_tokens set_sid set_sock] in *.
  destruct Q as (U0 & C0 & A0 & X0 & S0 & l0 & T0 & F0).
  destruct Q0 as (U1 & C1 & A1 & X1 & S1 & l1 & T1 & F1).
  destruct Q1 as (U2 & C2 & A2 & X2 & S2 & l2 & T2 & F2).
  destruct Q2 as (U3 & C3 & A3 & X3 & S3 & l3 & T3 & F3).
  destruct Q3 as (U4 & C4 & A4 & X4 & S4 & l4 & T4 & F4).
  destruct Q4 as (U5 & C5 & A5 & X5 & S5 & l5 & T5 & F5).
  destruct Q5 as (U6 & C6 & A6 & X6 & S6 & l6 & T6 & F6).
  destruct Q6 as (U7 & C7 & A7 & X7 & S7 & l7 & T7 & F7).
  exists cid, tok, reply, session.
  split; [reflexivity|]. split; [reflexivity|]. split; [reflexivity|].
  split.
  { destruct G as (d & -> & Hd). destruct G0 as (b & -> & Hb). now exists d, b. }
  split; [reflexivity|].
  split; [congruence|]. split; [congruence|]. split; [congruence|].
  split; [congruence|].
  unfold new_events. rewrite T7, T6, T5, T4, T3, T2, T1, T0.
  rewrite <- !app_assoc. rewrite skipn_app, skipn_all, Nat.sub_diag.
  cbn [skipn app].
  repeat (rewrite filter_app || (progress cbn [filter is_send app])).
  rewrite F0, F1, F2, F3, F4, F5, F6, F7. cbn [app].
  unfold connect_frame, recent_chat_frame, default_dict. cbn [app].
  assert (Hu : userIdHash (self m2) = userIdHash (self m)) by congruence.
  assert (Ha : accessToken (self m2) = fst tok) by congruence.
  assert (Hc2 : chatChannelId (self m2) = cid) by congruence.
  assert (Hc4 : chatChannelId (set_sid (self m4) session) = cid)
    by (cbn [chatChannelId set_sid]; congruence).
  now rewrite Hu, Ha, Hc2, Hc4.
Qed.

(** X9.  A call of [connect] that returns has done the whole handshake,
    whether or not the host stops the object meanwhile: the chat channel
    id and the tokens it leaves in the object are those the [api] module
    has just answered, exactly two frames have been sent, first the
    connect request carrying the user id, the new access token and the new
    channel id, then the request for the recent chat carrying the session
    id of the server's reply, which is also the one kept, and the socket
    has reported that it is connected. *)
Theorem X9_connect_handshake (env : ConnectEnv) (m : Machine)
    (Hok : fst (connect env m) = Ok tt) :
  exists cid tok reply session,
    outcome (c_chatChannelId env) = Ok cid /\
    outcome (c_accessToken env) = Ok tok /\
    outcome (c_recv_connect env) = Ok (Some reply) /\
    carries_sid reply session /\
    c_connected env = true /\
    chatChannelId (self (snd (connect env m))) = cid /\
    accessToken (self (snd (connect env m))) = fst tok /\
    extraToken (self (snd (connect env m))) = snd tok /\
    sid (self (snd (connect env m))) = session /\
    filter is_send (new_events m (snd (connect env m)))
    = [WsSend (connect_frame cid (userIdHash (self m)) (fst tok));
       WsSend (recent_chat_frame cid session)].
Proof.
  destruct (connect env m) as [[[]|e] mf] eqn:Ec; [|discriminate].
  cbn [snd]. now apply connect_handshake.
Qed.


End HandshakeTheorem.
Import PolicySpec.

(** *** The policy [__init__] builds *)

Section Policy.
Context {RT : Runtime}.

Lemma Forall_set_add (P : string -> Prop) (s : pyset) (x : string) :
  Forall P s -> P x -> Forall P (set_add s x).
Proof.
  intros Hs Hx. unfold set_add. destruct (set_mem x s); [exact Hs|].
  apply Forall_app. split; [exact Hs | now constructor].
Qed.

Lemma In_set_add (s : pyset) (x y : string) :
  In y (set_add s x) <-> In y s \/ y = x.
Proof.
  unfold set_add. destruct (set_mem x s) eqn:E.
  - apply set_mem_true_In in E. split; [now left | intros [H| ->]; assumption].
  - rewrite in_app_iff. simpl. split.
    + intros [H|[H|[]]]; [now left | now right].
    + intros [H|H]; [now left | right; now left].
Qed.

Lemma In_fold_set_add (l : list string) (s : pyset) (y : string) :
  In y (fold_left set_add l s) <-> In y s \/ In y l.
Proof.
  revert s. induction l as [|x r IH]; intro s; simpl.
  - tauto.
  - rewrite IH, In_set_add. intuition.
Qed.

Lemma register_keyword_ok (st : dict string * pyset) (raw_kw : string) :
  Forall spells (fst st) -> Forall lower_case (snd st) ->
  Forall spells (fst (register_keyword st raw_kw)) /\
  Forall lower_case (snd (register_keyword st raw_kw)).
Proof.
  destruct st as [display kws]. unfold register_keyword. cbn [fst snd].
  intros Hd Hk.
  destruct (nonempty (strip raw_kw)); cbn [negb]; [|now split].
  destruct (nonempty (lower (strip raw_kw))); cbn [negb fst snd]; [|now split].
  split.
  - destruct (dmem display _); [exact Hd|].
    apply Forall_dset; [exact Hd | reflexivity].
  - apply Forall_set_add; [exact Hk | apply lower_idem].
Qed.

Lemma fold_register_keyword_ok (l : list string) (st : dict string * pyset) :
  Forall spells (fst st) -> Forall lower_case (snd st) ->
  Forall spells (fst (fold_left register_keyword l st)) /\
  Forall lower_case (snd (fold_left register_keyword l st)).
Proof.
  revert st. induction l as [|x r IH]; intros st Hd Hk; simpl; [now split|].
  destruct (register_keyword_ok st x Hd Hk) as [H1 H2]. now apply IH.
Qed.

Lemma lower_int_map_ok (m : dict Z) : Forall rule_ok (lower_int_map m).
Proof.
  unfold lower_int_map.
  assert (H0 : Forall rule_ok (@nil (string * Z))) by constructor.
  revert H0. generalize (@nil (string * Z)) as acc.
  induction m as [|[k v] r IH]; intros acc Hacc; simpl; [exact Hacc|].
  apply IH. destruct (nonempty (strip k)); [|exact Hacc].
  apply Forall_dset; [exact Hacc|]. split; [apply lower_idem | simpl; lia].
Qed.

Lemma merge_env_map_ok (acc : dict Z) (env : option pyval) :
  Forall rule_ok acc -> Forall rule_ok (merge_env_map acc env).
Proof.
  intro Hacc. unfold merge_env_map.
  destruct env as [[| | | | |data]|]; try exact Hacc.
  revert acc Hacc. induction data as [|[k v] r IH]; intros acc Hacc; simpl;
    [exact Hacc|].
  destruct (isdigit (str v)); [|now apply IH].
  destruct (int v) as [i|]; [|exact Hacc].
  apply IH. apply Forall_dset; [exact Hacc|].
  split; [apply lower_idem | simpl; lia].
Qed.

Lemma env_int_override_ge (current : Z) (env : option string) :
  1 <= current -> 1 <= env_int_override current env.
Proof.
  intro H. unfold env_int_override.
  destruct env as [s|]; [|exact H].
  destruct (nonempty s && isdigit s); [|exact H].
  destruct (int_of_str s); [lia | exact H].
Qed.

Lemma or_int_ge (x : option Z) (default : Z) :
  StoreSpec.positive_or_absent x -> 1 <= default -> 1 <= or_int x default.
Proof.
  intros Hx Hd. unfold or_int. destruct x as [v|]; [|exact Hd].
  simpl in Hx. destruct (v =? 0); [exact Hd | exact Hx].
Qed.

Lemma register_contains_ok (thr win : Z) (st : ContainsState)
    (e : ConfigStore.ContainsEntry) :
  1 <= thr -> 1 <= win ->
  contains_state_ok st -> contains_state_ok (register_contains thr win st e).
Proof.
  intros Hthr Hwin [Hd Hk Ht Hw Hs Hl]. unfold register_contains.
  destruct (nonempty (strip (ConfigStore.keyword e))); cbn [negb];
    [|now constructor].
  destruct (nonempty (lower (strip (ConfigStore.keyword e)))); cbn [negb];
    [|now constructor].
  set (k := lower (strip (ConfigStore.keyword e))).
  assert (Hlow : lower_case k) by apply lower_idem.
  constructor; cbn [cs_display cs_keywords cs_thresholds cs_windows cs_set cs_list].
  - destruct (dmem (cs_display st) k); [exact Hd|].
    apply Forall_dset; [exact Hd | reflexivity].
  - now apply Forall_set_add.
  - match goal with |- Forall _ (if ?c then _ else _) => destruct c end.
    + apply Forall_dset; [exact Ht | split; [exact Hlow | simpl; lia]].
    + apply Forall_dset; [|split; [exact Hlow | exact Hthr]].
      apply Forall_dset; [exact Ht | split; [exact Hlow | simpl; lia]].
  - match goal with |- Forall _ (if ?c then _ else _) => destruct c end.
    + apply Forall_dset; [exact Hw | split; [exact Hlow | simpl; lia]].
    + apply Forall_dset; [|split; [exact Hlow | exact Hwin]].
      apply Forall_dset; [exact Hw | split; [exact Hlow | simpl; lia]].
  - rewrite Hs. destruct (set_mem k (cs_list st)) eqn:Em; cbn [negb];
      [reflexivity|].
    unfold set_add. now rewrite Em.
  - intros x Hx. apply In_set_add.
    destruct (negb (set_mem k (cs_set st))).
    + apply in_app_or in Hx. destruct Hx as [Hx|[<-|[]]];
        [left; now apply Hl | now right].
    + left. now apply Hl.
Qed.

Lemma fold_register_contains_ok (thr win : Z)
    (entries : list ConfigStore.ContainsEntry) (st : ContainsState) :
  1 <= thr -> 1 <= win ->
  contains_state_ok st ->
  contains_state_ok (fold_left (register_contains thr win) entries st).
Proof.
  intros Hthr Hwin. revert st.
  induction entries as [|e r IH]; intros st Hst; simpl; [exact Hst|].
  apply IH. now apply register_contains_ok.
Qed.

End Policy.
Section PolicyTheorems.
Context {RT : Runtime}.

Lemma dget_Some_In {V} (d : dict V) (k : string) (v : V) :
  dget d k = Some v -> In (k, v) d.
Proof.
  induction d as [|[k' v'] r IH]; simpl; [discriminate|].
  destruct (String.eqb k' k) eqn:E.
  - apply String.eqb_eq in E. intro H. left. congruence.
  - intro H. right. now apply IH.
Qed.

Lemma In_dkeys_dget {V} (d : dict V) (k : string) :
  In k (dkeys d) -> exists v, dget d k = Some v.
Proof.
  intro H. apply dmem_true_In in H. unfold dmem in H.
  destruct (dget d k) as [v|]; [now exists v | discriminate].
Qed.

(** The loop [for key in list(self.keywords): if key not in
    self.keyword_display: self.keyword_display[key] = key]. *)
Lemma fold_display_ok (l : list string) (d : dict string) :
  Forall spells d -> Forall lower_case l ->
  Forall spells (fold_left (fun d key => if dmem d key then d else dset d key key) l d).
Proof.
  revert d. induction l as [|x r IH]; intros d Hd Hl; simpl; [exact Hd|].
  inversion Hl as [|? ? Hx Hr]; subst.
  apply IH; [|exact Hr].
  destruct (dmem d x); [exact Hd|]. apply Forall_dset; [exact Hd | exact Hx].
Qed.

Lemma fold_display_total (l : list string) (d : dict string) (k : string) :
  In k l \/ dmem d k = true ->
  dmem (fold_left (fun d key => if dmem d key then d else dset d key key) l d) k
  = true.
Proof.
  revert d. induction l as [|x r IH]; intros d H; simpl.
  - destruct H as [[]|H]; exact H.
  - apply IH. destruct (string_dec x k) as [->|Hne].
    + right. destruct (dmem d k) eqn:E; [exact E|].
      unfold dmem. now rewrite dget_dset_same.
    + destruct H as [[H|H]|H]; [contradiction | now left | right].
      destruct (dmem d x); [exact H|].
      unfold dmem in *. rewrite dget_dset_other by congruence. exact H.
Qed.

(** The state in which the loop over the stored Contains entries leaves
    the policy, and how the attributes of the object are made from it. *)
Lemma init_fields_state (config : ConfigStore.Config) (env : Environ)
    (stored_counts : dict Z) :
  StoreSpec.positive_or_absent (ConfigStore.global_threshold config) ->
  StoreSpec.positive_or_absent (ConfigStore.global_window config) ->
  let o := init_fields config env stored_counts in
  exists st,
    contains_state_ok st /\
    keyword_thresholds o = cs_thresholds st /\
    keyword_windows o = cs_windows st /\
    contains_keywords_list o = cs_list st /\
    contains_keywords_set o = cs_set st /\
    keywords o
    = fold_left set_add (dkeys (cs_windows st))
        (fold_left set_add (dkeys (cs_thresholds st)) (cs_keywords st)) /\
    keyword_display o
    = fold_left (fun d key => if dmem d key then d else dset d key key)
        (set_iter (keywords o)) (cs_display st) /\
    1 <= keyword_threshold o /\ 1 <= keyword_window o.
Proof.
  intros Hgt Hgw. unfold init_fields.
  match goal with
  | |- context [fold_left register_keyword ?l ?s] =>
      destruct (fold_register_keyword_ok l s) as [Hd Hk]; [constructor ..|];
      destruct (fold_left register_keyword l s) as [display kws]
  end.
  cbn [fst snd] in Hd, Hk. cbv zeta.
  cbn [keyword_thresholds keyword_windows contains_keywords_list
       contains_keywords_set keywords keyword_display keyword_threshold
       keyword_window].
  assert (Hthr : 1 <= env_int_override
                        (or_int (ConfigStore.global_threshold config) 1)
                        (KEYWORD_THRESHOLD env)).
  { apply env_int_override_ge, or_int_ge; [exact Hgt | lia]. }
  assert (Hwin : 1 <= env_int_override
                        (or_int (ConfigStore.global_window config) 60)
                        (KEYWORD_WINDOW env)).
  { apply env_int_override_ge, or_int_ge; [exact Hgw | lia]. }
  eexists. split; [|repeat split; try reflexivity; assumption].
  apply fold_register_contains_ok; [exact Hthr | exact Hwin |].
  constructor; cbn [cs_display cs_keywords cs_thresholds cs_windows cs_set cs_list].
  - exact Hd.
  - exact Hk.
  - apply merge_env_map_ok, lower_int_map_ok.
  - apply merge_env_map_ok, lower_int_map_ok.
  - reflexivity.
  - intros x [].
Qed.

Lemma rule_ok_lookup (d : dict Z) (k : string) (default : Z) :
  Forall rule_ok d -> 1 <= default -> 1 <= dget_default d k default.
Proof.
  intros Hd H. unfold dget_default. destruct (dget d k) as [v|] eqn:E; [|exact H].
  apply dget_Some_In in E. rewrite Forall_forall in Hd.
  now destruct (Hd _ E).
Qed.

(** X10.  In the object [__init__] builds from the stored configuration,
    whatever the environment holds, every threshold is at least 1 and every
    window at least one second, for every keyword, with or without a value
    of its own: a hit can always reach its threshold. *)
Theorem X10_thresholds_and_windows_are_positive (f : ConfigStore.Files)
    (env : Environ) (stored_counts : dict Z) (k : string) :
  let o := init_fields (ConfigStore.load_config f) env stored_counts in
  1 <= threshold_of o k /\ 1 <= window_sec_of o k.
Proof.
  intro o.
  assert (Hs := load_config_sanitized f).
  destruct (init_fields_state (ConfigStore.load_config f) env stored_counts)
    as (st & Hst & Ht & Hw & _ & _ & _ & _ & Hthr & Hwin).
  - apply (StoreSpec.global_threshold_ok _ Hs).
  - apply (StoreSpec.global_window_ok _ Hs).
  - fold o in Ht, Hw, Hthr, Hwin.
    unfold threshold_of, window_sec_of. rewrite Ht, Hw. split.
    + apply rule_ok_lookup; [apply (cs_thresholds_ok _ Hst) | exact Hthr].
    + apply rule_ok_lookup; [apply (cs_windows_ok _ Hst) | exact Hwin].
Qed.

Lemma fold_patterns_lookup {V} (skip : string -> bool) (g : string -> V)
    (l : list string) (acc : dict V) (k : string) (v : V) :
  dget (fold_left (fun d x => if skip x then d else dset d x (g x)) l acc) k
  = Some v ->
  v = g k \/ dget acc k = Some v.
Proof.
  revert acc. induction l as [|x r IH]; intros acc H; simpl in H.
  - now right.
  - destruct (IH _ H) as [Hv|Hacc]; [now left|].
    destruct (skip x); [now right|].
    destruct (string_dec k x) as [->|Hne].
    + rewrite dget_dset_same in Hacc. left. congruence.
    + rewrite dget_dset_other in Hacc by exact Hne. now right.
Qed.

Lemma init_fields_patterns_compiled (config : ConfigStore.Config) (env : Environ)
    (stored_counts : dict Z) (k : string) (pat : Pattern) :
  dget (keyword_patterns (init_fields config env stored_counts)) k = Some pat ->
  pat = compile_keyword k.
Proof.
  unfold init_fields.
  destruct (fold_left register_keyword _ _) as [display kws].
  cbv zeta. cbn [keyword_patterns]. intro H.
  apply fold_patterns_lookup in H. destruct H as [H|H]; [exact H | discriminate].
Qed.

Lemma init_fields_counts_total (config : ConfigStore.Config) (env : Environ)
    (stored_counts : dict Z) (k : string) :
  In k (keywords (init_fields config env stored_counts)) ->
  dmem (keyword_counts (init_fields config env stored_counts)) k = true.
Proof.
  unfold init_fields.
  destruct (fold_left register_keyword _ _) as [display kws].
  cbv zeta. cbn [keywords keyword_counts]. intro Hin.
  unfold dmem.
  rewrite (fold_dset_lookup (fun k => dget_default stored_counts k 0));
    [reflexivity|].
  left. eapply Permutation_in; [|exact Hin].
  apply Permutation_sym, set_iter_perm.
Qed.

(** X11.  In the object [__init__] builds, every keyword is in lower case,
    has a cumulative count and a display label, and the label is a spelling
    of the keyword: its lower-case form is the keyword itself.  Every
    keyword that has a threshold or a window of its own is a keyword of the
    object. *)
Theorem X11_keywords_are_normalised (f : ConfigStore.Files)
    (env : Environ) (stored_counts : dict Z) :
  let o := init_fields (ConfigStore.load_config f) env stored_counts in
  Forall (fun k => lower k = k /\
                   dmem (keyword_counts o) k = true /\
                   dmem (keyword_display o) k = true /\
                   lower (label_of o k) = k)
         (keywords o) /\
  (forall k, dmem (keyword_thresholds o) k = true \/
             dmem (keyword_windows o) k = true ->
             In k (keywords o)).
Proof.
  intro o.
  assert (Hs := load_config_sanitized f).
  destruct (init_fields_state (ConfigStore.load_config f) env stored_counts)
    as (st & Hst & Ht & Hw & _ & _ & Hk & Hd & _ & _).
  - apply (StoreSpec.global_threshold_ok _ Hs).
  - apply (StoreSpec.global_window_ok _ Hs).
  - fold o in Ht, Hw, Hk, Hd.
    assert (Hlow : Forall lower_case (keywords o)).
    { rewrite Hk. apply Forall_forall. intros x Hx.
      apply In_fold_set_add in Hx. destruct Hx as [Hx|Hx].
      - apply In_fold_set_add in Hx. destruct Hx as [Hx|Hx].
        + assert (H := cs_keywords_ok _ Hst). rewrite Forall_forall in H.
          now apply H.
        + apply In_dkeys_dget in Hx. destruct Hx as [v Hv].
          apply dget_Some_In in Hv.
          assert (H := cs_thresholds_ok _ Hst). rewrite Forall_forall in H.
          now destruct (H _ Hv).
      - apply In_dkeys_dget in Hx. destruct Hx as [v Hv].
        apply dget_Some_In in Hv.
        assert (H := cs_windows_ok _ Hst). rewrite Forall_forall in H.
        now destruct (H _ Hv). }
    assert (Hiter : Forall lower_case (set_iter (keywords o))).
    { apply Forall_forall. intros x Hx. rewrite Forall_forall in Hlow.
      apply Hlow. eapply Permutation_in; [apply set_iter_perm | exact Hx]. }
    assert (Hdisp : Forall spells (keyword_display o)).
    { rewrite Hd. apply fold_display_ok; [apply (cs_display_ok _ Hst) | exact Hiter]. }
    split.
    + apply Forall_forall. intros k Hin.
      split; [rewrite Forall_forall in Hlow; now apply Hlow|].
      split; [now apply init_fields_counts_total|].
      assert (Hmem : dmem (keyword_display o) k = true).
      { rewrite Hd. apply fold_display_total. left.
        eapply Permutation_in; [apply Permutation_sym, set_iter_perm | exact Hin]. }
      split; [exact Hmem|].
      unfold label_of, dget_default. unfold dmem in Hmem.
      destruct (dget (keyword_display o) k) as [v|] eqn:E; [|discriminate].
      apply dget_Some_In in E. rewrite Forall_forall in Hdisp.
      apply (Hdisp _ E).
    + intros k [H|H]; apply dmem_true_In in H; rewrite Hk; apply In_fold_set_add.
      * left. apply In_fold_set_add. right. now rewrite <- Ht.
      * right. now rewrite <- Hw.
Qed.

(** X12.  In the object [__init__] builds, every keyword is watched by
    exactly one rule: it has a compiled pattern (Exact) or it is in the list
    of the Contains keywords, never both, and nothing else has a rule.  The
    pattern kept under a keyword is the one compiled from that keyword. *)
Theorem X12_every_keyword_has_one_rule (f : ConfigStore.Files)
    (env : Environ) (stored_counts : dict Z) (k : string) :
  let o := init_fields (ConfigStore.load_config f) env stored_counts in
  (In k (keywords o) <->
   In k (dkeys (keyword_patterns o)) \/ In k (contains_keywords_list o)) /\
  ~ (In k (dkeys (keyword_patterns o)) /\ In k (contains_keywords_list o)) /\
  (forall pat, dget (keyword_patterns o) k = Some pat -> pat = compile_keyword k).
Proof.
  intro o.
  assert (Hs := load_config_sanitized f).
  destruct (init_fields_state (ConfigStore.load_config f) env stored_counts)
    as (st & Hst & _ & _ & Hl & Hc & Hk & _ & _ & _).
  - apply (StoreSpec.global_threshold_ok _ Hs).
  - apply (StoreSpec.global_window_ok _ Hs).
  - fold o in Hl, Hc, Hk.
    assert (Hp := init_fields_patterns_order (ConfigStore.load_config f) env
                    stored_counts).
    cbv zeta in Hp. fold o in Hp.
    assert (Hset : contains_keywords_set o = contains_keywords_list o).
    { rewrite Hc, Hl. apply (cs_set_is_list _ Hst). }
    assert (Hpat : In k (dkeys (keyword_patterns o)) <->
                   In k (keywords o) /\ ~ In k (contains_keywords_list o)).
    { rewrite Hp, filter_In, negb_true_iff, set_mem_false_not_In, Hset.
      split; intros [H1 H2]; (split; [|exact H2]).
      - eapply Permutation_in; [apply set_iter_perm | exact H1].
      - eapply Permutation_in; [apply Permutation_sym, set_iter_perm | exact H1]. }
    split; [|split].
    + split.
      * intro Hin.
        destruct (in_dec string_dec k (contains_keywords_list o)) as [H|H];
          [now right | left; apply Hpat; now split].
      * intros [H|H]; [now apply Hpat in H|].
        rewrite Hk. apply In_fold_set_add. left. apply In_fold_set_add. left.
        apply (cs_list_in_keywords _ Hst). now rewrite <- Hl.
    + intros [H1 H2]. apply Hpat in H1. now destruct H1.
    + intros pat H. exact (init_fields_patterns_compiled _ _ _ _ _ H).
Qed.

(** X13.  The order of the rules.  The Contains keywords are tried in the
    order of the stored entries, each lower-cased keyword at its first
    occurrence, whatever the runtime; the Exact patterns are kept in the
    order in which the runtime iterates over the set of keywords, the
    Contains keywords left out. *)
Theorem X13_order_of_the_rules (config : ConfigStore.Config) (env : Environ)
    (stored_counts : dict Z) :
  let o := init_fields config env stored_counts in
  contains_keywords_list o
  = MatchSpec.first_occurrences [] (MatchSpec.registered_contains config) /\
  dkeys (keyword_patterns o)
  = filter (fun kw => negb (set_mem kw (contains_keywords_set o)))
           (set_iter (keywords o)).
Proof.
  intro o. split.
  - apply init_fields_contains_order.
  - apply init_fields_patterns_order.
Qed.

Lemma In_first_occurrences (l seen : list string) (x : string) :
  In x (MatchSpec.first_occurrences seen l) -> In x l.
Proof.
  revert seen. induction l as [|y r IH]; intros seen H; [exact H|].
  cbn [MatchSpec.first_occurrences] in H.
  destruct (set_mem y seen).
  - right. now apply IH in H.
  - destruct H as [->|H]; [now left | right; now apply IH in H].
Qed.

(** What [process_chat_data] does with an entry whose nickname is found and
    whose message is a string: it logs the chat line and records a hit for
    the keyword the message is attributed to, if there is one. *)
Lemma process_chat_data_attributed (ct : chat_type) (d : dict pyval)
    (nick : nickname) (ms : Z) (now text : string) (m : Machine) :
  keywords (self m) <> [] ->
  resolve_nickname (PDict d) m = (Ok (Some nick), m) ->
  dget d "msgTime" = Some (PInt ms) ->
  strftime ms = Some now ->
  dget d "msg" = Some (PStr text) ->
  process_chat_data ct (PDict d) m
  = let m1 := emit_event m (LoggerInfo (ChatLine now ct nick (PStr text))) in
    match attributed (self m) text with
    | Some hit => record_hit hit ms now nick text m1
    | None => (Ok tt, m1)
    end.
Proof.
  intros Hkws Hnick Hms Hnow Hmsg.
  unfold process_chat_data. unfold bind at 1. rewrite Hnick.
  unfold bind at 1. unfold getitem at 1. rewrite Hms. unfold ret at 1.
  cbv beta iota. unfold bind at 1. cbn [as_number]. unfold ret at 1.
  cbv beta iota. rewrite Hnow. unfold bind at 1. unfold ret at 1.
  cbv beta iota. unfold bind at 1. unfold getitem at 1. rewrite Hmsg.
  unfold ret at 1. cbv beta iota.
  unfold bind at 1. unfold emit at 1. cbv beta iota.
  unfold bind at 1. unfold get_self at 1. cbv beta iota.
  cbn [self emit_event]. unfold attributed.
  destruct (keywords (self m)) as [|k ks]; [congruence|].
  destruct (resolve_hit (self m) text) as [hit|]; [|reflexivity].
  destruct (nonempty hit); reflexivity.
Qed.

(** X14.  A message is attributed to the keyword that [hit] holds when the
    test [if hit:] of line 359 lets it through.  That keyword is not empty
    and its rule matches the message: it is an Exact keyword whose pattern
    is found in the text, or a Contains keyword that occurs in the
    lower-cased text.
    When the message is attributed to no keyword, either no pattern is
    found in it or the pattern of the empty keyword is, and either no
    Contains keyword occurs in it or the empty keyword is one of them; so
    when no rule has the empty keyword, a message is attributed to no
    keyword exactly when no pattern is found in it and no Contains keyword
    occurs in it.  [process_chat_data] records a hit for the keyword of the
    message and for nothing else.  [__init__] never makes the empty keyword
    a Contains keyword, but it makes it an Exact keyword when an environment
    map has the empty key, and its pattern is found wherever two characters
    that are not word characters meet: ["we win!"] is then attributed to no
    keyword in a process that tries the empty keyword first, although the
    pattern of ["win"] is found in it. *)
Theorem X14_attribution_sound_and_complete (o : ChzzkChat) (text : string) :
  (forall kw, attributed o text = Some kw ->
     kw <> "" /\
     ((exists pat, In (kw, pat) (keyword_patterns o) /\ search pat text = true) \/
      (In kw (contains_keywords_list o) /\ str_in kw (lower text) = true))) /\
  (attributed o text = None ->
     (Forall (fun kp => search (snd kp) text = false) (keyword_patterns o) \/
      exists pat, In ("", pat) (keyword_patterns o) /\ search pat text = true) /\
     (Forall (fun k => str_in k (lower text) = false) (contains_keywords_list o) \/
      In "" (contains_keywords_list o))) /\
  (Forall (fun kp => fst kp <> "") (keyword_patterns o) ->
   Forall (fun k => k <> "") (contains_keywords_list o) ->
   (attributed o text = None <->
    Forall (fun kp => search (snd kp) text = false) (keyword_patterns o) /\
    Forall (fun k => str_in k (lower text) = false) (contains_keywords_list o))) /\
  (forall ct d nick ms now m,
     self m = o -> keywords o <> [] ->
     resolve_nickname (PDict d) m = (Ok (Some nick), m) ->
     dget d "msgTime" = Some (PInt ms) -> strftime ms = Some now ->
     dget d "msg" = Some (PStr text) ->
     process_chat_data ct (PDict d) m
     = let m1 := emit_event m (LoggerInfo (ChatLine now ct nick (PStr text))) in
       match attributed o text with
       | Some hit => record_hit hit ms now nick text m1
       | None => (Ok tt, m1)
       end) /\
  (forall config env stored_counts,
     Forall (fun k => k <> "")
            (contains_keywords_list (init_fields config env stored_counts))) /\
  (let store := settings (config_of ["win"] None None [] []) [] in
   let one :=
     self (@started reverse_order_runtime chzzk_commands store empty_threshold_key) in
   dkeys (keyword_patterns one) = [""; "win"] /\
   search (compile_keyword "win") "we win!" = true /\
   resolve_hit one "we win!" = Some "" /\
   attributed one "we win!" = None /\
   attributed one "we win now" = Some "win").
Proof.
  assert (Hp := first_pattern_hit_spec (keyword_patterns o) text).
  assert (Hc := first_contains_hit_spec (contains_keywords_list o) (lower text)).
  assert (Hsound : forall kw, attributed o text = Some kw ->
     kw <> "" /\
     ((exists pat, In (kw, pat) (keyword_patterns o) /\ search pat text = true) \/
      (In kw (contains_keywords_list o) /\ str_in kw (lower text) = true))).
  { intros kw. unfold attributed, resolve_hit.
    destruct (first_pattern_hit (keyword_patterns o) text) as [kw1|] eqn:Ep.
    - destruct Hp as (before & pat & after & E & Hm & _).
      cbn [truthy]. destruct (nonempty kw1) eqn:En; cbn [negb].
      + rewrite En. intro H. injection H as <-. split; [now apply nonempty_true|].
        left. exists pat. split; [|exact Hm]. rewrite E. apply in_or_app.
        right. now left.
      + destruct (first_contains_hit _ _) as [kw2|] eqn:Ec.
        * destruct Hc as (bc & ac & E' & Hm' & _).
          destruct (nonempty kw2) eqn:En2; [|discriminate].
          intro H. injection H as <-. split; [now apply nonempty_true|].
          right. split; [|exact Hm']. rewrite E'. apply in_or_app. right. now left.
        * rewrite En. discriminate.
    - cbn [truthy negb].
      destruct (first_contains_hit _ _) as [kw2|] eqn:Ec; [|discriminate].
      destruct Hc as (bc & ac & E' & Hm' & _).
      destruct (nonempty kw2) eqn:En2; [|discriminate].
      intro H. injection H as <-. split; [now apply nonempty_true|].
      right. split; [|exact Hm']. rewrite E'. apply in_or_app. right. now left. }
  assert (Hcomplete : attributed o text = None ->
     (Forall (fun kp => search (snd kp) text = false) (keyword_patterns o) \/
      exists pat, In ("", pat) (keyword_patterns o) /\ search pat text = true) /\
     (Forall (fun k => str_in k (lower text) = false) (contains_keywords_list o) \/
      In "" (contains_keywords_list o))).
  { unfold attributed, resolve_hit.
    destruct (first_pattern_hit (keyword_patterns o) text) as [kw1|] eqn:Ep.
    - destruct Hp as (before & pat & after & E & Hm & _).
      cbn [truthy]. destruct (nonempty kw1) eqn:En; cbn [negb].
      + rewrite En. discriminate.
      + apply nonempty_false in En. subst kw1.
        assert (Hempty : exists pat, In ("", pat) (keyword_patterns o) /\
                                     search pat text = true).
        { exists pat. split; [|exact Hm]. rewrite E. apply in_or_app.
          right. now left. }
        destruct (first_contains_hit _ _) as [kw2|] eqn:Ec.
        * destruct Hc as (bc & ac & E' & _ & _).
          destruct (nonempty kw2) eqn:En2; [discriminate|].
          apply nonempty_false in En2. subst kw2. intros _.
          split; [now right|]. right. rewrite E'. apply in_or_app. right. now left.
        * intros _. split; [now right | now left].
    - cbn [truthy negb].
      destruct (first_contains_hit _ _) as [kw2|] eqn:Ec.
      + destruct Hc as (bc & ac & E' & _ & _).
        destruct (nonempty kw2) eqn:En2; [discriminate|].
        apply nonempty_false in En2. subst kw2. intros _.
        split; [now left|]. right. rewrite E'. apply in_or_app. right. now left.
      + intros _. split; now left. }
  split; [exact Hsound|]. split; [exact Hcomplete|].
  split; [|split; [|split]].
  - intros Hpk Hck. split.
    + intro H. destruct (Hcomplete H) as [[H1|(pat & Hin & _)] [H2|Hin2]].
      * now split.
      * rewrite Forall_forall in Hck. now destruct (Hck _ Hin2).
      * rewrite Forall_forall in Hpk. now destruct (Hpk _ Hin).
      * rewrite Forall_forall in Hpk. now destruct (Hpk _ Hin).
    + intros [H1 H2]. destruct (attributed o text) as [kw|] eqn:E; [|reflexivity].
      destruct (Hsound kw eq_refl) as [_ [(pat & Hin & Hm)|[Hin Hm]]].
      * rewrite Forall_forall in H1. specialize (H1 _ Hin). simpl in H1. congruence.
      * rewrite Forall_forall in H2. specialize (H2 _ Hin). simpl in H2. congruence.
  - intros ct d nick ms now m <- Hk Hn Hms Hnow Hmsg.
    now apply process_chat_data_attributed.
  - intros config env stored_counts.
    rewrite init_fields_contains_order.
    apply Forall_forall. intros k Hk. apply In_first_occurrences in Hk.
    unfold MatchSpec.registered_contains in Hk. apply filter_In in Hk.
    now apply nonempty_true.
  - cbv zeta. repeat split; vm_compute; reflexivity.
Qed.

End PolicyTheorems.
(** *** The entries of a frame *)

Section Entries.
Context {RT : Runtime} {CMD : Commands}.

(** A loop that meets an entry on which its body raises goes no further. *)
Lemma for_each_raises {A} (body : A -> M unit) (l rest : list A) (bad : A) :
  (forall m, exists e, body bad m = (Raise e, m)) ->
  forall m,
    for_each (l ++ bad :: rest) body m = for_each (l ++ [bad]) body m /\
    exists e, fst (for_each (l ++ bad :: rest) body m) = Raise e.
Proof.
  intro Hbad. induction l as [|x r IH]; intro m.
  - cbn [app for_each]. unfold bind.
    destruct (Hbad m) as [e ->]. split; [reflexivity | now exists e].
  - cbn [app for_each]. unfold bind.
    destruct (body x m) as [[u|e] m1]; [apply IH|].
    split; [reflexivity | now exists e].
Qed.

Lemma process_chat_data_no_uid (ct : chat_type) (bad : pyval) (m : Machine) :
  (forall d, bad = PDict d -> dget d "uid" = None) ->
  exists e, process_chat_data ct bad m = (Raise e, m).
Proof.
  intro Hbad. unfold process_chat_data, resolve_nickname, bind, getitem.
  destruct bad as [| | | | |d];
    try (exists TypeError; reflexivity).
  rewrite (Hbad d eq_refl). now exists KeyError.
Qed.

(** X15.  An entry of a CHAT frame that has no ["uid"] makes the handling
    of the frame raise at that entry: the entries before it are handled,
    the entries after it are never looked at, so the frame has the same
    effect as if it had ended there.  The exception is the one the loop of
    [run] swallows before its next turn. *)
Theorem X15_malformed_entry_drops_the_rest (env : IterEnv)
    (entries rest : list pyval) (bad : pyval) (m : Machine)
    (Hbad : forall d, bad = PDict d -> dget d "uid" = None) :
  let frame := fun items => PDict [("cmd", PInt cmd_chat); ("bdy", PList items)] in
  dispatch env (Some (frame (entries ++ bad :: rest))) m
  = dispatch env (Some (frame (entries ++ [bad]))) m /\
  (_stop (self m) = false -> cmd_chat <> cmd_ping ->
   exists e, fst (dispatch env (Some (frame (entries ++ bad :: rest))) m) = Raise e).
Proof.
  intro frame.
  assert (Hloop := fun ct =>
    for_each_raises (process_chat_data ct) entries rest bad
      (fun m => process_chat_data_no_uid ct bad m Hbad)).
  destruct (Hloop Chat m) as [Heq [e He]].
  unfold dispatch, frame.
  unfold bind, get_self, getitem, ret, iter_items.
  cbn [dget String.eqb Ascii.eqb Bool.eqb eq_int].
  destruct (_stop (self m)) eqn:Es.
  - split; [reflexivity | discriminate].
  - destruct (cmd_chat =? cmd_ping) eqn:Ep.
    + split; [reflexivity|]. intros _ Hne. apply Z.eqb_eq in Ep. contradiction.
    + rewrite Z.eqb_refl. unfold ret. cbv beta iota. rewrite Heq.
      split; [reflexivity|].
      intros _ _. exists e. rewrite <- Heq.
      destruct (for_each (entries ++ bad :: rest) (process_chat_data Chat) m)
        as [[u|e'] m1]; simpl in *; congruence.
Qed.

Lemma json_loads_embedded_state (v : pyval) (m : Machine) :
  snd (json_loads_embedded v m) = m.
Proof. now destruct v. Qed.

Lemma as_number_state (v : pyval) (m : Machine) : snd (as_number v m) = m.
Proof. now destruct v. Qed.

Lemma getitem_state (v : pyval) (k : string) (m : Machine) :
  snd (getitem v k m) = m.
Proof.
  unfold getitem. destruct v as [| | | | |d]; try reflexivity.
  now destruct (dget d k).
Qed.

Lemma resolve_nickname_skips (d : dict pyval) (uid : pyval) (m : Machine) :
  dget d "uid" = Some uid -> eq_str uid "anonymous" = false ->
  dget d "profile" = None \/ dget d "msg" = None ->
  resolve_nickname (PDict d) m = (Ok None, m).
Proof.
  intros Huid Hanon Hmiss. unfold resolve_nickname.
  unfold bind at 1. unfold getitem at 1. rewrite Huid. unfold ret at 1.
  cbv beta iota. rewrite Hanon.
  unfold try_except.
  unfold bind at 1. unfold getitem at 1.
  destruct (dget d "profile") as [profile|] eqn:Ep; [|reflexivity].
  destruct Hmiss as [Hmiss|Hmiss]; [discriminate|].
  unfold ret at 1. cbv beta iota.
  unfold bind at 1.
  destruct (json_loads_embedded profile m) as [[pd|e] m1] eqn:Ej.
  - assert (m1 = m)
      by (generalize (json_loads_embedded_state profile m); now rewrite Ej).
    subst m1. unfold bind at 1.
    destruct (getitem pd "nickname" m) as [[nick|e] m1] eqn:Eg.
    + apply getitem_ok in Eg. destruct Eg as [-> _].
      unfold dmem. rewrite Hmiss. reflexivity.
    + assert (m1 = m)
        by (generalize (getitem_state pd "nickname" m); now rewrite Eg).
      now subst m1.
  - assert (m1 = m)
      by (generalize (json_loads_embedded_state profile m); now rewrite Ej).
    now subst m1.
Qed.

Lemma resolve_nickname_anonymous (d : dict pyval) (uid : pyval) (m : Machine) :
  dget d "uid" = Some uid -> eq_str uid "anonymous" = true ->
  resolve_nickname (PDict d) m = (Ok (Some AnonymousDonor), m).
Proof.
  intros Huid Hanon. unfold resolve_nickname.
  unfold bind at 1. unfold getitem at 1. rewrite Huid. unfold ret at 1.
  cbv beta iota. now rewrite Hanon.
Qed.

(** X16.  An entry of a named viewer that has no ["profile"] or no
    ["msg"] is skipped without a trace: nothing is logged, nothing is
    counted, and the entries that follow are handled.  The entry of an
    anonymous donor that has no ["msg"] is not skipped: it raises, which
    ends the handling of the frame. *)
Theorem X16_entries_without_message (ct : chat_type) (d : dict pyval)
    (uid : pyval) (m : Machine) (Huid : dget d "uid" = Some uid) :
  (eq_str uid "anonymous" = false ->
   dget d "profile" = None \/ dget d "msg" = None ->
   process_chat_data ct (PDict d) m = (Ok tt, m)) /\
  (eq_str uid "anonymous" = true -> dget d "msg" = None ->
   exists e, process_chat_data ct (PDict d) m = (Raise e, m)).
Proof.
  split.
  - intros Hanon Hmiss. unfold process_chat_data. unfold bind at 1.
    now rewrite (resolve_nickname_skips d uid m Huid Hanon Hmiss).
  - intros Hanon Hmiss. unfold process_chat_data. unfold bind at 1.
    rewrite (resolve_nickname_anonymous d uid m Huid Hanon).
    unfold bind at 1.
    destruct (getitem (PDict d) "msgTime" m) as [[t|e] m1] eqn:Et.
    + apply getitem_ok in Et. destruct Et as [-> _].
      unfold bind at 1.
      destruct (as_number t m) as [[ms|e] m1] eqn:En.
      * assert (m1 = m) by (generalize (as_number_state t m); now rewrite En).
        subst m1. unfold bind at 1.
        destruct (strftime ms) as [now|].
        -- unfold ret at 1. cbv beta iota.
           unfold bind at 1. unfold getitem. rewrite Hmiss.
           now exists KeyError.
        -- now exists ValueError.
      * assert (m1 = m) by (generalize (as_number_state t m); now rewrite En).
        subst m1. now exists e.
    + assert (m1 = m)
        by (generalize (getitem_state (PDict d) "msgTime" m); now rewrite Et).
      subst m1. now exists e.
Qed.

(** X17.  The duration written in a detection record is ["-"] when the
    start of the broadcast is not known; otherwise it is the number of
    whole seconds from the start of the broadcast to the message, and
    ["00:00:00"] for a message stamped before the start. *)
Theorem X17_duration_of_a_detection (o : ChzzkChat) (ms : Z) :
  (broadcast_start_timestamp o = None -> duration_text o ms = "-") /\
  (forall start,
     broadcast_start_timestamp o = Some start ->
     (start <= ts_of_ms ms)%Q ->
     duration_text o ms = format_duration (Qfloor (ts_of_ms ms - start))) /\
  (forall start,
     broadcast_start_timestamp o = Some start ->
     (ts_of_ms ms <= start)%Q ->
     duration_text o ms = "00:00:00").
Proof.
  unfold duration_text. split; [|split].
  - now intros ->.
  - intros start -> Hle. unfold int_of_Q.
    assert (H0 : (0 <= ts_of_ms ms - start)%Q).
    { apply (Qplus_le_r _ _ start). ring_simplify. exact Hle. }
    assert (Hb : Qle_bool (inject_Z 0) (ts_of_ms ms - start) = true)
      by now apply Qle_bool_iff.
    rewrite Hb.
    assert (Hf : 0 <= Qfloor (ts_of_ms ms - start)).
    { change 0 with (Qfloor (inject_Z 0)). now apply Qfloor_resp_le. }
    now rewrite Z.max_r.
  - intros start -> Hle. unfold int_of_Q.
    assert (H0 : (ts_of_ms ms - start <= 0)%Q).
    { apply (Qplus_le_r _ _ start). ring_simplify. exact Hle. }
    assert (Hmax : Z.max 0 (if Qle_bool (inject_Z 0) (ts_of_ms ms - start)
                            then Qfloor (ts_of_ms ms - start)
                            else Qceiling (ts_of_ms ms - start)) = 0).
    { apply Z.max_l.
      destruct (Qle_bool _ _).
      - change 0 with (Qfloor (inject_Z 0)). now apply Qfloor_resp_le.
      - change 0 with (Qceiling (inject_Z 0)). now apply Qceiling_resp_le. }
    rewrite Hmax. reflexivity.
Qed.

End Entries.
(** *** Splitting and joining text *)

Lemma split_nonempty (sep : ascii) (s : string) : split sep s <> [].
Proof.
  destruct s as [|c r]; simpl; [discriminate|].
  destruct (Ascii.eqb c sep); [discriminate|].
  destruct (split sep r); discriminate.
Qed.

(** A string without the separator is its own only segment. *)
Lemma split_free (sep : ascii) (s : string) :
  free_of (is_char sep) s -> split sep s = [s].
Proof.
  induction s as [|c r IH]; [reflexivity|].
  intro H. apply free_of_cons in H. destruct H as [Hc Hr].
  simpl. unfold is_char in Hc. rewrite Hc. now rewrite (IH Hr).
Qed.

(** The separator always separates. *)
Lemma split_app (sep : ascii) (a b : string) :
  split sep (a ++ String sep b)%string = split sep a ++ split sep b.
Proof.
  induction a as [|c r IH]; simpl.
  - now rewrite Ascii.eqb_refl.
  - destruct (Ascii.eqb c sep); [now rewrite IH|].
    rewrite IH. destruct (split sep r) as [|w ws] eqn:E; [|reflexivity].
    now apply split_nonempty in E.
Qed.

(** No segment holds the separator, and a segment holds nothing the string
    does not hold. *)
Lemma split_segments_free (sep : ascii) (s : string) :
  Forall (free_of (is_char sep)) (split sep s).
Proof.
  induction s as [|c r IH]; simpl.
  - repeat constructor.
  - destruct (Ascii.eqb c sep) eqn:E.
    + constructor; [apply free_of_empty | exact IH].
    + destruct (split sep r) as [|w ws]; [repeat constructor; exact E|].
      inversion IH; subst. constructor; [|assumption].
      apply free_of_cons. now split.
Qed.

Lemma split_keeps_free (p : ascii -> bool) (sep : ascii) (s : string) :
  free_of p s -> Forall (free_of p) (split sep s).
Proof.
  induction s as [|c r IH]; simpl; intro H.
  - repeat constructor.
  - apply free_of_cons in H. destruct H as [Hc Hr]. specialize (IH Hr).
    destruct (Ascii.eqb c sep).
    + constructor; [apply free_of_empty | exact IH].
    + destruct (split sep r) as [|w ws]; [repeat constructor; exact Hc|].
      inversion IH; subst. constructor; [|assumption].
      apply free_of_cons. now split.
Qed.

Lemma lstrip_keeps_free (p : ascii -> bool) (s : string) :
  free_of p s -> free_of p (lstrip s).
Proof.
  induction s as [|c r IH]; simpl; intro H; [exact H|].
  destruct (is_space c); [|exact H].
  apply IH. now apply free_of_cons in H.
Qed.

Lemma rstrip_keeps_free (p : ascii -> bool) (s : string) :
  free_of p s -> free_of p (rstrip s).
Proof.
  induction s as [|c r IH]; simpl; intro H; [exact H|].
  apply free_of_cons in H. destruct H as [Hc Hr]. specialize (IH Hr).
  destruct (rstrip r) as [|c' r'].
  - destruct (is_space c); [apply free_of_empty|].
    apply free_of_cons. split; [exact Hc | apply free_of_empty].
  - apply free_of_cons. now split.
Qed.

Lemma strip_keeps_free (p : ascii -> bool) (s : string) :
  free_of p s -> free_of p (strip s).
Proof. intro H. unfold strip. now apply rstrip_keeps_free, lstrip_keeps_free. Qed.

(** [c in s] is false for a string that does not hold [c]. *)
Lemma str_in_char_free (c : ascii) (s : string) :
  free_of (is_char c) s -> str_in (String c EmptyString) s = false.
Proof.
  induction s as [|x r IH]; intro H; [reflexivity|].
  apply free_of_cons in H. destruct H as [Hx Hr].
  cbn [str_in String.prefix]. unfold is_char in Hx.
  destruct (ascii_dec c x) as [->|Hne].
  - now rewrite Ascii.eqb_refl in Hx.
  - now apply IH.
Qed.

Lemma Forall_nth_free (p : ascii -> bool) (l : list string) (i : nat) :
  Forall (free_of p) l -> free_of p (nth i l EmptyString).
Proof.
  intro H. revert i. induction H as [|x r Hx Hr IH]; intro i.
  - destruct i; apply free_of_empty.
  - destruct i; [exact Hx | apply IH].
Qed.

Lemma join_cons (sep x y : string) (r : list string) :
  join sep (x :: y :: r) = (x ++ sep ++ join sep (y :: r))%string.
Proof. reflexivity. Qed.

Lemma strip_space_head (s : string) : strip (String " " s) = strip s.
Proof. reflexivity. Qed.

Lemma stripped_segments_app (sep : ascii) (a b : string) :
  Gui.stripped_segments sep (a ++ String sep b)%string
  = Gui.stripped_segments sep a ++ Gui.stripped_segments sep b.
Proof.
  unfold Gui.stripped_segments. now rewrite split_app, filter_app, map_app.
Qed.

Lemma stripped_segments_one (sep : ascii) (s : string) :
  free_of (is_char sep) s -> nonempty (strip s) = true ->
  Gui.stripped_segments sep s = [strip s].
Proof.
  intros Hf Hn. unfold Gui.stripped_segments. rewrite split_free by exact Hf.
  simpl. now rewrite Hn.
Qed.

(** White-space splitting. *)

Lemma split_ws_head (c : ascii) (r : string) :
  is_space c = false -> split_ws (String c r) <> [].
Proof.
  intro H. simpl. rewrite H. destruct r as [|c' r']; [discriminate|].
  destruct (is_space c'); [discriminate|].
  destruct (split_ws (String c' r')); discriminate.
Qed.

(** White space always separates. *)
Lemma split_ws_app (a b : string) (c : ascii) :
  is_space c = true ->
  split_ws (a ++ String c b)%string = split_ws a ++ split_ws b.
Proof.
  intro Hc. induction a as [|x r IH].
  - simpl. now rewrite Hc.
  - cbn [String.append]. cbn [split_ws].
    destruct (is_space x) eqn:Ex; [exact IH|].
    destruct r as [|x' r'].
    + cbn [String.append split_ws]. rewrite Hc. reflexivity.
    + cbn [String.append] in *.
      destruct (is_space x') eqn:Ex'.
      * now rewrite IH.
      * rewrite IH.
        destruct (split_ws (String x' r')) as [|w ws] eqn:E; [|reflexivity].
        now apply split_ws_head in E.
Qed.

(** A non-empty string without white space is its own only word. *)
Lemma split_ws_word (w : string) :
  w <> "" -> free_of is_space w -> split_ws w = [w].
Proof.
  induction w as [|c r IH]; [congruence|].
  intros _ H. apply free_of_cons in H. destruct H as [Hc Hr].
  cbn [split_ws]. rewrite Hc.
  destruct r as [|c' r']; [reflexivity|].
  assert (Hc' : is_space c' = false) by now apply free_of_cons in Hr.
  rewrite Hc'. rewrite IH; [reflexivity | discriminate | exact Hr].
Qed.

(** The words are not empty, hold no white space, and hold nothing the
    string does not hold. *)
Lemma split_ws_words (p : ascii -> bool) (s : string) :
  free_of p s ->
  Forall (fun w => w <> "" /\ free_of is_space w /\ free_of p w) (split_ws s).
Proof.
  induction s as [|c r IH]; intro H; [constructor|].
  apply free_of_cons in H. destruct H as [Hc Hr]. specialize (IH Hr).
  cbn [split_ws]. destruct (is_space c) eqn:Ec; [exact IH|].
  assert (Hone : String c "" <> "" /\ free_of is_space (String c "") /\
                 free_of p (String c "")).
  { split; [discriminate|].
    split; apply free_of_cons; (split; [assumption | apply free_of_empty]). }
  destruct r as [|c' r']; [now repeat constructor|].
  destruct (is_space c'); [now constructor|].
  destruct (split_ws (String c' r')) as [|w ws]; [now repeat constructor|].
  inversion IH as [|? ? (Hw1 & Hw2 & Hw3) Hws]; subst.
  constructor; [|exact Hws].
  split; [discriminate|].
  split; apply free_of_cons; now split.
Qed.

Lemma replace_free (a b : ascii) (s : string) :
  Ascii.eqb b a = false -> free_of (is_char a) (Text.replace a b s).
Proof.
  intro H. induction s as [|c r IH]; [apply free_of_empty|].
  simpl. apply free_of_cons. split; [|exact IH].
  unfold is_char. destruct (Ascii.eqb c a) eqn:E; [exact H | exact E].
Qed.

Lemma replace_keeps_free (p : ascii -> bool) (a b : ascii) (s : string) :
  p b = false -> free_of p s -> free_of p (Text.replace a b s).
Proof.
  intros Hb. induction s as [|c r IH]; intro H; [apply free_of_empty|].
  apply free_of_cons in H. destruct H as [Hc Hr].
  simpl. apply free_of_cons. split; [|now apply IH].
  now destruct (Ascii.eqb c a).
Qed.

Lemma replace_app (a b : ascii) (s t : string) :
  Text.replace a b (s ++ t)%string
  = (Text.replace a b s ++ Text.replace a b t)%string.
Proof. induction s as [|c r IH]; simpl; [reflexivity | now rewrite IH]. Qed.

Lemma replace_fixed (a b : ascii) (s : string) :
  free_of (is_char a) s -> Text.replace a b s = s.
Proof.
  induction s as [|c r IH]; [reflexivity|].
  intro H. apply free_of_cons in H. destruct H as [Hc Hr].
  simpl. unfold is_char in Hc. rewrite Hc. now rewrite IH.
Qed.
Import Gui GuiSpec.

(** *** The keyword field *)

Section KeywordField.
Context {RT : Runtime}.

Lemma free_of_orb_l (p q : ascii -> bool) (s : string) :
  free_of (fun c => p c || q c) s -> free_of p s.
Proof.
  apply free_of_weaken. intros c H. now apply orb_false_iff in H.
Qed.

Lemma free_of_orb_r (p q : ascii -> bool) (s : string) :
  free_of (fun c => p c || q c) s -> free_of q s.
Proof.
  apply free_of_weaken. intros c H. now apply orb_false_iff in H.
Qed.

Lemma free_of_orb (p q : ascii -> bool) (s : string) :
  free_of p s -> free_of q s -> free_of (fun c => p c || q c) s.
Proof.
  unfold free_of. intros Hp Hq.
  induction (list_ascii_of_string s) as [|c r IH]; [constructor|].
  inversion Hp; inversion Hq; subst. constructor; [|now apply IH].
  apply orb_false_iff. now split.
Qed.

Lemma token_parts (w : string) :
  token w <->
  w <> "" /\ free_of is_space w /\ free_of (is_char ",") w /\
  free_of (is_char "/") w.
Proof.
  unfold token, is_keyword_separator. split.
  - intros [Hne H]. split; [exact Hne|].
    split; [|split].
    + eapply free_of_orb_l, free_of_orb_l. exact H.
    + eapply free_of_orb_r, free_of_orb_l. exact H.
    + eapply (free_of_orb_r _ _ _ H).
  - intros (Hne & H1 & H2 & H3). split; [exact Hne|].
    apply free_of_orb; [apply free_of_orb|]; assumption.
Qed.

Lemma strip_words (l : list string) :
  Forall (fun w => w <> "" /\ free_of is_space w) l ->
  map strip (filter (fun seg => nonempty (strip seg)) l) = l.
Proof.
  induction 1 as [|w r [Hne Hf] Hr IH]; [reflexivity|].
  simpl. rewrite (strip_free w Hf).
  apply nonempty_true in Hne. rewrite Hne. simpl.
  now rewrite (strip_free w Hf), IH.
Qed.

(** [_parse_keywords] cuts the text at white space, commas and slashes. *)
Lemma parse_keywords_words (text : string) :
  _parse_keywords text
  = split_ws (Text.replace "/" " " (Text.replace "," " " text)).
Proof.
  unfold _parse_keywords. destruct text as [|c r]; [reflexivity|].
  cbn [nonempty negb]. apply strip_words.
  eapply Forall_impl; [|apply (split_ws_words (fun _ => false))].
  - intros w (H1 & H2 & _). now split.
  - unfold free_of. apply Forall_forall. reflexivity.
Qed.

Lemma parse_keywords_tokens (text : string) : Forall token (_parse_keywords text).
Proof.
  rewrite parse_keywords_words.
  eapply Forall_impl;
    [|apply (split_ws_words (fun c => is_char "," c || is_char "/" c))].
  - intros w (H1 & H2 & H3). apply token_parts.
    split; [exact H1|]. split; [exact H2|].
    split; [eapply free_of_orb_l | eapply free_of_orb_r]; exact H3.
  - apply free_of_orb.
    + apply replace_keeps_free; [reflexivity|]. now apply replace_free.
    + now apply replace_free.
Qed.

Lemma free_of_join (p : ascii -> bool) (sep : string) (l : list string) :
  free_of p sep -> Forall (free_of p) l -> free_of p (join sep l).
Proof.
  intros Hsep H. induction H as [|x r Hx Hr IH]; [apply free_of_empty|].
  destruct r as [|y r']; [exact Hx|].
  rewrite join_cons. apply free_of_app. split; [exact Hx|].
  apply free_of_app. now split.
Qed.

Lemma split_ws_join (l : list string) :
  Forall (fun w => w <> "" /\ free_of is_space w) l ->
  split_ws (join " " l) = l.
Proof.
  induction 1 as [|w r [Hne Hf] Hr IH]; [reflexivity|].
  destruct r as [|y r']; [now apply split_ws_word|].
  rewrite join_cons. cbn [String.append].
  change (w ++ String " " (join " " (y :: r')))%string
    with (w ++ String " " (join " " (y :: r')))%string.
  rewrite split_ws_app by reflexivity.
  rewrite IH. now rewrite split_ws_word.
Qed.

Lemma parse_keywords_join (l : list string) :
  Forall token l -> _parse_keywords (join " " l) = l.
Proof.
  intro H. rewrite parse_keywords_words.
  assert (Hparts : Forall (fun w => w <> "" /\ free_of is_space w /\
                                    free_of (is_char ",") w /\
                                    free_of (is_char "/") w) l).
  { eapply Forall_impl; [|exact H]. intros w Hw. now apply token_parts. }
  rewrite (replace_fixed "," " ").
  - rewrite (replace_fixed "/" " ").
    + apply split_ws_join. eapply Forall_impl; [|exact Hparts].
      intros w (H1 & H2 & _). now split.
    + apply free_of_join; [repeat constructor|].
      eapply Forall_impl; [|exact Hparts]. now intros w (_ & _ & _ & H4).
  - apply free_of_join; [repeat constructor|].
    eapply Forall_impl; [|exact Hparts]. now intros w (_ & _ & H3 & _).
Qed.

Lemma parse_keywords_app (a b : string) (c : ascii) :
  is_keyword_separator c = true ->
  _parse_keywords (a ++ String c b)%string
  = _parse_keywords a ++ _parse_keywords b.
Proof.
  intro Hc. rewrite !parse_keywords_words, !replace_app. cbn [Text.replace].
  apply split_ws_app.
  unfold is_keyword_separator, is_char in Hc.
  destruct (Ascii.eqb c ",") eqn:E1; [reflexivity|].
  destruct (Ascii.eqb c "/") eqn:E2; [reflexivity|].
  now rewrite !orb_false_r in Hc.
Qed.

(** X18.  [_parse_keywords] cuts the text at white space, commas and
    slashes: every keyword it returns is not empty and holds none of
    these; any of them between two texts separates the keywords of the one
    from those of the other; and keywords joined by single spaces, as the
    window shows them, are read back as they were. *)
Theorem X18_parse_keywords (text : string) :
  Forall token (_parse_keywords text) /\
  (forall a b c,
     is_keyword_separator c = true ->
     _parse_keywords (a ++ String c b)%string
     = _parse_keywords a ++ _parse_keywords b) /\
  (forall l, Forall token l -> _parse_keywords (join " " l) = l).
Proof.
  split; [apply parse_keywords_tokens|].
  split; [exact parse_keywords_app | exact parse_keywords_join].
Qed.

(** *** Numbers typed in a field *)

Lemma positive_int_ge (text : pyval) (default : Z) :
  1 <= default -> 1 <= _positive_int text default.
Proof.
  intro H. unfold _positive_int.
  assert (Hstr : forall s,
            1 <= (if isdigit s then
                    match int_of_str s with
                    | Some value => if 1 <=? value then value else default
                    | None => default
                    end
                  else default)).
  { intro s. destruct (isdigit s); [|exact H].
    destruct (int_of_str s) as [v|]; [|exact H].
    destruct (1 <=? v) eqn:E; [now apply Z.leb_le | exact H]. }
  destruct text as [|b|z|s|l|d]; try apply Hstr.
  - destruct b; simpl; [lia | exact H].
  - destruct (1 <=? z) eqn:E; [now apply Z.leb_le | exact H].
Qed.

Lemma positive_int_of_text (n default : Z) :
  1 <= n -> _positive_int (PStr (str_of_int n)) default = n.
Proof.
  intro H. unfold _positive_int.
  destruct (int_of_str_of_int n) as [Hi Hd]; [lia|].
  assert (Hne : nonempty (str_of_int n) = true).
  { unfold isdigit in Hd. now apply andb_true_iff in Hd. }
  cbn [as_bool]. rewrite Hne. cbn [str].
  assert (Hs : strip (str_of_int n) = str_of_int n).
  { apply strip_free. apply all_digits_free_of; [exact is_digit_not_space|].
    unfold isdigit in Hd. now apply andb_true_iff in Hd. }
  rewrite Hs, Hd, Hi. apply Z.leb_le in H. now rewrite H.
Qed.

Lemma positive_int_of_int (n default : Z) :
  1 <= n -> _positive_int (PInt n) default = n.
Proof. intro H. unfold _positive_int. apply Z.leb_le in H. now rewrite H. Qed.



End KeywordField.
(** *** The Contains field and the keyword field *)

Section Fields.
Context {RT : Runtime}.

(** The parts of a segment hold no comma. *)
Lemma segment_parts_free (text : string) :
  Forall (fun segment =>
            Forall (free_of (is_char ",")) (map strip (split ":" segment)))
         (stripped_segments "," text).
Proof.
  unfold stripped_segments.
  assert (H := split_segments_free "," text).
  induction H as [|seg r Hseg Hr IH]; [constructor|].
  simpl. destruct (nonempty (strip seg)); [|exact IH].
  constructor; [|exact IH].
  apply Forall_forall. intros p Hp. apply in_map_iff in Hp.
  destruct Hp as (q & <- & Hq). apply strip_keeps_free.
  assert (Hs := split_keeps_free (is_char ",") ":" (strip seg)
                  (strip_keeps_free _ _ Hseg)).
  rewrite Forall_forall in Hs. now apply Hs.
Qed.

(** Without a comma in the parts, the threshold part and the window part
    are the second and the third part as they stand. *)
Lemma threshold_window_parts_plain (parts : list string) :
  Forall (free_of (is_char ",")) parts ->
  threshold_window_parts parts = (part parts 1, part parts 2).
Proof.
  intro H. unfold threshold_window_parts.
  assert (H1 : str_in "," (part parts 1) = false)
    by (apply str_in_char_free; now apply Forall_nth_free).
  assert (H2 : str_in "," (part parts 2) = false)
    by (apply str_in_char_free; now apply Forall_nth_free).
  rewrite H1, andb_false_r. cbn [andb]. now rewrite H2, andb_false_r.
Qed.

Lemma parse_contains_entries_app (a b : string) (dt dw : Z) :
  _parse_contains_entries (a ++ String "," b)%string dt dw
  = _parse_contains_entries a dt dw ++ _parse_contains_entries b dt dw.
Proof.
  unfold _parse_contains_entries.
  now rewrite stripped_segments_app, flat_map_app.
Qed.

(** X20.  In both parsers a comma always ends a segment, so no part of a
    segment ever holds one: the branch that is meant to read
    ["keyword:threshold,window"] is never taken, and the threshold and the
    window are the second and the third part as they stand.  The Contains
    parser therefore reads a text with a comma in it as the entries before
    the comma followed by the entries after it, and ["kw:3,30"] as the two
    entries ["kw"] with threshold 3 and ["30"] with the defaults. *)
Theorem X20_comma_always_separates (text : string) (dt dw : Z) :
  Forall (fun segment =>
            let parts := map strip (split ":" segment) in
            threshold_window_parts parts = (part parts 1, part parts 2))
         (stripped_segments "," text) /\
  (forall a b,
     _parse_contains_entries (a ++ String "," b)%string dt dw
     = _parse_contains_entries a dt dw ++ _parse_contains_entries b dt dw) /\
  _parse_contains_entries "kw:3,30" dt dw
  = [{| keyword := "kw"; threshold := 3; window := dw |};
     {| keyword := "30"; threshold := dt; window := dw |}].
Proof.
  split; [|split].
  - eapply Forall_impl; [|apply segment_parts_free].
    intros segment H. now apply threshold_window_parts_plain.
  - intros a b. apply parse_contains_entries_app.
  - reflexivity.
Qed.

End Fields.
(** *** Printing the Contains field and reading it back *)

Section ContainsField.
Context {RT : Runtime}.

Lemma lstrip_length (s : string) : (String.length (lstrip s) <= String.length s)%nat.
Proof.
  induction s as [|c r IH]; simpl; [lia|].
  destruct (is_space c); simpl; lia.
Qed.

Lemma rstrip_length (s : string) : (String.length (rstrip s) <= String.length s)%nat.
Proof.
  induction s as [|c r IH]; simpl; [lia|].
  destruct (rstrip r) as [|c' r'].
  - destruct (is_space c); simpl; lia.
  - simpl in *. lia.
Qed.

(** A stripped string starts with a character that is not white space. *)
Lemma stripped_head (a : string) :
  StoreSpec.stripped a ->
  exists c r, a = String c r /\ is_space c = false.
Proof.
  intros [Hs Hne]. destruct a as [|c r]; [congruence|].
  exists c, r. split; [reflexivity|].
  destruct (is_space c) eqn:E; [|reflexivity].
  exfalso. unfold strip in Hs. simpl in Hs. rewrite E in Hs.
  assert (H1 := rstrip_length (lstrip r)). assert (H2 := lstrip_length r).
  rewrite Hs in H1. simpl in H1. lia.
Qed.

Lemma rstrip_app (a b : string) :
  b <> "" -> rstrip b = b -> rstrip (a ++ b)%string = (a ++ b)%string.
Proof.
  intros Hne Hb. induction a as [|c r IH]; [exact Hb|].
  cbn [String.append rstrip]. rewrite IH.
  destruct (r ++ b)%string eqn:E; [|reflexivity].
  destruct r; simpl in E; congruence.
Qed.

(** A text that starts with a character that is not white space and ends
    with a text [rstrip] leaves alone is left alone by [strip]. *)
Lemma strip_fixed_ends (c : ascii) (r b : string) :
  is_space c = false -> b <> "" -> rstrip b = b ->
  strip (String c r ++ b)%string = (String c r ++ b)%string.
Proof.
  intros Hc Hne Hb. unfold strip. rewrite lstrip_fixed by exact Hc.
  now apply rstrip_app.
Qed.

Lemma digits_text (n : Z) :
  0 <= n ->
  str_of_int n <> "" /\
  (forall p, (forall c, is_digit c = true -> p c = false) ->
             free_of p (str_of_int n)).
Proof.
  intro H. destruct (int_of_str_of_int n H) as [_ Hd].
  unfold isdigit in Hd. apply andb_true_iff in Hd. destruct Hd as [Hne Hall].
  split; [now apply nonempty_true|].
  intros p Hp. now apply all_digits_free_of.
Qed.

Lemma is_digit_not_comma (c : ascii) : is_digit c = true -> is_char "," c = false.
Proof.
  unfold is_char. intro H. destruct (Ascii.eqb c ",") eqn:E; [|reflexivity].
  apply Ascii.eqb_eq in E. subst c. discriminate.
Qed.

Lemma is_digit_not_colon (c : ascii) : is_digit c = true -> is_char ":" c = false.
Proof.
  unfold is_char. intro H. destruct (Ascii.eqb c ":") eqn:E; [|reflexivity].
  apply Ascii.eqb_eq in E. subst c. discriminate.
Qed.

(** The text of a field made of a head and two numbers: it is stripped,
    holds no comma if the head holds none, and its parts are the head and
    the two numbers. *)
Lemma field_text (head : string) (thr win : Z) :
  0 <= thr -> 0 <= win ->
  strip head = head -> free_of is_field_separator head ->
  let text := (head ++ ":" ++ str_of_int thr ++ ":" ++ str_of_int win)%string in
  strip text = text /\ text <> "" /\ free_of (is_char ",") text /\
  map strip (split ":" text) = [head; str_of_int thr; str_of_int win].
Proof.
  intros Hthr Hwin Hs Hf text.
  destruct (digits_text thr Hthr) as [Ht1 Ht2].
  destruct (digits_text win Hwin) as [Hw1 Hw2].
  assert (Hfc : free_of (is_char ",") head) by (eapply free_of_orb_l; exact Hf).
  assert (Hfk : free_of (is_char ":") head) by (eapply free_of_orb_r; exact Hf).
  assert (Htail : rstrip (":" ++ str_of_int thr ++ ":" ++ str_of_int win)%string
                  = (":" ++ str_of_int thr ++ ":" ++ str_of_int win)%string).
  { change (":" ++ str_of_int thr ++ ":" ++ str_of_int win)%string
      with ((String ":" EmptyString) ++ (str_of_int thr ++ ":" ++ str_of_int win))%string.
    apply rstrip_app.
    - destruct (str_of_int thr); [congruence | discriminate].
    - apply rstrip_app.
      + discriminate.
      + change (":" ++ str_of_int win)%string
          with ((String ":" EmptyString) ++ str_of_int win)%string.
        apply rstrip_app; [exact Hw1|].
        apply rstrip_free, Hw2. exact is_digit_not_space. }
  split; [|split; [|split]].
  - unfold text. destruct head as [|c r].
    + cbn [String.append]. unfold strip. rewrite lstrip_fixed by reflexivity.
      exact Htail.
    + assert (Hc : is_space c = false).
      { destruct (stripped_head (String c r)) as (c' & r' & E & Hc');
          [split; [exact Hs | discriminate]|].
        now injection E as <- _. }
      apply strip_fixed_ends; [exact Hc | discriminate | exact Htail].
  - unfold text. destruct head; discriminate.
  - unfold text. apply free_of_app. split; [exact Hfc|].
    apply free_of_cons. split; [reflexivity|].
    apply free_of_app. split; [apply Ht2, is_digit_not_comma|].
    apply free_of_cons. split; [reflexivity|].
    apply Hw2, is_digit_not_comma.
  - unfold text. cbn [String.append].
    rewrite split_app, (split_free ":" head) by exact Hfk.
    rewrite split_app, (split_free ":" (str_of_int thr))
      by (apply Ht2, is_digit_not_colon).
    rewrite (split_free ":" (str_of_int win)) by (apply Hw2, is_digit_not_colon).
    cbn [app map]. rewrite Hs.
    rewrite !strip_free by (first [apply Ht2 | apply Hw2]; exact is_digit_not_space).
    reflexivity.
Qed.

(** Segments joined by a comma and a space are read back as they were. *)
Lemma stripped_segments_join (segs : list string) :
  Forall (fun s => strip s = s /\ s <> "" /\ free_of (is_char ",") s) segs ->
  stripped_segments "," (join ", " segs) = segs.
Proof.
  intro H.
  assert (Hgen : forall pre, pre = "" \/ pre = " " -> segs <> [] ->
            stripped_segments "," (pre ++ join ", " segs)%string = segs).
  { induction H as [|s r (Hs & Hne & Hf) Hr IH]; intros pre Hpre Hnil;
      [congruence|].
    assert (Hone : stripped_segments "," (pre ++ s)%string = [s]).
    { assert (Hstrip : strip (pre ++ s)%string = s).
      { destruct Hpre as [-> | ->]; cbn [String.append];
          [exact Hs | now rewrite strip_space_head]. }
      rewrite stripped_segments_one; [now rewrite Hstrip | |].
      - destruct Hpre as [-> | ->]; cbn [String.append]; [exact Hf|].
        apply free_of_cons. now split.
      - rewrite Hstrip. now apply nonempty_true. }
    destruct r as [|y r']; [exact Hone|].
    rewrite join_cons. cbn [String.append].
    replace (pre ++ s ++ String "," (String " " (join ", " (y :: r'))))%string
      with ((pre ++ s) ++ String "," (" " ++ join ", " (y :: r')))%string
      by (now rewrite string_app_assoc).
    rewrite stripped_segments_app, Hone.
    rewrite IH; [reflexivity | now right | discriminate]. }
  destruct segs as [|s r]; [reflexivity|].
  apply (Hgen ""); [now left | discriminate].
Qed.

Lemma contains_segment_of_printable (e : ContainsEntry) :
  printable e ->
  contains_segment_of e
  = [(keyword e ++ ":" ++ str_of_int (threshold e) ++ ":"
        ++ str_of_int (window e))%string].
Proof.
  intros [((Hs & Hne) & Ht & Hw) _]. unfold contains_segment_of.
  rewrite Hs. apply nonempty_true in Hne. rewrite Hne. cbn [negb].
  now rewrite !positive_int_of_int.
Qed.

Lemma contains_entry_of_segment (e : ContainsEntry) (dt dw : Z) :
  printable e ->
  contains_entry_of dt dw
    (keyword e ++ ":" ++ str_of_int (threshold e) ++ ":"
       ++ str_of_int (window e))%string
  = [e].
Proof.
  intros [((Hs & Hne) & Ht & Hw) Hf].
  destruct (field_text (keyword e) (threshold e) (window e))
    as (_ & _ & Hc & Hparts); [lia | lia | exact Hs | exact Hf |].
  unfold contains_entry_of. rewrite Hparts.
  apply nonempty_true in Hne. rewrite Hne. cbn [negb].
  rewrite threshold_window_parts_plain.
  - cbn [part nth]. rewrite !positive_int_of_text by assumption.
    now destruct e.
  - rewrite <- Hparts. apply Forall_forall. intros p Hp.
    apply in_map_iff in Hp. destruct Hp as (q & <- & Hq).
    apply strip_keeps_free.
    assert (H := split_keeps_free (is_char ",") ":" _ Hc).
    rewrite Forall_forall in H. now apply H.
Qed.

(** X21.  The Contains field is printed and read back without loss: for
    entries whose keyword is stripped, not empty and free of commas and
    colons, and whose threshold and window are at least 1 (the form in
    which the window prints them), [_parse_contains_entries] returns from
    the text of [_format_contains_entries] the entries themselves, in
    order, whatever the defaults. *)
Theorem X21_contains_field_round_trip (entries : list ContainsEntry)
    (dt dw : Z) (Hentries : Forall printable entries) :
  _parse_contains_entries (_format_contains_entries entries) dt dw = entries.
Proof.
  set (seg := fun e : ContainsEntry =>
                (keyword e ++ ":" ++ str_of_int (threshold e) ++ ":"
                   ++ str_of_int (window e))%string).
  assert (Hfmt : _format_contains_entries entries = join ", " (map seg entries)).
  { unfold _format_contains_entries.
    assert (Hmap : flat_map contains_segment_of entries = map seg entries).
    { induction Hentries as [|e r He Hr IH]; [reflexivity|].
      simpl. rewrite (contains_segment_of_printable e He), IH. reflexivity. }
    rewrite Hmap. now destruct entries. }
  rewrite Hfmt. unfold _parse_contains_entries.
  rewrite stripped_segments_join.
  - clear Hfmt. induction Hentries as [|e r He Hr IH]; [reflexivity|].
    simpl. unfold seg at 1. rewrite (contains_entry_of_segment e dt dw He).
    simpl. f_equal. exact IH.
  - apply Forall_forall. intros s Hin. apply in_map_iff in Hin.
    destruct Hin as (e & <- & He). rewrite Forall_forall in Hentries.
    destruct (Hentries e He) as [((Hs & Hne) & Ht & Hw) Hf].
    destruct (field_text (keyword e) (threshold e) (window e))
      as (H1 & H2 & H3 & _); [lia | lia | exact Hs | exact Hf |].
    now repeat split.
Qed.

End ContainsField.
(** *** The keyword field read back, and what the window saves *)

Section Window.
Context {RT : Runtime}.

Lemma token_stripped (w : string) : token w -> StoreSpec.stripped w.
Proof.
  intro H. apply token_parts in H. destruct H as (Hne & Hsp & _).
  split; [now apply strip_free | exact Hne].
Qed.

Lemma tokens_joined (l : list string) :
  Forall token l ->
  strip (join " " l) = join " " l /\ (l <> [] -> join " " l <> "").
Proof.
  intro H.
  assert (Hr : rstrip (join " " l) = join " " l /\ (l <> [] -> join " " l <> "")).
  { induction H as [|w r Hw Hr IH]; [split; [reflexivity | congruence]|].
    apply token_parts in Hw. destruct Hw as (Hne & Hsp & _).
    destruct r as [|y r'].
    - split; [now apply rstrip_free | now intros _].
    - destruct IH as [IH1 IH2]. rewrite join_cons. split.
      + apply rstrip_app.
        * discriminate.
        * change (" " ++ join " " (y :: r'))%string
            with (String " " EmptyString ++ join " " (y :: r'))%string.
          apply rstrip_app; [apply IH2; discriminate | exact IH1].
      + intros _. destruct w; [congruence | discriminate]. }
  destruct Hr as [Hr1 Hr2]. split; [|exact Hr2].
  unfold strip. rewrite lstrip_fixed; [exact Hr1|].
  destruct H as [|w r Hw Hr]; [exact I|].
  apply token_parts in Hw. destruct Hw as (Hne & Hsp & _).
  destruct w as [|c w']; [congruence|].
  apply free_of_cons in Hsp. destruct Hsp as [Hc _].
  now destruct r.
Qed.

Lemma combo_value_text (kws : list string) (thr win : Z) :
  combo_value kws thr win
  = (join " " kws ++ ":" ++ str_of_int thr ++ ":" ++ str_of_int win)%string.
Proof. reflexivity. Qed.

(** X22.  The keyword field is printed and read back without loss: from
    the text the window shows for keywords that hold no separator and no
    colon, a threshold and a window that are at least 1, [_parse_combo]
    returns these keywords, this threshold and this window, whatever the
    defaults. *)
Theorem X22_keyword_field_round_trip (kws : list string) (thr win dt dw : Z)
    (Hkws : Forall (fun w => token w /\ free_of (is_char ":") w) kws)
    (Hthr : 1 <= thr) (Hwin : 1 <= win) :
  _parse_combo (combo_value kws thr win) dt dw = (kws, thr, win).
Proof.
  assert (Htok : Forall token kws).
  { eapply Forall_impl; [|exact Hkws]. now intros w [H _]. }
  destruct (tokens_joined kws Htok) as [Hstrip Hne].
  assert (Hfree : free_of is_field_separator (join " " kws)).
  { apply free_of_join; [repeat constructor|].
    eapply Forall_impl; [|exact Hkws]. intros w [Hw Hc].
    apply token_parts in Hw. destruct Hw as (_ & _ & Hcomma & _).
    now apply free_of_orb. }
  destruct (field_text (join " " kws) thr win) as (H1 & H2 & H3 & H4);
    [lia | lia | exact Hstrip | exact Hfree |].
  rewrite combo_value_text. unfold _parse_combo.
  rewrite stripped_segments_one;
    [|exact H3 | rewrite H1; now apply nonempty_true].
  rewrite H1. cbn [fold_left]. unfold combo_step. rewrite H4.
  rewrite threshold_window_parts_plain.
  - cbn [part nth].
    destruct (digits_text thr) as [Ht _]; [lia|].
    destruct (digits_text win) as [Hw _]; [lia|].
    apply nonempty_true in Ht. apply nonempty_true in Hw.
    rewrite Ht, Hw, !positive_int_of_text by assumption.
    destruct (nonempty (join " " kws)) eqn:En.
    + now rewrite parse_keywords_join.
    + apply nonempty_false in En. destruct kws as [|w r]; [reflexivity|].
      exfalso. apply Hne; [discriminate | exact En].
  - rewrite <- H4. apply Forall_forall. intros p Hp.
    apply in_map_iff in Hp. destruct Hp as (q & <- & Hq).
    apply strip_keeps_free.
    assert (H := split_keeps_free (is_char ",") ":" _ H3).
    rewrite Forall_forall in H. now apply H.
Qed.

Lemma combo_step_ok (st : list string * Z * Z) (segment : string) :
  Forall token (fst (fst st)) /\ 1 <= snd (fst st) /\ 1 <= snd st ->
  Forall token (fst (fst (combo_step st segment))) /\
  1 <= snd (fst (combo_step st segment)) /\
  1 <= snd (combo_step st segment).
Proof.
  destruct st as [[keywords threshold] window]. cbn [fst snd].
  intros (Hk & Ht & Hw). unfold combo_step.
  destruct (map strip (split ":" segment)) as [|kws_part rest]; [now repeat split|].
  destruct (threshold_window_parts (kws_part :: rest)) as [tp wp].
  cbn [fst snd]. split; [|split].
  - destruct (nonempty kws_part); [|exact Hk].
    apply Forall_app. split; [exact Hk | apply parse_keywords_tokens].
  - destruct (nonempty tp); [now apply positive_int_ge | exact Ht].
  - destruct (nonempty wp); [now apply positive_int_ge | exact Hw].
Qed.

Lemma parse_combo_ok (text : string) (dt dw : Z) :
  1 <= dt -> 1 <= dw ->
  Forall token (fst (fst (_parse_combo text dt dw))) /\
  1 <= snd (fst (_parse_combo text dt dw)) /\
  1 <= snd (_parse_combo text dt dw).
Proof.
  intros Ht Hw. unfold _parse_combo.
  assert (H0 : Forall token (fst (fst (@nil string, dt, dw))) /\
               1 <= snd (fst (@nil string, dt, dw)) /\
               1 <= snd (@nil string, dt, dw)) by (repeat split; auto).
  destruct (stripped_segments "," text) as [|s r] eqn:E; [exact H0|].
  revert H0. generalize (@nil string, dt, dw). generalize (s :: r).
  intro l. induction l as [|x l IH]; intros st Hst; [exact Hst|].
  simpl. apply IH. now apply combo_step_ok.
Qed.

Lemma parse_contains_entries_ok (text : string) (dt dw : Z) :
  1 <= dt -> 1 <= dw ->
  Forall StoreSpec.entry_ok (_parse_contains_entries text dt dw).
Proof.
  intros Ht Hw. unfold _parse_contains_entries.
  induction (stripped_segments "," text) as [|segment r IH]; [constructor|].
  simpl. apply Forall_app. split; [|exact IH].
  unfold contains_entry_of.
  destruct (split ":" segment) as [|x xs]; [constructor|].
  cbn [map]. destruct (nonempty (strip x)) eqn:En; cbn [negb]; [|constructor].
  destruct (threshold_window_parts (strip x :: map strip xs)) as [tp wp].
  constructor; [|constructor].
  split; [now apply strip_stripped|].
  split; now apply positive_int_ge.
Qed.

Lemma load_config_after_save (c : pyval) (f f' : Files) :
  save_config c f = (Ok tt, f') -> load_config f' = _sanitize_config c.
Proof.
  intro Hsave. unfold save_config in Hsave. apply load_after_write in Hsave.
  simpl in Hsave. rewrite Hsave. apply sanitize_config_idempotent.
Qed.

(** X23.  What the window saves when the monitor is started is what was
    typed: after [save_config] has written the configuration [App.start]
    builds from the two fields (the defaults being at least 1), the stored
    configuration holds the keywords, the threshold and the window read
    from the keyword field, and the entries read from the Contains field
    except those that repeat an earlier keyword in another case.  The
    per-keyword thresholds and windows the store held before are gone. *)
Theorem X23_start_saves_what_was_typed (keyword_combo contains : string)
    (dt dw : Z) (f f' : Files) (Hdt : 1 <= dt) (Hdw : 1 <= dw)
    (Hsave : save_config (start_config keyword_combo contains dt dw) f
             = (Ok tt, f')) :
  let kws := fst (fst (_parse_combo keyword_combo dt dw)) in
  let thr := snd (fst (_parse_combo keyword_combo dt dw)) in
  let win := snd (_parse_combo keyword_combo dt dw) in
  load_config f'
  = {| ConfigStore.keywords := kws;
       ConfigStore.global_threshold := Some thr;
       ConfigStore.per_keyword_thresholds := [];
       ConfigStore.global_window := Some win;
       ConfigStore.per_keyword_windows := [];
       ConfigStore.contains_keywords :=
         StoreSpec.dedup_first [] (_parse_contains_entries contains thr win) |}.
Proof.
  intros kws thr win.
  rewrite (load_config_after_save _ _ _ Hsave).
  destruct (parse_combo_ok keyword_combo dt dw Hdt Hdw) as (Hk & Ht & Hw).
  fold kws in Hk. fold thr in Ht. fold win in Hw.
  unfold start_config.
  destruct (_parse_combo keyword_combo dt dw) as [[kws0 thr0] win0] eqn:E.
  cbn [fst snd] in kws, thr, win. subst kws thr win.
  unfold _sanitize_config.
  cbn [dget String.eqb Ascii.eqb Bool.eqb].
  f_equal.
  - apply stripped_keywords_fixed.
    eapply Forall_impl; [|exact Hk]. exact token_stripped.
  - now rewrite ensure_positive_int_fixed.
  - now rewrite ensure_positive_int_fixed.
  - rewrite (contains_loop _ []). cbn [fst app map].
    rewrite candidates_of_entries; [reflexivity|].
    now apply parse_contains_entries_ok.
Qed.

Lemma per_combo_step_ok (st : dict Z * dict Z) (segment : string) :
  StoreSpec.int_map_ok (fst st) /\ StoreSpec.int_map_ok (snd st) ->
  StoreSpec.int_map_ok (fst (per_combo_step st segment)) /\
  StoreSpec.int_map_ok (snd (per_combo_step st segment)).
Proof.
  destruct st as [pt pw]. cbn [fst snd]. intros [Ht Hw].
  unfold per_combo_step.
  destruct (nonempty (strip segment)); cbn [negb]; [|now split].
  destruct (split ":" (strip segment)) as [|x xs]; [now split|].
  cbn [map]. destruct (List.length (strip x :: map strip xs) <? 2)%nat;
    [now split|].
  cbn [part nth].
  destruct (nonempty (strip x)) eqn:En; cbn [negb]; [|now split].
  assert (Hkey : StoreSpec.stripped (strip x)) by now apply strip_stripped.
  cbn [fst snd]. split.
  - match goal with
    | |- StoreSpec.int_map_ok (if ?c then _ else _) => destruct c; [|exact Ht]
    end.
    destruct (int_of_str _); [|exact Ht].
    apply int_map_ok_dset; [exact Ht | exact Hkey | lia].
  - match goal with
    | |- StoreSpec.int_map_ok (if ?c then _ else _) => destruct c; [|exact Hw]
    end.
    destruct (int_of_str _); [|exact Hw].
    apply int_map_ok_dset; [exact Hw | exact Hkey | lia].
Qed.

Lemma parse_per_combo_ok (text : string) :
  StoreSpec.int_map_ok (fst (_parse_per_combo text)) /\
  StoreSpec.int_map_ok (snd (_parse_per_combo text)).
Proof.
  unfold _parse_per_combo.
  assert (H0 : StoreSpec.int_map_ok (fst (@nil (string * Z), @nil (string * Z))) /\
               StoreSpec.int_map_ok (snd (@nil (string * Z), @nil (string * Z))))
    by (repeat split; constructor).
  revert H0. generalize (@nil (string * Z), @nil (string * Z)).
  induction (split "," text) as [|x l IH]; intros st Hst; [exact Hst|].
  simpl. apply IH. now apply per_combo_step_ok.
Qed.

Lemma sanitize_env_map_ok (env_json : option pyval) :
  StoreSpec.int_map_ok (_sanitize_env_map env_json).
Proof.
  unfold _sanitize_env_map.
  assert (H0 : StoreSpec.int_map_ok (@nil (string * Z))) by (split; constructor).
  destruct env_json as [[| | | | |raw]|]; try exact H0.
  revert H0. generalize (@nil (string * Z)).
  induction raw as [|[k v] r IH]; intros acc Hacc; [exact Hacc|].
  simpl. apply IH.
  destruct (nonempty (strip k)) eqn:En; cbn [negb]; [|exact Hacc].
  assert (Hkey : StoreSpec.stripped (strip k)) by now apply strip_stripped.
  destruct v as [|b|z|s|l|d]; try exact Hacc.
  - destruct b; [|exact Hacc]. apply int_map_ok_dset; [exact Hacc | exact Hkey | lia].
  - destruct (1 <=? z) eqn:E; [|exact Hacc].
    apply int_map_ok_dset; [exact Hacc | exact Hkey | now apply Z.leb_le].
  - destruct (isdigit s); [|exact Hacc].
    destruct (int_of_str s) as [val|]; [|exact Hacc].
    destruct (1 <=? val) eqn:E; [|exact Hacc].
    apply int_map_ok_dset; [exact Hacc | exact Hkey | now apply Z.leb_le].
Qed.

(** X24.  The per-keyword maps [_parse_per_combo] reads from a text, and
    the map [_sanitize_env_map] reads from an environment variable, are in
    the sanitized form of the store: distinct, stripped, non-empty keys
    and values that are at least 1.  The sanitizer of the store returns
    them as they are. *)
Theorem X24_per_keyword_maps_are_sanitized (text : string)
    (env_json : option pyval) (default : Z) :
  let per_thresholds := fst (_parse_per_combo text) in
  let per_windows := snd (_parse_per_combo text) in
  let env_map := _sanitize_env_map env_json in
  StoreSpec.int_map_ok per_thresholds /\
  StoreSpec.int_map_ok per_windows /\
  StoreSpec.int_map_ok env_map /\
  sanitize_int_map default
    (map (fun kv => (fst kv, PInt (snd kv))) per_thresholds) = per_thresholds /\
  sanitize_int_map default
    (map (fun kv => (fst kv, PInt (snd kv))) per_windows) = per_windows /\
  sanitize_int_map default
    (map (fun kv => (fst kv, PInt (snd kv))) env_map) = env_map.
Proof.
  intros per_thresholds per_windows env_map.
  destruct (parse_per_combo_ok text) as [Ht Hw].
  assert (He := sanitize_env_map_ok env_json).
  repeat split; try apply Ht; try apply Hw; try apply He;
    now apply sanitize_int_map_fixed.
Qed.

End Window.
Import Legacy DurationSpec.

(** *** The legacy files *)

Section LegacyFiles.
Context {RT : Runtime}.

Lemma ensure_positive_int_of_text (n default : Z) :
  1 <= n -> _ensure_positive_int (PStr (str_of_int n)) default = n.
Proof.
  intro H. unfold _ensure_positive_int. cbn [int].
  destruct (int_of_str_of_int n) as [-> _]; [lia|].
  apply Z.leb_le in H. now rewrite H.
Qed.

Lemma load_legacy_int_ok (file env : option string) (default : Z) :
  1 <= default -> StoreSpec.positive_or_absent (load_legacy_int file env default).
Proof.
  intro H. unfold load_legacy_int.
  assert (Henv : StoreSpec.positive_or_absent
            (if nonempty (strip (getenv_or_empty env))
             then Some (_ensure_positive_int (PStr (strip (getenv_or_empty env))) default)
             else None)).
  { destruct (nonempty _); [|exact I]. now apply ensure_positive_int_ge. }
  destruct file as [text|]; [|exact Henv].
  destruct (nonempty (strip text)); [|exact Henv].
  now apply ensure_positive_int_ge.
Qed.

Lemma legacy_ints_ok (src : Sources) :
  StoreSpec.positive_or_absent (_load_legacy_threshold src) /\
  StoreSpec.positive_or_absent (_load_legacy_window src).
Proof.
  unfold _load_legacy_threshold, _load_legacy_window.
  split; apply load_legacy_int_ok; lia.
Qed.

(** X25.  The legacy threshold and window.  Each is absent or at least 1.
    A legacy file whose text is not blank decides alone: the decimal text
    of a number that is at least 1 gives that number, and any other text
    gives the default (1 for the threshold, 60 for the window) without the
    environment being asked.  Only when the file is missing or blank does
    the environment variable count, and when it is blank too the value is
    absent. *)
Theorem X25_legacy_threshold_and_window (src : Sources) :
  StoreSpec.positive_or_absent (_load_legacy_threshold src) /\
  StoreSpec.positive_or_absent (_load_legacy_window src) /\
  (forall text n,
     LEGACY_THRESHOLD_TXT src = Some text ->
     strip text = str_of_int n -> 1 <= n ->
     _load_legacy_threshold src = Some n) /\
  (forall text,
     LEGACY_THRESHOLD_TXT src = Some text -> strip text <> "" ->
     (forall i, int_of_str (strip text) = Some i -> i < 1) ->
     _load_legacy_threshold src = Some 1) /\
  (forall text,
     LEGACY_WINDOW_TXT src = Some text -> strip text <> "" ->
     (forall i, int_of_str (strip text) = Some i -> i < 1) ->
     _load_legacy_window src = Some 60) /\
  (forall value n,
     (LEGACY_THRESHOLD_TXT src = None \/
      exists text, LEGACY_THRESHOLD_TXT src = Some text /\ strip text = "") ->
     Run.KEYWORD_THRESHOLD (environ src) = Some value ->
     strip value = str_of_int n -> 1 <= n ->
     _load_legacy_threshold src = Some n) /\
  ((LEGACY_THRESHOLD_TXT src = None \/
    exists text, LEGACY_THRESHOLD_TXT src = Some text /\ strip text = "") ->
   strip (getenv_or_empty (Run.KEYWORD_THRESHOLD (environ src))) = "" ->
   _load_legacy_threshold src = None).
Proof.
  unfold _load_legacy_threshold, _load_legacy_window.
  split; [apply load_legacy_int_ok; lia|].
  split; [apply load_legacy_int_ok; lia|].
  split; [|split; [|split; [|split]]].
  - intros text n Hf Hs Hn. unfold load_legacy_int. rewrite Hf, Hs.
    destruct (digits_text n) as [Hne _]; [lia|].
    apply nonempty_true in Hne. rewrite Hne.
    now rewrite ensure_positive_int_of_text.
  - intros text Hf Hne Hbad. unfold load_legacy_int. rewrite Hf.
    apply nonempty_true in Hne. rewrite Hne.
    now rewrite ensure_positive_int_default.
  - intros text Hf Hne Hbad. unfold load_legacy_int. rewrite Hf.
    apply nonempty_true in Hne. rewrite Hne.
    now rewrite ensure_positive_int_default.
  - intros value n Hfile Henv Hs Hn. unfold load_legacy_int.
    rewrite Henv. cbn [getenv_or_empty]. rewrite Hs.
    destruct (digits_text n) as [Hne _]; [lia|].
    apply nonempty_true in Hne. rewrite Hne.
    rewrite ensure_positive_int_of_text by exact Hn.
    destruct Hfile as [-> | (text & -> & ->)]; reflexivity.
  - intros Hfile Henv. unfold load_legacy_int. rewrite Henv.
    destruct Hfile as [-> | (text & -> & ->)]; reflexivity.
Qed.

Lemma legacy_items_ok (items : dict pyval) (data : dict Z) :
  StoreSpec.int_map_ok data -> StoreSpec.int_map_ok (fst (legacy_items data items)).
Proof.
  revert data. induction items as [|[k v] r IH]; intros data Hd; [exact Hd|].
  simpl. destruct (isdigit (str v)); [|now apply IH].
  destruct (nonempty (strip k)) eqn:En; [|now apply IH].
  destruct (int v) as [i|]; [|exact Hd].
  apply IH. apply int_map_ok_dset; [exact Hd | now apply strip_stripped | lia].
Qed.

Lemma load_legacy_map_ok (path env_var : option pyval) :
  StoreSpec.int_map_ok (_load_legacy_map path env_var).
Proof.
  assert (H0 : StoreSpec.int_map_ok (@nil (string * Z))) by (split; constructor).
  unfold _load_legacy_map.
  assert (Hfile : StoreSpec.int_map_ok
            match path with
            | Some (PDict raw) =>
                match legacy_items [] raw with
                | (data, false) => data
                | (_, true) => []
                end
            | _ => []
            end).
  { destruct path as [[| | | | |raw]|]; try exact H0.
    assert (H := legacy_items_ok raw [] H0).
    destruct (legacy_items [] raw) as [data [|]]; [exact H0 | exact H]. }
  destruct (match path with Some (PDict raw) => _ | _ => _ end) as [|kv d];
    [|exact Hfile].
  destruct env_var as [[| | | | |raw]|]; try exact H0.
  now apply legacy_items_ok.
Qed.

Lemma load_legacy_keywords_stripped (src : Sources) :
  Forall StoreSpec.stripped (_load_legacy_keywords src).
Proof.
  unfold _load_legacy_keywords.
  assert (Hlines : Forall StoreSpec.stripped
            match LEGACY_KEYWORDS_TXT src with
            | Some text =>
                map strip (filter (fun ln => nonempty (strip ln)) (splitlines text))
            | None => []
            end).
  { destruct (LEGACY_KEYWORDS_TXT src); [|constructor].
    apply (stripped_map_filter (fun x => x)). }
  destruct (match LEGACY_KEYWORDS_TXT src with Some text => _ | None => _ end)
    as [|x l]; [|exact Hlines].
  apply (stripped_map_filter (fun x => x)).
Qed.

(** X26.  Without a settings file that can be read, the configuration is
    exactly what the legacy loaders return: the keywords of the legacy
    keyword file or, when it gives none, of the environment; the legacy
    threshold and window; the two legacy maps; and no Contains entry.
    Nothing the loaders return is altered by the sanitizer it passes
    through. *)
Theorem X26_configuration_from_legacy_files (src : Sources)
    (legacy_counts : option pyval) (can_write fails_late unreadable : bool) :
  let settings := if unreadable then Some None else None in
  load_config (files_of src settings legacy_counts can_write fails_late)
  = {| ConfigStore.keywords := _load_legacy_keywords src;
       ConfigStore.global_threshold := _load_legacy_threshold src;
       ConfigStore.per_keyword_thresholds :=
         _load_legacy_map (LEGACY_THRESHOLDS_JSON src)
                          (Run.KEYWORD_THRESHOLDS (environ src));
       ConfigStore.global_window := _load_legacy_window src;
       ConfigStore.per_keyword_windows :=
         _load_legacy_map (LEGACY_WINDOWS_JSON src)
                          (Run.KEYWORD_WINDOWS (environ src));
       ConfigStore.contains_keywords := [] |}.
Proof.
  intro settings.
  assert (Hload : load_config
                    (files_of src settings legacy_counts can_write fails_late)
            = _sanitize_config
                (PDict [("keywords", PList (map PStr (_load_legacy_keywords src)));
                        ("global_threshold",
                         option_int_to_py (_load_legacy_threshold src));
                        ("per_keyword_thresholds",
                         int_dict_to_py
                           (_load_legacy_map (LEGACY_THRESHOLDS_JSON src)
                              (Run.KEYWORD_THRESHOLDS (environ src))));
                        ("global_window",
                         option_int_to_py (_load_legacy_window src));
                        ("per_keyword_windows",
                         int_dict_to_py
                           (_load_legacy_map (LEGACY_WINDOWS_JSON src)
                              (Run.KEYWORD_WINDOWS (environ src))))])).
  { unfold settings. destruct unreadable; reflexivity. }
  rewrite Hload. clear Hload.
  destruct (legacy_ints_ok src) as [Ht Hw].
  unfold _sanitize_config.
  cbn [dget String.eqb Ascii.eqb Bool.eqb].
  f_equal.
  - apply stripped_keywords_fixed, load_legacy_keywords_stripped.
  - destruct (_load_legacy_threshold src) as [z|]; cbn [option_int_to_py];
      [|reflexivity].
    simpl in Ht. now rewrite ensure_positive_int_fixed.
  - apply sanitize_int_map_fixed, load_legacy_map_ok.
  - destruct (_load_legacy_window src) as [z|]; cbn [option_int_to_py];
      [|reflexivity].
    simpl in Hw. now rewrite ensure_positive_int_fixed.
  - apply sanitize_int_map_fixed, load_legacy_map_ok.
Qed.

End LegacyFiles.
(** *** The duration of a detection record *)

Lemma string_length_app (a b : string) :
  String.length (a ++ b)%string = (String.length a + String.length b)%nat.
Proof. induction a as [|c r IH]; simpl; [reflexivity | now rewrite IH]. Qed.

Lemma int_of_str_zero_head (s : string) :
  isdigit s = true -> int_of_str (String "0" s) = int_of_str s.
Proof.
  intro H. unfold isdigit in H. apply andb_true_iff in H. destruct H as [Hne Hall].
  assert (Hs : strip s = s).
  { apply strip_free. now apply all_digits_free_of; [exact is_digit_not_space|]. }
  assert (Hs0 : strip (String "0" s) = String "0" s).
  { apply strip_free. apply free_of_cons. split; [reflexivity|].
    now apply all_digits_free_of; [exact is_digit_not_space|]. }
  destruct s as [|c r]; [discriminate|].
  assert (Hc : is_digit c = true) by (simpl in Hall; now apply andb_true_iff in Hall).
  rewrite int_of_str_digit_head by (reflexivity || exact Hs0).
  rewrite int_of_str_digit_head by assumption.
  cbn [digits_value]. change (is_digit "0") with true. cbv iota.
  rewrite Hc. reflexivity.
Qed.

Lemma pad2_short (k : nat) :
  (k < 100)%nat -> String.length (pad2 (Z.of_nat k)) = 2%nat.
Proof.
  intro H.
  do 100 (destruct k as [|k]; [vm_compute; reflexivity|]).
  lia.
Qed.

(** The two-digit field of a number that is not negative. *)
Lemma pad2_text (k : Z) :
  0 <= k ->
  int_of_str (pad2 k) = Some k /\
  free_of (is_char ":") (pad2 k) /\
  (k < 100 -> String.length (pad2 k) = 2%nat).
Proof.
  intro H. destruct (int_of_str_of_int k H) as [Hi Hd].
  destruct (digits_text k H) as [Hne Hfree].
  split; [|split].
  - unfold pad2. destruct (String.length (str_of_int k) <? 2)%nat; [|exact Hi].
    cbn [String.append]. now rewrite int_of_str_zero_head.
  - unfold pad2. destruct (String.length (str_of_int k) <? 2)%nat.
    + cbn [String.append]. apply free_of_cons. split; [reflexivity|].
      apply Hfree, is_digit_not_colon.
    + apply Hfree, is_digit_not_colon.
  - intro Hk. rewrite <- (Z2Nat.id k H). apply pad2_short. lia.
Qed.

(** X27.  [format_duration] loses nothing: for a number of seconds that is
    not negative, the three fields of the text it returns, read as numbers,
    are the hours, the minutes below 60 and the seconds below 60 that make
    it up, so that the text stands for that number of seconds and no
    other; below a hundred hours the text has the eight characters of
    [HH:MM:SS]. *)
Theorem X27_format_duration_is_lossless (n : Z) (Hn : 0 <= n) :
  parse_duration (format_duration n) = Some n /\
  map int_of_str (split ":" (format_duration n))
  = [Some (n / 3600); Some (n mod 3600 / 60); Some (n mod 60)] /\
  (n < 360000 -> String.length (format_duration n) = 8%nat).
Proof.
  assert (Hh : 0 <= n / 3600) by (apply Z.div_pos; lia).
  assert (Hr : 0 <= n mod 3600 < 3600) by (apply Z.mod_pos_bound; lia).
  assert (Hm : 0 <= n mod 3600 / 60 < 60).
  { split; [apply Z.div_pos; lia | apply Z.div_lt_upper_bound; lia]. }
  assert (Hs : 0 <= (n mod 3600) mod 60 < 60) by (apply Z.mod_pos_bound; lia).
  assert (Hss : (n mod 3600) mod 60 = n mod 60).
  { assert (E1 := Z.div_mod n 3600 ltac:(lia)).
    assert (E2 := Z.div_mod (n mod 3600) 60 ltac:(lia)).
    apply (Z.mod_unique n 60 (60 * (n / 3600) + n mod 3600 / 60));
      [left; exact Hs | lia]. }
  destruct (pad2_text (n / 3600) Hh) as (Hi1 & Hf1 & Hl1).
  destruct (pad2_text (n mod 3600 / 60)) as (Hi2 & Hf2 & Hl2); [lia|].
  destruct (pad2_text ((n mod 3600) mod 60)) as (Hi3 & Hf3 & Hl3); [lia|].
  assert (Hsplit : split ":" (format_duration n)
                   = [pad2 (n / 3600); pad2 (n mod 3600 / 60);
                      pad2 ((n mod 3600) mod 60)]).
  { unfold format_duration. cbv zeta. cbn [String.append].
    rewrite split_app, (split_free ":" _ Hf1).
    rewrite split_app, (split_free ":" _ Hf2).
    now rewrite (split_free ":" _ Hf3). }
  split; [|split].
  - unfold parse_duration. rewrite Hsplit, Hi1, Hi2, Hi3. f_equal.
    rewrite (Z.div_mod n 3600) at 4 by lia.
    rewrite (Z.div_mod (n mod 3600) 60) at 3 by lia. lia.
  - rewrite Hsplit. cbn [map]. now rewrite Hi1, Hi2, Hi3, Hss.
  - intro Hlt. unfold format_duration. cbv zeta.
    rewrite !string_length_app. cbn [String.length].
    rewrite Hl1, Hl2, Hl3; [reflexivity | lia | lia |].
    apply Z.div_lt_upper_bound; lia.
Qed.

(** *** The per-keyword field *)

Section PerKeywordField.
Context {RT : Runtime}.

Lemma insert_sorted_perm (x : string) (l : list string) :
  Permutation (insert_sorted x l) (x :: l).
Proof.
  induction l as [|y r IH]; simpl; [reflexivity|].
  destruct (String.leb x y); [reflexivity|].
  rewrite IH. apply perm_swap.
Qed.

Lemma sorted_perm (l : list string) : Permutation (Run.sorted l) l.
Proof.
  induction l as [|x r IH]; simpl; [reflexivity|].
  rewrite insert_sorted_perm. now constructor.
Qed.

(** Segments joined by commas are the segments of the text. *)
Lemma split_join (segs : list string) :
  segs <> [] -> Forall (free_of (is_char ",")) segs ->
  split "," (join "," segs) = segs.
Proof.
  intros Hne H. induction H as [|s r Hs Hr IH]; [congruence|].
  destruct r as [|y r']; [now apply split_free|].
  rewrite join_cons. cbn [String.append].
  rewrite split_app, (split_free "," s Hs), IH by discriminate. reflexivity.
Qed.

(** Filling a dictionary from keys that are all different lists them in
    order. *)
Lemma fold_dset_fresh {V} (g : string -> V) (l : list string) (acc : dict V) :
  NoDup (dkeys acc ++ l) ->
  fold_left (fun d k => dset d k (g k)) l acc
  = acc ++ map (fun k => (k, g k)) l.
Proof.
  revert acc. induction l as [|x r IH]; intros acc H; simpl.
  - now rewrite app_nil_r.
  - assert (Hx : ~ In x (dkeys acc)).
    { apply NoDup_remove_2 in H. intro Hin. apply H. apply in_or_app. now left. }
    rewrite dset_fresh by exact Hx. rewrite IH.
    + now rewrite <- app_assoc.
    + unfold dkeys. rewrite map_app. simpl. now rewrite <- app_assoc.
Qed.

Lemma per_combo_step_segment (st : dict Z * dict Z) (k : string) (thr win : Z) :
  stripped k -> free_of is_field_separator k -> 1 <= thr -> 1 <= win ->
  per_combo_step st
    (k ++ ":" ++ str_of_int thr ++ ":" ++ str_of_int win)%string
  = (dset (fst st) k thr, dset (snd st) k win).
Proof.
  intros [Hs Hne] Hf Ht Hw. destruct st as [pt pw]. cbn [fst snd].
  destruct (field_text k thr win) as (H1 & H2 & _ & H4);
    [lia | lia | exact Hs | exact Hf |].
  unfold per_combo_step. rewrite H1.
  apply nonempty_true in H2. rewrite H2. cbn [negb]. rewrite H4.
  cbn [List.length Nat.ltb Nat.leb part nth].
  apply nonempty_true in Hne. rewrite Hne. cbn [negb].
  destruct (int_of_str_of_int thr) as [Hi1 Hd1]; [lia|].
  destruct (int_of_str_of_int win) as [Hi2 Hd2]; [lia|].
  rewrite Hd1, Hi1, Hd2, Hi2. now rewrite !Z.max_r by lia.
Qed.

Lemma int_map_lookup_ge (d : dict Z) (k : string) (default : Z) :
  int_map_ok d -> 1 <= default -> 1 <= dget_default d k default.
Proof.
  intros [_ Hd] H. unfold dget_default.
  destruct (dget d k) as [v|] eqn:E; [|exact H].
  apply dget_Some_In in E. rewrite Forall_forall in Hd.
  now destruct (Hd _ E).
Qed.

(** X28.  The per-keyword field is printed and read back with the defaults
    filled in: for two maps in the sanitized form of the store whose keys
    hold no comma and no colon, [_parse_per_combo] returns from the text of
    [_format_per_combo] two maps over the same keys, those of either map
    in sorted order, with the threshold and the window of each key, 1 and
    60 standing for a value that was missing. *)
Theorem X28_per_keyword_field_round_trip (per_thresholds per_windows : dict Z)
    (Hthresholds : int_map_ok per_thresholds)
    (Hwindows : int_map_ok per_windows)
    (Hkeys : Forall (free_of is_field_separator)
                    (dkeys per_thresholds ++ dkeys per_windows)) :
  let keys :=
    Run.sorted
      (set_iter (fold_left set_add (dkeys per_windows)
                   (fold_left set_add (dkeys per_thresholds) []))) in
  _parse_per_combo (_format_per_combo per_thresholds per_windows)
  = (map (fun k => (k, dget_default per_thresholds k 1)) keys,
     map (fun k => (k, dget_default per_windows k 60)) keys).
Proof.
  intro keys.
  set (union := fold_left set_add (dkeys per_windows)
                  (fold_left set_add (dkeys per_thresholds) [])) in *.
  assert (Hperm : Permutation keys union).
  { unfold keys. rewrite sorted_perm. apply set_iter_perm. }
  assert (Hin : forall k, In k keys ->
                  In k (dkeys per_thresholds) \/ In k (dkeys per_windows)).
  { intros k Hk. apply (Permutation_in _ Hperm) in Hk. unfold union in Hk.
    apply In_fold_set_add in Hk. destruct Hk as [Hk|Hk]; [|now right].
    apply In_fold_set_add in Hk. destruct Hk as [[]|Hk]. now left. }
  assert (Hnd : NoDup keys).
  { eapply Permutation_NoDup; [apply Permutation_sym, Hperm|].
    unfold union. apply NoDup_fold_set_add, NoDup_fold_set_add. constructor. }
  assert (Hkey : forall k, In k keys ->
                   stripped k /\ free_of is_field_separator k).
  { intros k Hk. split.
    - destruct (Hin k Hk) as [H|H]; apply in_map_iff in H;
        destruct H as ([k' v] & <- & H).
      + destruct Hthresholds as [_ Hall]. rewrite Forall_forall in Hall.
        now destruct (Hall _ H).
      + destruct Hwindows as [_ Hall]. rewrite Forall_forall in Hall.
        now destruct (Hall _ H).
    - rewrite Forall_forall in Hkeys. apply Hkeys. apply in_or_app.
      now apply Hin. }
  set (seg := fun key : string =>
                (key ++ ":" ++ str_of_int (dget_default per_thresholds key 1)
                     ++ ":" ++ str_of_int (dget_default per_windows key 60))%string).
  assert (Hfold : forall l acc,
            (forall k, In k l -> stripped k /\ free_of is_field_separator k) ->
            fold_left per_combo_step (map seg l) acc
            = (fold_left (fun d k => dset d k (dget_default per_thresholds k 1))
                         l (fst acc),
               fold_left (fun d k => dset d k (dget_default per_windows k 60))
                         l (snd acc))).
  { induction l as [|k l IH]; intros acc Hl; [now destruct acc|].
    cbn [map fold_left].
    destruct (Hl k (or_introl eq_refl)) as [Hs Hf].
    assert (Hstep : per_combo_step acc (seg k)
                    = (dset (fst acc) k (dget_default per_thresholds k 1),
                       dset (snd acc) k (dget_default per_windows k 60))).
    { apply per_combo_step_segment;
        [ exact Hs | exact Hf
        | apply int_map_lookup_ge; [exact Hthresholds | lia]
        | apply int_map_lookup_ge; [exact Hwindows | lia] ]. }
    rewrite Hstep, IH; [reflexivity|].
    intros k' Hk'. apply Hl. now right. }
  unfold _parse_per_combo, _format_per_combo. fold union. fold keys.
  change (fun key : string =>
            let thr := dget_default per_thresholds key 1 in
            let win := dget_default per_windows key 60 in
            String.append key
              (String.append ":"
                 (String.append (str_of_int thr)
                    (String.append ":" (str_of_int win)))))
    with seg.
  destruct union as [|u us] eqn:Eu.
  - apply Permutation_sym, Permutation_nil in Hperm. rewrite Hperm.
    reflexivity.
  - assert (Hne : keys <> []).
    { intro E. rewrite E in Hperm. apply Permutation_nil in Hperm.
      discriminate. }
    rewrite split_join.
    + rewrite Hfold by exact Hkey. cbn [fst snd].
      rewrite !fold_dset_fresh by exact Hnd. reflexivity.
    + destruct keys; [congruence | discriminate].
    + apply Forall_forall. intros s Hs. apply in_map_iff in Hs.
      destruct Hs as (k & <- & Hk). destruct (Hkey k Hk) as [[Hs Hn] Hf].
      destruct (field_text k (dget_default per_thresholds k 1)
                  (dget_default per_windows k 60)) as (_ & _ & H3 & _);
        [| | exact Hs | exact Hf | exact H3].
      * assert (H := int_map_lookup_ge per_thresholds k 1 Hthresholds). lia.
      * assert (H := int_map_lookup_ge per_windows k 60 Hwindows). lia.
Qed.

End PerKeywordField.

(** *** Instances of the conditional statements above *)

(** X3 at a map with a key to normalise and a negative value, written to a
    store that holds nothing yet. *)
Lemma X3_save_counts_then_load_witness :
  let c := [(" GG ", 6); ("wp", -2)] in
  let f' := snd (@ConfigStore.save_counts insertion_order_runtime c fresh_files) in
  @ConfigStore.save_counts insertion_order_runtime c fresh_files = (Ok tt, f') /\
  @ConfigStore.load_config insertion_order_runtime f'
  = @ConfigStore.load_config insertion_order_runtime fresh_files /\
  @ConfigStore.load_counts insertion_order_runtime f' = [("gg", 6); ("wp", 0)].
Proof.
  cbv zeta.
  assert (Hsave :
    @ConfigStore.save_counts insertion_order_runtime
       [(" GG ", 6); ("wp", -2)] fresh_files
    = (Ok tt,
       snd (@ConfigStore.save_counts insertion_order_runtime
                 [(" GG ", 6); ("wp", -2)] fresh_files)))
    by (vm_compute; reflexivity).
  split; [exact Hsave|].
  destruct (@X3_save_counts_then_load insertion_order_runtime _ _ _ Hsave)
    as [Hconfig Hcounts].
  split; [exact Hconfig|].
  etransitivity; [exact Hcounts|]. vm_compute. reflexivity.
Defined.

(** X4 at a store that holds 5 for ["gg"], when the keywords are replaced. *)
Lemma X4_save_config_keeps_counts_witness :
  let f := settings (config_of ["gg"] None None [] []) [("gg", 5)] in
  let c := PDict [("keywords", PList [PStr "wp"])] in
  let f' := snd (@ConfigStore.save_config insertion_order_runtime c f) in
  @ConfigStore.save_config insertion_order_runtime c f = (Ok tt, f') /\
  ConfigStore.keywords (@ConfigStore.load_config insertion_order_runtime f')
  = ["wp"] /\
  @ConfigStore.load_counts insertion_order_runtime f' = [("gg", 5)].
Proof.
  cbv zeta.
  assert (Hsave :
    @ConfigStore.save_config insertion_order_runtime
       (PDict [("keywords", PList [PStr "wp"])])
       (settings (config_of ["gg"] None None [] []) [("gg", 5)])
    = (Ok tt,
       snd (@ConfigStore.save_config insertion_order_runtime
                 (PDict [("keywords", PList [PStr "wp"])])
                 (settings (config_of ["gg"] None None [] []) [("gg", 5)]))))
    by (vm_compute; reflexivity).
  split; [exact Hsave|].
  split; [vm_compute; reflexivity|].
  etransitivity;
    [exact (@X4_save_config_keeps_counts insertion_order_runtime _ _ _ Hsave)|].
  vm_compute. reflexivity.
Defined.

(** X9 at a connection that meets no obstacle. *)
Lemma X9_connect_handshake_witness :
  let m := machine_of (watching_gg 1 60) fresh_files in
  let env := connect_ok "channel-2" "sid-2" in
  fst (@connect chzzk_commands env m) = Ok tt /\
  filter is_send (new_events m (snd (@connect chzzk_commands env m)))
  = [WsSend (@connect_frame chzzk_commands "channel-2" "user" "token-of-channel-2");
     WsSend (@recent_chat_frame chzzk_commands "channel-2" (PStr "sid-2"))].
Proof.
  cbv zeta.
  assert (Hok : fst (@connect chzzk_commands (connect_ok "channel-2" "sid-2")
                       (machine_of (watching_gg 1 60) fresh_files)) = Ok tt)
    by (vm_compute; reflexivity).
  split; [exact Hok|].
  destruct (@X9_connect_handshake chzzk_commands _ _ Hok)
    as (cid & tok & reply & session & Hcid & Htok & Hreply & Hsid & _ & _ & _ & _
        & _ & Hsent).
  rewrite Hsent.
  injection Hcid as <-. injection Htok as <-. injection Hreply as <-.
  destruct Hsid as (d & b & Hd & Hb & Hs).
  injection Hd as <-. injection Hb as <-. injection Hs as <-.
  reflexivity.
Defined.

(** X15 at a CHAT frame whose first entry has no ["uid"] and whose second
    entry would have been a hit. *)
Lemma X15_malformed_entry_drops_the_rest_witness :
  let m := machine_of (watching_gg 1 60) fresh_files in
  let env := turn_receiving (PDict []) in
  let bad := PDict [("msg", PStr "gg")] in
  let good := PDict [("uid", PStr "anonymous"); ("msg", PStr "gg");
                     ("msgTime", PInt 1000)] in
  let frame := fun items => PDict [("cmd", PInt 93101); ("bdy", PList items)] in
  (forall d, bad = PDict d -> dget d "uid" = None) /\
  @dispatch insertion_order_runtime chzzk_commands env
    (Some (frame [bad; good])) m
  = @dispatch insertion_order_runtime chzzk_commands env (Some (frame [bad])) m /\
  count_of
    (self (snd (@dispatch insertion_order_runtime chzzk_commands env
                  (Some (frame [bad; good])) m))) "gg" = 0 /\
  count_of
    (self (snd (@dispatch insertion_order_runtime chzzk_commands env
                  (Some (frame [good])) m))) "gg" = 1.
Proof.
  cbv zeta.
  assert (Hbad : forall d, PDict [("msg", PStr "gg")] = PDict d ->
                           dget d "uid" = None).
  { intros d H. injection H as <-. reflexivity. }
  split; [exact Hbad|].
  destruct (@X15_malformed_entry_drops_the_rest insertion_order_runtime
              chzzk_commands (turn_receiving (PDict [])) []
              [PDict [("uid", PStr "anonymous"); ("msg", PStr "gg");
                      ("msgTime", PInt 1000)]]
              (PDict [("msg", PStr "gg")])
              (machine_of (watching_gg 1 60) fresh_files) Hbad) as [Heq _].
  split; [exact Heq|].
  split; vm_compute; reflexivity.
Defined.

(** X16 at the entry of a named viewer that has no ["msg"]. *)
Lemma X16_entries_without_message_witness :
  let m := machine_of (watching_gg 1 60) fresh_files in
  let d := [("uid", PStr "viewer-1");
            ("profile", PDict [("nickname", PStr "viewer")]);
            ("msgTime", PInt 1000)] in
  dget d "uid" = Some (PStr "viewer-1") /\
  @process_chat_data insertion_order_runtime Chat (PDict d) m = (Ok tt, m).
Proof.
  cbv zeta.
  assert (Huid : dget [("uid", PStr "viewer-1");
                       ("profile", PDict [("nickname", PStr "viewer")]);
                       ("msgTime", PInt 1000)] "uid" = Some (PStr "viewer-1"))
    by reflexivity.
  split; [exact Huid|].
  destruct (@X16_entries_without_message insertion_order_runtime Chat _ _
              (machine_of (watching_gg 1 60) fresh_files) Huid) as [Hskip _].
  apply Hskip; [reflexivity | right; reflexivity].
Defined.

(** X21 at two entries. *)
Lemma X21_contains_field_round_trip_witness :
  let entries :=
    [{| ConfigStore.keyword := "Pizza";
        ConfigStore.threshold := 2; ConfigStore.window := 30 |};
     {| ConfigStore.keyword := "ice cream";
        ConfigStore.threshold := 1; ConfigStore.window := 60 |}] in
  Forall printable entries /\
  @_format_contains_entries insertion_order_runtime entries
  = "Pizza:2:30, ice cream:1:60" /\
  @_parse_contains_entries insertion_order_runtime
    "Pizza:2:30, ice cream:1:60" 5 5 = entries.
Proof.
  cbv zeta.
  assert (Hentries : Forall printable
    [{| ConfigStore.keyword := "Pizza";
        ConfigStore.threshold := 2; ConfigStore.window := 30 |};
     {| ConfigStore.keyword := "ice cream";
        ConfigStore.threshold := 1; ConfigStore.window := 60 |}]).
  { repeat constructor; simpl; try lia; try discriminate. }
  split; [exact Hentries|].
  assert (Htext : @_format_contains_entries insertion_order_runtime
    [{| ConfigStore.keyword := "Pizza";
        ConfigStore.threshold := 2; ConfigStore.window := 30 |};
     {| ConfigStore.keyword := "ice cream";
        ConfigStore.threshold := 1; ConfigStore.window := 60 |}]
    = "Pizza:2:30, ice cream:1:60") by (vm_compute; reflexivity).
  split; [exact Htext|].
  rewrite <- Htext.
  exact (@X21_contains_field_round_trip insertion_order_runtime _ 5 5 Hentries).
Defined.

(** X22 at two keywords, threshold 3 and window 30. *)
Lemma X22_keyword_field_round_trip_witness :
  Forall (fun w => token w /\ free_of (is_char ":") w) ["gg"; "wp"] /\
  combo_value ["gg"; "wp"] 3 30 = "gg wp:3:30" /\
  @_parse_combo insertion_order_runtime "gg wp:3:30" 1 60 = (["gg"; "wp"], 3, 30).
Proof.
  assert (Hkws : Forall (fun w => token w /\ free_of (is_char ":") w) ["gg"; "wp"]).
  { repeat constructor; discriminate. }
  split; [exact Hkws|].
  split; [reflexivity|].
  change "gg wp:3:30" with (combo_value ["gg"; "wp"] 3 30).
  apply (@X22_keyword_field_round_trip insertion_order_runtime); [exact Hkws | lia | lia].
Defined.

(** X23 at a keyword field with two keywords and a Contains field that
    repeats a keyword in another case. *)
Lemma X23_start_saves_what_was_typed_witness :
  let f := settings (config_of ["old"] None None [("old", 9)] []) [] in
  let c :=
    @start_config insertion_order_runtime "gg wp:3:30" "Pizza:2, pizza:7, cake" 1 60 in
  let f' := snd (@ConfigStore.save_config insertion_order_runtime c f) in
  @ConfigStore.save_config insertion_order_runtime c f = (Ok tt, f') /\
  @ConfigStore.load_config insertion_order_runtime f'
  = {| ConfigStore.keywords := ["gg"; "wp"];
       ConfigStore.global_threshold := Some 3;
       ConfigStore.per_keyword_thresholds := [];
       ConfigStore.global_window := Some 30;
       ConfigStore.per_keyword_windows := [];
       ConfigStore.contains_keywords :=
         [{| ConfigStore.keyword := "Pizza";
             ConfigStore.threshold := 2; ConfigStore.window := 30 |};
          {| ConfigStore.keyword := "cake";
             ConfigStore.threshold := 3; ConfigStore.window := 30 |}] |}.
Proof.
  cbv zeta.
  assert (Hsave :
    @ConfigStore.save_config insertion_order_runtime
       (@start_config insertion_order_runtime "gg wp:3:30"
          "Pizza:2, pizza:7, cake" 1 60)
       (settings (config_of ["old"] None None [("old", 9)] []) [])
    = (Ok tt,
       snd (@ConfigStore.save_config insertion_order_runtime
                 (@start_config insertion_order_runtime "gg wp:3:30"
                    "Pizza:2, pizza:7, cake" 1 60)
                 (settings (config_of ["old"] None None [("old", 9)] []) []))))
    by (vm_compute; reflexivity).
  split; [exact Hsave|].
  etransitivity;
    [exact (@X23_start_saves_what_was_typed insertion_order_runtime
              "gg wp:3:30" "Pizza:2, pizza:7, cake" 1 60 _ _
              ltac:(lia) ltac:(lia) Hsave)|].
  vm_compute. reflexivity.
Defined.

(** X27 at one hour, two minutes and five seconds. *)
Lemma X27_format_duration_is_lossless_witness :
  0 <= 3725 /\
  format_duration 3725 = "01:02:05" /\
  parse_duration "01:02:05" = Some 3725.
Proof.
  assert (Hn : 0 <= 3725) by lia.
  split; [exact Hn|].
  split; [reflexivity|].
  change "01:02:05" with (format_duration 3725).
  exact (proj1 (X27_format_duration_is_lossless 3725 Hn)).
Defined.

(** X28 at a threshold for one keyword and a window for another. *)
Lemma X28_per_keyword_field_round_trip_witness :
  int_map_ok [("wp", 2)] /\ int_map_ok [("gg", 30)] /\
  @_format_per_combo insertion_order_runtime [("wp", 2)] [("gg", 30)]
  = "gg:1:30,wp:2:60" /\
  _parse_per_combo "gg:1:30,wp:2:60"
  = ([("gg", 1); ("wp", 2)], [("gg", 30); ("wp", 60)]).
Proof.
  assert (Ht : int_map_ok [("wp", 2)]).
  { split; repeat constructor; cbn; try discriminate; try lia; intros []. }
  assert (Hw : int_map_ok [("gg", 30)]).
  { split; repeat constructor; cbn; try discriminate; try lia; intros []. }
  split; [exact Ht|]. split; [exact Hw|]. split; [reflexivity|].
  change "gg:1:30,wp:2:60"
    with (@_format_per_combo insertion_order_runtime [("wp", 2)] [("gg", 30)]).
  refine (@X28_per_keyword_field_round_trip insertion_order_runtime
            [("wp", 2)] [("gg", 30)] Ht Hw _).
  repeat constructor; discriminate.
Defined.
